(** * NGINX-Logs-DB: the incremental ingestion pass of [main.py]

    A shallow embedding of [src/main.py]: the line grammar [LOG_PATTERN] and
    the backtracking matcher it is run with, the normalisation of a matched
    line into a row of [nginx_logs], the insert-if-absent write path, the
    progress state kept in the state file, and the pass driven by [main].

    Python text is a list of Unicode code points; bytes are [Byte.byte];
    integers are [Z]; the table [nginx_logs] is a finite map keyed by [id]. *)

From Stdlib Require Import ZArith NArith QArith List String Ascii Bool Lia.
From Stdlib.Strings Require Import Byte.
From stdpp Require Import base option list gmap pretty.

Local Open Scope N_scope.
Local Set Warnings "-register-all".

(** ** Text *)

Abbreviation char := N (only parsing).
Abbreviation str := (list N) (only parsing).

(** A literal of the source, as code points. *)
Definition u (s : string) : str :=
  List.map N_of_ascii (list_ascii_of_string s).

(** The double quote, U+0022. *)
Definition dq : str := [34].

(** [str.isspace] on one character, which is also the class [\s] of [re] on
    text patterns (Unicode 14, the White_Space characters Python counts). *)
Definition is_space (c : char) : bool :=
  ((9 <=? c) && (c <=? 13)) || ((28 <=? c) && (c <=? 32))
  || (c =? 133) || (c =? 160) || (c =? 5760)
  || ((8192 <=? c) && (c <=? 8202))
  || (c =? 8232) || (c =? 8233) || (c =? 8239) || (c =? 8287) || (c =? 12288).

(** The first code point of every run of ten decimal digits (category Nd,
    Unicode 14): the digit of value [k] of a run starting at [s] is [s + k]. *)
Definition decimal_runs : list N :=
  [48; 1632; 1776; 1984; 2406; 2534; 2662; 2790; 2918; 3046; 3174; 3302; 3430;
   3558; 3664; 3792; 3872; 4160; 4240; 6112; 6160; 6470; 6608; 6784; 6800;
   6992; 7088; 7232; 7248; 42528; 43216; 43264; 43472; 43504; 43600; 44016;
   65296; 66720; 68912; 69734; 69872; 69942; 70096; 70384; 70736; 70864;
   71248; 71360; 71472; 71904; 72016; 72784; 73040; 73120; 92768; 92864;
   93008; 120782; 120792; 120802; 120812; 120822; 123200; 123632; 125264;
   130032].

(** The decimal value of a character, when it is a decimal digit. *)
Definition decimal_value (c : char) : option N :=
  match List.find (fun s => (s <=? c) && (c <? s + 10)) decimal_runs with
  | Some s => Some (c - s)
  | None => None
  end.

(** The class [\d] of [re] on text patterns. *)
Definition is_digit (c : char) : bool :=
  match decimal_value c with Some _ => true | None => false end.

(** [str.strip()]: leading and trailing whitespace removed. *)
Fixpoint lstrip (s : str) : str :=
  match s with
  | c :: s' => if is_space c then lstrip s' else s
  | [] => []
  end.

Definition rstrip (s : str) : str := rev (lstrip (rev s)).

Definition strip (s : str) : str := rstrip (lstrip s).

(** ** The regular expressions [LOG_PATTERN] is written with *)

(** An item of a bracketed class. *)
Inductive atom : Type :=
  | Ch (c : char)          (* a literal character *)
  | ClsDigit               (* \d *)
  | ClsSpace.              (* \s *)

(** A one-character matcher. *)
Inductive cset : Type :=
  | AnyChar                (* .  : anything but a newline *)
  | OneOf (l : list atom)  (* [...] or a lone class escape *)
  | NoneOf (l : list atom). (* [^...] *)

Inductive regex : Type :=
  | Eps
  | Bol                               (* ^ *)
  | Lit (l : str)                     (* literal text *)
  | Star (c : cset)                   (* c*  greedy *)
  | Plus (c : cset)                   (* c+  greedy *)
  | LazyStar (c : cset)               (* c*? *)
  | Group (name : string) (r : regex) (* (?P<name>r) *)
  | Seq (r1 r2 : regex).

Definition atom_mem (a : atom) (c : char) : bool :=
  match a with
  | Ch x => c =? x
  | ClsDigit => is_digit c
  | ClsSpace => is_space c
  end.

Definition cset_mem (cs : cset) (c : char) : bool :=
  match cs with
  | AnyChar => negb (c =? 10)
  | OneOf l => existsb (fun a => atom_mem a c) l
  | NoneOf l => negb (existsb (fun a => atom_mem a c) l)
  end.

(** The captures of a match, most recent first. *)
Abbreviation groups := (list (string * list N)) (only parsing).

Fixpoint group_get (name : string) (g : groups) : option str :=
  match g with
  | (n, v) :: g' => if String.eqb n name then Some v else group_get name g'
  | [] => None
  end.

Fixpoint strip_prefix (l s : str) : option str :=
  match l, s with
  | [], _ => Some s
  | x :: l', y :: s' => if x =? y then strip_prefix l' s' else None
  | _ :: _, [] => None
  end.

Section Backtracking.
Context {A : Type}.

(** [c*] followed by [k]: the longest run first, then one character less
    at a time. *)
Fixpoint greedy (c : cset) (k : str -> option A) (s : str) : option A :=
  match s with
  | x :: s' =>
      if cset_mem c x
      then match greedy c k s' with
           | Some r => Some r
           | None => k s
           end
      else k s
  | [] => k []
  end.

(** [c*?] followed by [k]: the shortest run first. *)
Fixpoint lazy (c : cset) (k : str -> option A) (s : str) : option A :=
  match k s with
  | Some r => Some r
  | None =>
      match s with
      | x :: s' => if cset_mem c x then lazy c k s' else None
      | [] => None
      end
  end.
End Backtracking.

(** The matcher, in continuation-passing style: [rmatch subject r s g k]
    matches [r] at the suffix [s] of [subject] with the captures [g] so far
    and hands what is left, and the captures, to [k]; the first success in
    the order the backtracking engine of [re] tries the choices is the
    result. *)
Fixpoint rmatch (subject : str) (r : regex) (s : str) (g : groups)
    (k : str -> groups -> option groups) : option groups :=
  match r with
  | Eps => k s g
  | Bol => if (length s =? length subject)%nat then k s g else None
  | Lit l =>
      match strip_prefix l s with
      | Some s' => k s' g
      | None => None
      end
  | Star c => greedy c (fun s' => k s' g) s
  | Plus c =>
      match s with
      | x :: s' => if cset_mem c x then greedy c (fun s'' => k s'' g) s' else None
      | [] => None
      end
  | LazyStar c => lazy c (fun s' => k s' g) s
  | Group name r1 =>
      rmatch subject r1 s g
        (fun s' g' => k s' ((name, take (length s - length s') s) :: g'))
  | Seq r1 r2 =>
      rmatch subject r1 s g (fun s' g' => rmatch subject r2 s' g' k)
  end.

(** [pattern.match(s)]: a match anchored at the start of [s], which need not
    reach its end; the result is [m.groupdict()]. *)
Definition re_match (r : regex) (s : str) : option groups :=
  rmatch s r s [] (fun _ g => Some g).

Definition cat (rs : list regex) : regex := fold_right Seq Eps rs.

Definition ws : regex := Star (OneOf [ClsSpace]).
Definition pipe : char := 124.
Definition field (name : string) : regex := Group name (Plus (NoneOf [Ch pipe])).
(** The key of a pair, its equals sign and the opening quote. *)
Definition key (name : string) : regex := Lit (u name ++ u "=" ++ dq).
Definition number_chars : cset := OneOf [ClsDigit; Ch 46; Ch 45].

Definition LOG_PATTERN : regex :=
  cat [ Bol; Lit (u "["); Group "time_local" (Plus (NoneOf [Ch 93])); Lit (u "]");
        ws; Lit [pipe]; ws; field "host";
        ws; Lit [pipe]; ws; field "remote_addr";
        ws; Lit [pipe]; ws; field "remote_user";
        ws; Lit [pipe]; ws;
        Lit dq; Group "request" (LazyStar AnyChar); Lit dq; ws;
        key "Status"; Group "status" (Plus (OneOf [ClsDigit])); Lit dq; ws;
        key "BodyBytesSent";
        Group "body_bytes_sent" (Plus (OneOf [ClsDigit; Ch 45])); Lit dq; ws;
        key "Referer"; Group "http_referer" (Star (NoneOf [Ch 34])); Lit dq; ws;
        key "UserAgent"; Group "http_user_agent" (Star (NoneOf [Ch 34])); Lit dq; ws;
        key "RequestTime"; Group "request_time" (Plus number_chars); Lit dq; ws;
        key "UpstreamResponseTime";
        Group "upstream_response_time" (Plus number_chars); Lit dq; ws;
        key "GzipRatio"; Group "gzip_ratio" (Plus number_chars); Lit dq ].

(** ** Conversions of the runtime *)

(** The digits of a decimal literal: digits, with single underscores between
    digits only. [seen] tells that the previous character was a digit. *)
Fixpoint digits_value (acc : N) (seen : bool) (s : str) : option N :=
  match s with
  | [] => if seen then Some acc else None
  | c :: s' =>
      match decimal_value c with
      | Some d => digits_value (10 * acc + d) true s'
      | None => if (c =? 95) && seen then digits_value acc false s' else None
      end
  end.

(** The most digits [int] reads from a decimal literal: the default of
    [sys.int_max_str_digits], which the script does not change. *)
Definition max_str_digits : N := 4300.

(** The digits of a literal, none when they are more than the limit: the
    limit counts every digit, leading zeros too, and neither the sign nor
    the underscores. *)
Definition digit_count (r : str) : N := N.of_nat (length (List.filter is_digit r)).

Definition limited_digits (r : str) : option N :=
  if max_str_digits <? digit_count r then None
  else digits_value 0 false r.

(** [int(s)] on text, base ten: surrounding whitespace, one optional sign,
    then the digits, [max_str_digits] of them at most; [None] stands for
    [ValueError]. *)
Definition py_int (s : str) : option Z :=
  match strip s with
  | 45 :: r => option_map (fun n => (- Z.of_N n)%Z) (limited_digits r)
  | 43 :: r => option_map Z.of_N (limited_digits r)
  | r => option_map Z.of_N (limited_digits r)
  end.

(** ** UTF-8 and SHA-1 *)

Definition byte_of (n : N) : byte :=
  match Byte.of_N n with Some b => b | None => x00 end.

(** [c.encode('utf-8')] for one code point; a surrogate, or a number that is
    no code point, has no encoding ([UnicodeEncodeError]). *)
Definition utf8_char (c : char) : option (list byte) :=
  if c <? 128 then Some [byte_of c]
  else if c <? 2048 then
    Some [byte_of (192 + N.shiftr c 6); byte_of (128 + N.land c 63)]
  else if c <? 65536 then
    if (55296 <=? c) && (c <=? 57343) then None
    else Some [byte_of (224 + N.shiftr c 12);
               byte_of (128 + N.land (N.shiftr c 6) 63);
               byte_of (128 + N.land c 63)]
  else if c <? 1114112 then
    Some [byte_of (240 + N.shiftr c 18);
          byte_of (128 + N.land (N.shiftr c 12) 63);
          byte_of (128 + N.land (N.shiftr c 6) 63);
          byte_of (128 + N.land c 63)]
  else None.

Fixpoint utf8_encode (s : str) : option (list byte) :=
  match s with
  | [] => Some []
  | c :: s' =>
      match utf8_char c, utf8_encode s' with
      | Some b, Some bs => Some (b ++ bs)
      | _, _ => None
      end
  end.

Module SHA1.
(** Words are 32 bits wide: every sum is reduced modulo 2^32. *)
Definition w32 (x : N) : N := N.land x 4294967295.
Definition add32 (x y : N) : N := w32 (x + y).
Definition rotl (n x : N) : N :=
  w32 (N.lor (N.shiftl x n) (N.shiftr x (32 - n))).
Definition not32 (x : N) : N := N.lxor x 4294967295.

(** [n] as [k] bytes, most significant first. *)
Fixpoint be_bytes (k : nat) (n : N) : list N :=
  match k with
  | O => []
  | S k' => N.land (N.shiftr n (8 * N.of_nat k')) 255 :: be_bytes k' n
  end.

(** The message, the bit 1, zeros up to 56 modulo 64, the bit length. *)
Definition pad (msg : list N) : list N :=
  let len := length msg in
  let zeros := ((64 - (len + 9) mod 64) mod 64)%nat in
  msg ++ [128] ++ repeat 0 zeros ++ be_bytes 8 (8 * N.of_nat len).

Fixpoint be_words (bs : list N) : list N :=
  match bs with
  | a :: b :: c :: d :: bs' =>
      (N.shiftl a 24 + N.shiftl b 16 + N.shiftl c 8 + d) :: be_words bs'
  | _ => []
  end.

Record regs := { ra : N; rb : N; rc : N; rd : N; re : N }.

Definition f_k (t : nat) (b c d : N) : N * N :=
  if (t <? 20)%nat then (N.lor (N.land b c) (N.land (not32 b) d), 1518500249)
  else if (t <? 40)%nat then (N.lxor (N.lxor b c) d, 1859775393)
  else if (t <? 60)%nat then
    (N.lor (N.lor (N.land b c) (N.land b d)) (N.land c d), 2400959708)
  else (N.lxor (N.lxor b c) d, 3395469782).

(** Round [t]: the window holds the schedule words [t .. t+15]. *)
Definition round (st : regs * list N) (t : nat) : regs * list N :=
  let '(r, win) := st in
  let w := nth 0 win 0 in
  let '(f, k) := f_k t (rb r) (rc r) (rd r) in
  let tmp := add32 (add32 (add32 (add32 (rotl 5 (ra r)) f) (re r)) k) w in
  let next :=
    rotl 1 (N.lxor (N.lxor (N.lxor (nth 13 win 0) (nth 8 win 0)) (nth 2 win 0)) w) in
  ({| ra := tmp; rb := ra r; rc := rotl 30 (rb r); rd := rc r; re := rd r |},
   tl win ++ [next]).

Definition block (h : regs) (ws : list N) : regs :=
  let '(r, _) := fold_left round (seq 0 80) (h, ws) in
  {| ra := add32 (ra h) (ra r); rb := add32 (rb h) (rb r);
     rc := add32 (rc h) (rc r); rd := add32 (rd h) (rd r);
     re := add32 (re h) (re r) |}.

(** The blocks of sixteen words, in order; [n] bounds their number. *)
Fixpoint blocks (n : nat) (h : regs) (ws : list N) : regs :=
  match n, ws with
  | S n', _ :: _ => blocks n' (block h (take 16 ws)) (drop 16 ws)
  | _, _ => h
  end.

Definition init : regs :=
  {| ra := 1732584193; rb := 4023233417; rc := 2562383102;
     rd := 271733878; re := 3285377520 |}.

Definition digest (msg : list byte) : list N :=
  let ws := be_words (pad (List.map Byte.to_N msg)) in
  let r := blocks (length ws) init ws in
  concat (List.map (be_bytes 4) [ra r; rb r; rc r; rd r; re r]).

Definition hex_digit (n : N) : char := if n <? 10 then 48 + n else 87 + n.

(** [hashlib.sha1(msg).hexdigest()] *)
Definition hexdigest (msg : list byte) : str :=
  concat (List.map (fun b => [hex_digit (N.shiftr b 4); hex_digit (N.land b 15)])
                   (digest msg)).
End SHA1.

(** ** Python values and exceptions *)

Inductive exn : Type :=
  | KeyError | TypeError | ValueError | OverflowError | UnicodeEncodeError
  | FileNotFoundError | OSError
  | StoreError.            (* psycopg2.Error *)

Inductive result (A : Type) : Type :=
  | Ok (a : A)
  | Raise (e : exn).
Arguments Ok {A} a.
Arguments Raise {A} e.

(** What [json.loads] returns, over the floats [F] of the runtime. An object
    keeps its keys in order, each once. *)
Inductive json (F : Type) : Type :=
  | JNull
  | JBool (b : bool)
  | JInt (n : Z)
  | JFloat (f : F)
  | JStr (s : str)
  | JArr (l : list (json F))
  | JObj (d : list (list N * json F)).
Arguments JNull {F}.
Arguments JBool {F} b.
Arguments JInt {F} n.
Arguments JFloat {F} f.
Arguments JStr {F} s.
Arguments JArr {F} l.
Arguments JObj {F} d.

(** What the pass takes from the libraries it calls and this development
    leaves open: time parsing, binary floating point, the JSON reader and
    the text layer of file objects. *)
Class Runtime : Type := {
  (** [datetime] values *)
  datetime : Type;
  (** the [try] block of the time stamp: [datetime.strptime(s, FORMAT)], and
      [None] when it raises *)
  strptime : str -> option datetime;
  (** [float] values, [float(s)] ([None] for [ValueError]), [bool(f)], [0.0],
      [f == n] for an integer [n], and [repr(f)] *)
  pyfloat : Type;
  float_of_str : str -> option pyfloat;
  float_truth : pyfloat -> bool;
  float_zero : pyfloat;
  float_eq_int : pyfloat -> Z -> bool;
  float_repr : pyfloat -> str;
  (** [f < 0] for the integer 0, and [int(f)], which raises for a float
      that is no number or is infinite *)
  float_negative : pyfloat -> bool;
  float_int : pyfloat -> result Z;
  (** [json.loads] of the text of the state file; [None] when reading or
      parsing raises *)
  json_loads : str -> option (json pyfloat);
  (** the text a file opened with [encoding=utf-8, errors=ignore] yields for
      the bytes it reads: decoded, undecodable bytes dropped, line ends
      translated to a newline *)
  decode : list byte -> str;
  (** whether the file system of the file at a path lets the file be moved
      to a position beyond its end (one below 2^63) *)
  fs_accepts : str -> Z -> bool;
  (** what the text layer restores, for the file at a path and of given
      bytes, from a number from 2^64 on, which besides a position carries a
      state of the decoder, bytes to feed it and characters to skip: the
      byte position the lines are read from, or what it raises (a carriage
      return that the cookie says is pending can add one empty line in
      front, which the loop over the lines passes over) *)
  restore_cookie : str -> list byte -> Z -> result Z;
  (** nothing read, nothing yielded *)
  decode_nil : decode [] = []
}.

Fixpoint str_eqb (a b : str) : bool :=
  match a, b with
  | [], [] => true
  | x :: a', y :: b' => (x =? y) && str_eqb a' b'
  | _, _ => false
  end.

Fixpoint dict_get {V : Type} (k : str) (d : list (list N * V)) : option V :=
  match d with
  | (k', v) :: d' => if str_eqb k' k then Some v else dict_get k d'
  | [] => None
  end.

(** [d[k] = v]: the value of an existing key is replaced in place, a new
    key goes last. *)
Fixpoint dict_set {V : Type} (k : str) (v : V) (d : list (list N * V))
    : list (list N * V) :=
  match d with
  | (k', v') :: d' =>
      if str_eqb k' k then (k', v) :: d' else (k', v') :: dict_set k v d'
  | [] => [(k, v)]
  end.

(** ** [json.dumps] *)

Definition hex4 (n : N) : str :=
  [SHA1.hex_digit (N.land (N.shiftr n 12) 15); SHA1.hex_digit (N.land (N.shiftr n 8) 15);
   SHA1.hex_digit (N.land (N.shiftr n 4) 15); SHA1.hex_digit (N.land n 15)].

Definition uescape (n : N) : str := [92; 117] ++ hex4 n.

(** One character of a string, escaped as [ensure_ascii] asks. *)
Definition escape_char (c : char) : str :=
  if c =? 34 then [92; 34]
  else if c =? 92 then [92; 92]
  else if c =? 10 then [92; 110]
  else if c =? 13 then [92; 114]
  else if c =? 9 then [92; 116]
  else if c =? 8 then [92; 98]
  else if c =? 12 then [92; 102]
  else if (32 <=? c) && (c <=? 126) then [c]
  else if c <? 65536 then uescape c
  else uescape (55296 + N.shiftr (c - 65536) 10)
       ++ uescape (56320 + N.land (c - 65536) 1023).

Definition dumps_str (s : str) : str :=
  dq ++ concat (List.map escape_char s) ++ dq.

(** ** Rows and outcomes *)

(** A row of [nginx_logs], column by column ([uid] is the column [id]);
    [None] is SQL NULL. [T] is the type of time stamps and [F] that of
    floats. *)
Record row (T F : Type) : Type := {
  uid : str;
  time_local : option T;
  host : option str;
  remote_addr : option str;
  remote_user : option str;
  request : option str;
  status : option Z;
  body_bytes_sent : Z;
  http_referer : option str;
  http_user_agent : option str;
  request_time : F;
  upstream_response_time : F;
  gzip_ratio : F
}.
Arguments uid {T F} r.
Arguments time_local {T F} r.
Arguments host {T F} r.
Arguments remote_addr {T F} r.
Arguments remote_user {T F} r.
Arguments request {T F} r.
Arguments status {T F} r.
Arguments body_bytes_sent {T F} r.
Arguments http_referer {T F} r.
Arguments http_user_agent {T F} r.
Arguments request_time {T F} r.
Arguments upstream_response_time {T F} r.
Arguments gzip_ratio {T F} r.

(** What the body of the loop of [process_file] does with one line. *)
Inductive outcome (T F : Type) : Type :=
  | Blank                   (* empty once stripped: skipped *)
  | Unmatched               (* no match: logged and skipped *)
  | Insert (r : row T F)    (* the row handed to [cur.execute] *)
  | Raised (e : exn).       (* an exception leaves the loop *)
Arguments Blank {T F}.
Arguments Unmatched {T F}.
Arguments Insert {T F} r.
Arguments Raised {T F} e.

Section Values.
Context {RT : Runtime}.

Fixpoint json_dumps (v : json pyfloat) : str :=
  match v with
  | JNull => u "null"
  | JBool true => u "true"
  | JBool false => u "false"
  | JInt n => u (pretty n)
  | JFloat f => float_repr f
  | JStr s => dumps_str s
  | JArr l =>
      u "[" ++
      (fix items (l : list (json pyfloat)) : str :=
         match l with
         | [] => []
         | [x] => json_dumps x
         | x :: l' => json_dumps x ++ u ", " ++ items l'
         end) l
      ++ u "]"
  | JObj d =>
      u "{" ++
      (fix items (d : list (list N * json pyfloat)) : str :=
         match d with
         | [] => []
         | [(k, x)] => dumps_str k ++ u ": " ++ json_dumps x
         | (k, x) :: d' => dumps_str k ++ u ": " ++ json_dumps x ++ u ", " ++ items d'
         end) d
      ++ u "}"
  end.

(** [bool(v)] *)
Definition truth (v : json pyfloat) : bool :=
  match v with
  | JNull => false
  | JBool b => b
  | JInt n => negb (n =? 0)%Z
  | JFloat f => float_truth f
  | JStr s => negb (str_eqb s [])
  | JArr l => match l with [] => false | _ => true end
  | JObj d => match d with [] => false | _ => true end
  end.

(** [v == n] for an integer [n]; [True] and [False] are the integers 1
    and 0. *)
Definition eq_int (v : json pyfloat) (n : Z) : bool :=
  match v with
  | JInt m => (m =? n)%Z
  | JBool b => ((if b then 1 else 0) =? n)%Z
  | JFloat f => float_eq_int f n
  | _ => false
  end.

(** [v[k]] for a text key [k] *)
Definition subscript (v : json pyfloat) (k : str) : result (json pyfloat) :=
  match v with
  | JObj d =>
      match dict_get k d with
      | Some x => Ok x
      | None => Raise KeyError
      end
  | _ => Raise TypeError
  end.

(** [v[k] = x] for a text key [k] *)
Definition store_subscript (v : json pyfloat) (k : str) (x : json pyfloat)
    : result (json pyfloat) :=
  match v with
  | JObj d => Ok (JObj (dict_set k x d))
  | _ => Raise TypeError
  end.

(** ** One line *)

(** [value and value != '-'] *)
Definition present (value : option str) : option str :=
  match value with
  | Some v => if negb (str_eqb v []) && negb (str_eqb v (u "-")) then Some v else None
  | None => None
  end.

Definition to_nullable_float (value : option str) : result (option pyfloat) :=
  match present value with
  | Some v =>
      match float_of_str v with
      | Some f => Ok (Some f)
      | None => Raise ValueError
      end
  | None => Ok None
  end.

Definition to_nullable_int (value : option str) : result (option Z) :=
  match present value with
  | Some v =>
      match py_int v with
      | Some n => Ok (Some n)
      | None => Raise ValueError
      end
  | None => Ok None
  end.

(** [x or 0] *)
Definition or_zero (x : option Z) : Z :=
  match x with
  | Some n => n
  | None => 0%Z
  end.

(** [x or 0.0] *)
Definition or_float_zero (x : option pyfloat) : pyfloat :=
  match x with
  | Some f => if float_truth f then f else float_zero
  | None => float_zero
  end.

(** The loop over the four text fields: a value equal to a single dash
    becomes [None]. *)
Definition dash_to_none (value : option str) : option str :=
  match value with
  | Some v => if str_eqb v (u "-") then None else Some v
  | None => None
  end.

Definition bind_outcome {A : Type} (x : result A)
    (k : A -> outcome datetime pyfloat) : outcome datetime pyfloat :=
  match x with
  | Ok a => k a
  | Raise e => Raised e
  end.

(** The body of the loop of [process_file] (lines 101 to 126), up to the
    row it hands to [cur.execute]. *)
Definition process_line (raw : str) : outcome datetime pyfloat :=
  let line := strip raw in
  if str_eqb line [] then Blank
  else
    match re_match LOG_PATTERN line with
    | None => Unmatched
    | Some data =>
        let t := match group_get "time_local" data with
                 | Some s => strptime s
                 | None => None
                 end in
        match utf8_encode line with
        | None => Raised UnicodeEncodeError
        | Some bytes =>
            let uid := SHA1.hexdigest bytes in
            bind_outcome (to_nullable_int (group_get "status" data)) (fun st =>
            bind_outcome (to_nullable_int (group_get "body_bytes_sent" data)) (fun bbs =>
            bind_outcome (to_nullable_float (group_get "request_time" data)) (fun rt =>
            bind_outcome (to_nullable_float (group_get "upstream_response_time" data)) (fun urt =>
            bind_outcome (to_nullable_float (group_get "gzip_ratio" data)) (fun gz =>
            Insert {|
              uid := uid;
              time_local := t;
              host := group_get "host" data;
              remote_addr := group_get "remote_addr" data;
              remote_user := dash_to_none (group_get "remote_user" data);
              request := dash_to_none (group_get "request" data);
              status := st;
              body_bytes_sent := or_zero bbs;
              http_referer := dash_to_none (group_get "http_referer" data);
              http_user_agent := dash_to_none (group_get "http_user_agent" data);
              request_time := or_float_zero rt;
              upstream_response_time := or_float_zero urt;
              gzip_ratio := or_float_zero gz
            |})))))
        end
    end.
End Values.

(** ** The store, the files and the pass *)

(** [for line in f]: the lines of a text, each with its newline; the last
    one may lack it. *)
Fixpoint split_lines (s : str) : list str :=
  match s with
  | [] => []
  | c :: s' =>
      if c =? 10 then [c] :: split_lines s'
      else match split_lines s' with
           | [] => [[c]]
           | l :: ls => (c :: l) :: ls
           end
  end.

(** A path matched by [LOG_GLOB] and the file it leads to. [lf_mtime] is
    the float of seconds that [stat] reports, as the rational number it
    is: two times that the float does not tell apart are one number here. *)
Record logfile : Type := {
  lf_path : str;
  lf_dangling : bool;    (* a link whose target is gone: stat and open raise *)
  lf_inode : Z;          (* st_ino *)
  lf_mtime : Q;          (* st_mtime *)
  lf_bytes : list byte
}.

(** How the next write of the state file goes: [write_text] opens the file
    for writing, which empties it, and then writes the text. *)
Inductive write_outcome : Type :=
  | WriteCompletes
  | OpenFails              (* the file is left as it was *)
  | WriteStops (n : nat).  (* it fails once [n] characters are in the file *)

(** ** The store and the world *)

Section Store.
Context {T F : Type}.

(** [INSERT ... ON CONFLICT (id) DO NOTHING] on a table keyed by [id]. *)
Definition insert_if_absent (r : row T F) (t : gmap (list N) (row T F))
    : gmap (list N) (row T F) :=
  match t !! uid r with
  | Some _ => t
  | None => <[uid r := r]> t
  end.

Record database : Type := {
  durable : gmap (list N) (row T F);  (* the committed rows of nginx_logs *)
  session : gmap (list N) (row T F);  (* the table as the open transaction sees it *)
  schedule : list bool;         (* whether each coming operation fails *)
  failures : nat;               (* how many operations have failed *)
  executed : list (row T F)     (* the rows handed to the store, latest first *)
}.

Record world : Type := {
  state_file : option str;      (* the text of STATE_FILE_PATH, if it exists *)
  state_write : write_outcome;
  log_files : list logfile;     (* glob.glob(LOG_GLOB), in its order *)
  store : database
}.

Definition with_store (w : world) (d : database) : world :=
  {| state_file := state_file w; state_write := state_write w;
     log_files := log_files w; store := d |}.

Definition with_state_file (w : world) (f : option str) : world :=
  {| state_file := f; state_write := state_write w;
     log_files := log_files w; store := store w |}.

Definition with_tables (d : database) (dur ses : gmap (list N) (row T F)) : database :=
  {| durable := dur; session := ses; schedule := schedule d;
     failures := failures d; executed := executed d |}.

(** The rows [rs] written one after the other. *)
Definition write_all (rs : list (row T F)) (t : gmap (list N) (row T F))
    : gmap (list N) (row T F) :=
  fold_left (fun t r => insert_if_absent r t) rs t.
End Store.
Arguments database : clear implicits.
Arguments world : clear implicits.

Section Pass.
Context {RT : Runtime}.

#[local] Abbreviation world := (world datetime pyfloat).
#[local] Abbreviation database := (database datetime pyfloat).
#[local] Abbreviation row := (row datetime pyfloat).

(** Computations of the pass: they read and change the world and return a
    value or raise. *)
Definition M (A : Type) : Type := world -> result A * world.

Definition ret {A : Type} (a : A) : M A := fun w => (Ok a, w).
Definition raise {A : Type} (e : exn) : M A := fun w => (Raise e, w).
Definition lift {A : Type} (x : result A) : M A := fun w => (x, w).
Definition bind {A B : Type} (c : M A) (k : A -> M B) : M B :=
  fun w =>
    match c w with
    | (Ok a, w') => k a w'
    | (Raise e, w') => (Raise e, w')
    end.

Notation "'let*' x ':=' c 'in' k" := (bind c (fun x => k))
  (at level 10, x name, c at level 100, k at level 200).

(** One operation on the connection: it fails when the schedule says so,
    and changes the tables by [f] otherwise. *)
Definition db_op (f : database -> database) : M unit :=
  fun w =>
    let d := store w in
    match schedule d with
    | true :: rest =>
        (Raise StoreError,
         with_store w {| durable := durable d; session := session d;
                         schedule := rest; failures := S (failures d);
                         executed := executed d |})
    | _ =>
        (Ok tt,
         with_store w (f {| durable := durable d; session := session d;
                            schedule := tl (schedule d); failures := failures d;
                            executed := executed d |}))
    end.

(** [psycopg2.connect]: a new session sees the committed rows. *)
Definition get_db_conn : M unit :=
  db_op (fun d => with_tables d (durable d) (durable d)).

(** [conn.commit()] *)
Definition commit : M unit :=
  db_op (fun d => with_tables d (session d) (session d)).

(** [CREATE TABLE IF NOT EXISTS], then a commit. *)
Definition ensure_table_exists : M unit :=
  let* _ := db_op (fun d => d) in
  commit.

(** [cur.execute(INSERT ..., data)] *)
Definition execute_insert (r : row) : M unit :=
  db_op (fun d =>
           {| durable := durable d; session := insert_if_absent r (session d);
              schedule := schedule d; failures := failures d;
              executed := r :: executed d |}).

Definition fresh_state : json pyfloat :=
  JObj [(u "inode", JNull); (u "offset", JInt 0)].

Definition load_state : M (json pyfloat) :=
  fun w =>
    match state_file w with
    | Some text =>
        match json_loads text with
        | Some v => (Ok v, w)
        | None => (Ok fresh_state, w)
        end
    | None => (Ok fresh_state, w)
    end.

Definition save_state (state : json pyfloat) : M unit :=
  fun w =>
    let text := json_dumps state in
    match state_write w with
    | WriteCompletes => (Ok tt, with_state_file w (Some text))
    | OpenFails => (Raise OSError, w)
    | WriteStops n => (Raise OSError, with_state_file w (Some (take n text)))
    end.

(** One step of [max]: the file kept so far gives way to a file whose key
    is greater. *)
Definition later_of (best : option logfile) (f : logfile) : option logfile :=
  match best with
  | None => Some f
  | Some b => if Qle_bool (lf_mtime f) (lf_mtime b) then Some b else Some f
  end.

(** [max(files, key=lambda p: Path(p).stat().st_mtime)]: the first file of
    the latest time; none when there is no file, or when a path is a link
    whose target is gone, for which [stat] raises FileNotFoundError. *)
Definition latest_of (files : list logfile) : option logfile :=
  if existsb lf_dangling files then None
  else fold_left later_of files None.

Definition select_latest_log : M logfile :=
  fun w =>
    match latest_of (log_files w) with
    | Some f => (Ok f, w)
    | None => (Raise FileNotFoundError, w)
    end.

(** [lseek] to [p]: a position up to the end of the file is always
    reached; beyond it the file system decides, and no number from 2^63 on
    is a position. *)
Definition seek_to (f : logfile) (p : Z) : result Z :=
  if (p <=? Z.of_nat (length (lf_bytes f)))%Z then Ok p
  else if (p <? 2 ^ 63)%Z && fs_accepts (lf_path f) p then Ok p
  else Raise OSError.

(** [f.seek(n)] of the text layer for an integer [n]: a number below 2^64
    is a position, a greater one of up to 21 bytes a cookie. *)
Definition seek_cookie (f : logfile) (n : Z) : result Z :=
  if (n <? 0)%Z then Raise ValueError
  else if (n <? 2 ^ 64)%Z then seek_to f n
  else if (n <? 2 ^ 168)%Z then restore_cookie (lf_path f) (lf_bytes f) n
  else Raise OverflowError.

(** [path.open(...)] and [f.seek(v)] (lines 98 and 99): the byte position
    the lines are read from, or what the two raise. The text layer compares
    [v] with 0, which raises for what is no number, and then takes
    [int(v)]. *)
Definition as_offset (f : logfile) (v : json pyfloat) : result Z :=
  if lf_dangling f then Raise FileNotFoundError
  else
    match v with
    | JInt n => seek_cookie f n
    | JBool b => seek_cookie f (if b then 1 else 0)%Z
    | JFloat x =>
        if float_negative x then Raise ValueError
        else match float_int x with
             | Ok n => seek_cookie f n
             | Raise e => Raise e
             end
    | _ => Raise TypeError
    end.

(** The loop of [process_file] over the lines read. *)
Fixpoint write_lines (lines : list str) : M unit :=
  match lines with
  | [] => ret tt
  | l :: ls =>
      match process_line l with
      | Blank | Unmatched => write_lines ls
      | Insert r =>
          let* _ := execute_insert r in
          write_lines ls
      | Raised e => raise e
      end
  end.

(** The lines [f] yields once moved to [off]. *)
Definition lines_from (f : logfile) (off : Z) : list str :=
  split_lines (decode (drop (Z.to_nat off) (lf_bytes f))).

(** [f.tell()] once the lines are read: the end of the file, or the
    position moved to when that lies beyond it. *)
Definition tell_at_end (f : logfile) (off : Z) : Z :=
  Z.max off (Z.of_nat (length (lf_bytes f))).

(** [process_file(path, start_offset, conn)]: open the file and move to
    the offset, hand the lines to the store, take the position reached,
    commit, return it. *)
Definition process_file (f : logfile) (start_offset : json pyfloat) : M Z :=
  let* off := lift (as_offset f start_offset) in
  let* _ := write_lines (lines_from f off) in
  let new_offset := tell_at_end f off in
  let* _ := commit in
  ret new_offset.

(** The loop of the rotation branch: the first file whose inode is the
    stored one is read from the stored offset, and the loop ends there.
    [file_inode] raises for a link whose target is gone. *)
Fixpoint drain (files : list logfile) (state : json pyfloat) : M (json pyfloat) :=
  match files with
  | [] => ret state
  | p :: rest =>
      if lf_dangling p then raise FileNotFoundError
      else
      let* inode := lift (subscript state (u "inode")) in
      if eq_int inode (lf_inode p) then
        let* off := lift (subscript state (u "offset")) in
        let* new_offset := process_file p off in
        lift (store_subscript state (u "offset") (JInt new_offset))
      else drain rest state
  end.

(** [glob.glob(LOG_GLOB)] *)
Definition glob : M (list logfile) := fun w => (Ok (log_files w), w).

(** The rotation branch of [main] (lines 151 to 159). *)
Definition handle_rotation (cur_inode : Z) (state : json pyfloat) : M (json pyfloat) :=
  let* inode := lift (subscript state (u "inode")) in
  if truth inode && negb (eq_int inode cur_inode) then
    let* files := glob in
    let* state := drain files state in
    let* state := lift (store_subscript state (u "inode") (JInt cur_inode)) in
    lift (store_subscript state (u "offset") (JInt 0))
  else ret state.

(** [if state[inode] is None: state[inode] = cur_inode] (lines 161, 162) *)
Definition adopt_inode (cur_inode : Z) (state : json pyfloat) : M (json pyfloat) :=
  let* inode := lift (subscript state (u "inode")) in
  match inode with
  | JNull => lift (store_subscript state (u "inode") (JInt cur_inode))
  | _ => ret state
  end.

(** [main] once the state is loaded and the latest file chosen (lines 148
    to 165); [file_inode(latest)] comes first. *)
Definition ingest (latest : logfile) (state : json pyfloat) : M unit :=
  if lf_dangling latest then raise FileNotFoundError
  else
  let cur_inode := lf_inode latest in
  let* state := handle_rotation cur_inode state in
  let* state := adopt_inode cur_inode state in
  let* off := lift (subscript state (u "offset")) in
  let* new_offset := process_file latest off in
  let* state := lift (store_subscript state (u "offset") (JInt new_offset)) in
  save_state state.

(** [main], lines 143 to 147, then [ingest]. *)
Definition main : M unit :=
  let* state := load_state in
  let* _ := get_db_conn in
  let* _ := ensure_table_exists in
  let* latest := select_latest_log in
  ingest latest state.

(** One run of the script: [main], after which the process ends and the
    connection is dropped, so what was not committed is gone. *)
Definition pass (w : world) : result unit * world :=
  let '(r, w') := main w in
  (r, with_store w' (with_tables (store w') (durable (store w')) (durable (store w')))).
End Pass.

(** ** The vocabulary of the properties *)

Section Vocabulary.
Context {RT : Runtime}.

#[local] Abbreviation world := (world datetime pyfloat).
#[local] Abbreviation database := (database datetime pyfloat).
#[local] Abbreviation row := (row datetime pyfloat).

Implicit Types (w : world) (d : database).

(** The rows the lines [ls] are written as, in order. *)
Fixpoint inserted (ls : list str) : list row :=
  match ls with
  | [] => []
  | l :: ls' =>
      match process_line l with
      | Insert r => r :: inserted ls'
      | _ => inserted ls'
      end
  end.

(** No line of [ls] makes [process_line] raise. *)
Definition no_raise (ls : list str) : bool :=
  forallb (fun l => match process_line l with Raised _ => false | _ => true end) ls.

(** The store as an operation that does not fail finds it. *)
Definition next d : database :=
  {| durable := durable d; session := session d; schedule := tl (schedule d);
     failures := failures d; executed := executed d |}.

(** The world once the connection is open and the table ensured, when
    none of the three operations failed. *)
Definition connected w : world :=
  let d := next (store w) in
  let d := next (with_tables d (durable d) (durable d)) in
  let d := next d in
  with_store w (with_tables d (session d) (session d)).

(** From [w] to [w']: the files are as they were, failures are only
    counted up, the session has only gained rows, and the rows handed to
    the store since are in the session. *)
Definition step w w' : Prop :=
  state_file w' = state_file w
  /\ state_write w' = state_write w
  /\ log_files w' = log_files w
  /\ (failures (store w) <= failures (store w'))%nat
  /\ session (store w) ⊆ session (store w')
  /\ exists new,
       executed (store w') = new ++ executed (store w)
       /\ Forall (fun r => is_Some (session (store w') !! uid r)) new.

(** A computation that keeps [step], keeps the count of failures when it
    returns, and then establishes [Q]. *)
Definition keeps {A : Type} (c : M A) (Q : world -> A -> world -> Prop) : Prop :=
  forall w r w', c w = (r, w') ->
    step w w'
    /\ match r with
       | Ok a => failures (store w') = failures (store w) /\ Q w a w'
       | Raise _ => True
       end.

(** The state file after a run: as it was, or the text of a state, whole
    when the run returned, and cut where the write stopped when the write
    failed. *)
Definition written w (r : result unit) w' : Prop :=
  state_file w' = state_file w
  \/ exists state,
       (r = Ok tt /\ state_file w' = Some (json_dumps state))
       \/ (r = Raise OSError
           /\ exists n, state_write w = WriteStops n
                /\ state_file w' = Some (take n (json_dumps state))).

(** What a run from [w] to [w'] with result [r] owes: a failure of the
    store makes the run raise and leaves the state file as it was, and a
    state file that was written means that no operation failed and that
    every row of the session, those handed over since [w] among them, is
    committed. *)
Definition good w (r : result unit) w' : Prop :=
  state_write w' = state_write w /\ log_files w' = log_files w /\
  written w r w' /\
  exists new,
    executed (store w') = new ++ executed (store w)
    /\ (failures (store w') <> failures (store w) ->
        (exists e, r = Raise e) /\ state_file w' = state_file w)
    /\ (state_file w' <> state_file w ->
        failures (store w') = failures (store w)
        /\ session (store w) ⊆ durable (store w')
        /\ Forall (fun x => is_Some (durable (store w') !! uid x)) new).

(** Computations that end the pass: from a world where [P] holds they
    are [good]. *)
Definition lands (P : world -> Prop) (c : M unit) : Prop :=
  forall w r w', P w -> c w = (r, w') -> good w r w'.

Notation "'let*' x ':=' c 'in' k" := (bind c (fun x => k))
  (at level 10, x name, c at level 100, k at level 200).

(** Lines 150 to 164 of [main]: the state as [save_state] is handed it. *)
Definition advance (latest : logfile) (state : json pyfloat) : M (json pyfloat) :=
  let cur_inode := lf_inode latest in
  let* state := handle_rotation cur_inode state in
  let* state := adopt_inode cur_inode state in
  let* off := lift (subscript state (u "offset")) in
  let* new_offset := process_file latest off in
  lift (store_subscript state (u "offset") (JInt new_offset)).

(** [main] up to line 164: all of it but the call of [save_state]. *)
Definition new_state : M (json pyfloat) :=
  let* state := load_state in
  let* _ := get_db_conn in
  let* _ := ensure_table_exists in
  let* latest := select_latest_log in
  if lf_dangling latest then raise FileNotFoundError
  else advance latest state.
End Vocabulary.

(** Whether text starts with decimal digits, at least one unless [seen],
    and a double quote after them. *)
Fixpoint digits_then_quote (seen : bool) (s : str) : bool :=
  match s with
  | c :: s' =>
      if c =? 34 then seen
      else if is_digit c then digits_then_quote true s'
      else false
  | [] => false
  end.

(** Whether text holds, at some place, a pair Status of a non-empty run of
    decimal digits. *)
Fixpoint holds_status (s : str) : bool :=
  match s with
  | c :: s' =>
      match strip_prefix (u "Status=" ++ dq) s with
      | Some r => digits_then_quote false r
      | None => false
      end
      || holds_status s'
  | [] => false
  end.

(** The characters [is_space] accepts. *)
Definition spaces : list N :=
  [9; 10; 11; 12; 13; 28; 29; 30; 31; 32; 133; 160; 5760; 8192; 8193; 8194;
   8195; 8196; 8197; 8198; 8199; 8200; 8201; 8202; 8232; 8233; 8239; 8287;
   12288].

(** What a successful match of [r] means: [r] takes a prefix of [s] that its
    shape allows, leaves [s'], and turns the captures [g] into [g']. *)
Fixpoint denotes (subject : str) (r : regex) (s s' : str) (g g' : groups) : Prop :=
  match r with
  | Eps => s' = s /\ g' = g
  | Bol => s' = s /\ g' = g /\ length s = length subject
  | Lit l => s = l ++ s' /\ g' = g
  | Star c | LazyStar c =>
      exists w, s = w ++ s' /\ forallb (cset_mem c) w = true /\ g' = g
  | Plus c =>
      exists w, w <> [] /\ s = w ++ s' /\ forallb (cset_mem c) w = true /\ g' = g
  | Group name r1 =>
      exists w g1, denotes subject r1 s s' g g1 /\ s = w ++ s' /\ g' = (name, w) :: g1
  | Seq r1 r2 =>
      exists sm gm, denotes subject r1 s sm g gm /\ denotes subject r2 sm s' gm g'
  end.

(** ** A runtime to run the pass with

    Exact decimals for floats, time stamps of the one fixed width, a reader
    of JSON without fractions and escapes, ASCII log files, and a file
    system and a text layer as below. It agrees with the interpreter on
    the inputs evaluated below. *)
Module Reference.
(** The decimal [mant] times ten to the minus [scale]. *)
Record dec : Type := { mant : Z; scale : nat }.

(** The digits of one part of a decimal fraction: value and how many. *)
Fixpoint plain_digits (acc : N) (n : nat) (s : str) : option (N * nat) :=
  match s with
  | [] => Some (acc, n)
  | c :: s' =>
      match decimal_value c with
      | Some d => plain_digits (10 * acc + d) (S n) s'
      | None => None
      end
  end.

(** Text cut at its first dot. *)
Fixpoint cut_at_dot (s : str) : str * option str :=
  match s with
  | [] => ([], None)
  | c :: s' =>
      if c =? 46 then ([], Some s')
      else let '(a, b) := cut_at_dot s' in (c :: a, b)
  end.

(** Digits with an optional dot and optional digits, or a dot and digits. *)
Definition unsigned_float (s : str) : option dec :=
  let '(ip, fp) := cut_at_dot s in
  match plain_digits 0 0 ip, fp with
  | Some (i, ni), None =>
      if (ni =? 0)%nat then None else Some {| mant := Z.of_N i; scale := 0 |}
  | Some (i, ni), Some f =>
      match plain_digits 0 0 f with
      | Some (fv, nf) =>
          if ((ni =? 0) && (nf =? 0))%nat then None
          else Some {| mant := Z.of_N (i * 10 ^ N.of_nat nf + fv); scale := nf |}
      | None => None
      end
  | None, _ => None
  end.

(** [float(s)] on text made of digits, dots and dashes, which is all a
    capture of [LOG_PATTERN] handed to it can hold. *)
Definition float_of_str (s : str) : option dec :=
  match s with
  | 45 :: r =>
      option_map (fun d => {| mant := - mant d; scale := scale d |}) (unsigned_float r)
  | r => unsigned_float r
  end.

Definition float_truth (d : dec) : bool := negb (mant d =? 0)%Z.

Definition float_eq_int (d : dec) (n : Z) : bool :=
  (mant d =? n * 10 ^ Z.of_nat (scale d))%Z.

Definition float_repr (d : dec) : str :=
  let m := Z.abs_N (mant d) in
  let p := 10 ^ N.of_nat (scale d) in
  let frac := u (pretty (m mod p)) in
  (if (mant d <? 0)%Z then u "-" else [])
  ++ u (pretty (m / p)) ++ u "."
  ++ (if (scale d =? 0)%nat then u "0"
      else repeat 48 (scale d - length frac) ++ frac).

Definition ascii_digit (c : char) : bool := (48 <=? c) && (c <=? 57).

Definition two (a b : char) : N := 10 * (a - 48) + (b - 48).

Definition months : list str :=
  List.map u ["Jan"; "Feb"; "Mar"; "Apr"; "May"; "Jun";
              "Jul"; "Aug"; "Sep"; "Oct"; "Nov"; "Dec"]%string.

(** A time stamp of the width nginx writes, dd/Mon/yyyy:HH:MM:SS and a
    numeric zone, kept as its text. *)
Definition strptime (s : str) : option str :=
  match s with
  | [d1; d2; 47; m1; m2; m3; 47; y1; y2; y3; y4; 58; h1; h2; 58; i1; i2; 58;
     s1; s2; 32; sg; z1; z2; z3; z4] =>
      if forallb ascii_digit [d1; d2; y1; y2; y3; y4; h1; h2; i1; i2; s1; s2; z1; z2; z3; z4]
         && existsb (str_eqb [m1; m2; m3]) months
         && ((sg =? 43) || (sg =? 45))
         && (1 <=? two d1 d2) && (two d1 d2 <=? 31)
         && (two h1 h2 <? 24) && (two i1 i2 <? 60) && (two s1 s2 <? 60)
         && (two z1 z2 <? 24) && (two z3 z4 <? 60)
      then Some s else None
  | _ => None
  end.

(** *** The reader of JSON *)

Fixpoint skip_ws (s : str) : str :=
  match s with
  | c :: s' =>
      if (c =? 32) || (c =? 9) || (c =? 10) || (c =? 13) then skip_ws s' else s
  | [] => []
  end.

(** A string, from after its opening quote. *)
Fixpoint read_string (s : str) : option (str * str) :=
  match s with
  | [] => None
  | c :: s' =>
      if c =? 34 then Some ([], s')
      else if (c =? 92) || (c <? 32) then None
      else match read_string s' with
           | Some (t, r) => Some (c :: t, r)
           | None => None
           end
  end.

Fixpoint read_digits (acc : N) (s : str) : N * str :=
  match s with
  | c :: s' => if ascii_digit c then read_digits (10 * acc + (c - 48)) s' else (acc, s)
  | [] => (acc, [])
  end.

(** An integer; a fraction or an exponent after it is not read. *)
Definition read_int (s : str) : option (Z * str) :=
  let '(neg, r) := match s with 45 :: r => (true, r) | _ => (false, s) end in
  match r with
  | c :: r' =>
      if ascii_digit c then
        let '(n, rest) := if c =? 48 then (0, r') else read_digits 0 r in
        match rest with
        | x :: _ =>
            if (x =? 46) || (x =? 101) || (x =? 69) || ascii_digit x then None
            else Some (if neg then (- Z.of_N n)%Z else Z.of_N n, rest)
        | [] => Some (if neg then (- Z.of_N n)%Z else Z.of_N n, rest)
        end
      else None
  | [] => None
  end.

Inductive mode : Type :=
  | MValue
  | MItems (acc : list (json dec))
  | MMembers (acc : list (list N * json dec)).

Fixpoint read (fuel : nat) (m : mode) (s : str) : option (json dec * str) :=
  match fuel with
  | O => None
  | S n =>
      match m with
      | MValue =>
          match skip_ws s with
          | 110 :: 117 :: 108 :: 108 :: r => Some (JNull, r)
          | 116 :: 114 :: 117 :: 101 :: r => Some (JBool true, r)
          | 102 :: 97 :: 108 :: 115 :: 101 :: r => Some (JBool false, r)
          | 34 :: r =>
              match read_string r with
              | Some (t, r') => Some (JStr t, r')
              | None => None
              end
          | 91 :: r =>
              match skip_ws r with
              | 93 :: r' => Some (JArr [], r')
              | _ => read n (MItems []) r
              end
          | 123 :: r =>
              match skip_ws r with
              | 125 :: r' => Some (JObj [], r')
              | _ => read n (MMembers []) r
              end
          | r =>
              match read_int r with
              | Some (z, r') => Some (JInt z, r')
              | None => None
              end
          end
      | MItems acc =>
          match read n MValue s with
          | Some (v, r) =>
              match skip_ws r with
              | 44 :: r' => read n (MItems (acc ++ [v])) r'
              | 93 :: r' => Some (JArr (acc ++ [v]), r')
              | _ => None
              end
          | None => None
          end
      | MMembers acc =>
          match skip_ws s with
          | 34 :: r =>
              match read_string r with
              | Some (k, r1) =>
                  match skip_ws r1 with
                  | 58 :: r2 =>
                      match read n MValue r2 with
                      | Some (v, r3) =>
                          match skip_ws r3 with
                          | 44 :: r4 => read n (MMembers (dict_set k v acc)) r4
                          | 125 :: r4 => Some (JObj (dict_set k v acc), r4)
                          | _ => None
                          end
                      | None => None
                      end
                  | _ => None
                  end
              | None => None
              end
          | _ => None
          end
      end
  end.

Definition json_loads (s : str) : option (json dec) :=
  match read (2 * length s + 2) MValue s with
  | Some (v, r) => match skip_ws r with [] => Some v | _ => None end
  | None => None
  end.

(** ASCII text: a byte outside ASCII is dropped, a carriage return and
    the newline after it, or a lone carriage return, is one newline. *)
Fixpoint newlines (s : str) : str :=
  match s with
  | 13 :: s' =>
      10 :: match s' with
            | 10 :: s'' => newlines s''
            | _ => newlines s'
            end
  | c :: s' => c :: newlines s'
  | [] => []
  end.

Definition decode (bs : list byte) : str :=
  newlines (List.filter (fun c => c <? 128) (List.map Byte.to_N bs)).

Definition float_negative (d : dec) : bool := (mant d <? 0)%Z.

(** [int(d)]: the digits after the point are dropped. *)
Definition float_int (d : dec) : result Z :=
  Ok (Z.quot (mant d) (10 ^ Z.of_nat (scale d))).

(** A volume whose files end at 2^44 - 4096 bytes at the latest, as ext4
    with blocks of 4 KiB. *)
Definition fs_accepts (path : str) (p : Z) : bool := (p <=? 2 ^ 44 - 4096)%Z.

(** A cookie that carries flags of the decoder and nothing else is the
    position in its low 64 bits; a cookie that carries more is refused
    here. *)
Definition restore_cookie (path : str) (bs : list byte) (n : Z) : result Z :=
  let p := (n mod 2 ^ 64)%Z in
  if (n <? 2 ^ 96)%Z
     && ((p <=? Z.of_nat (length bs)) || ((p <? 2 ^ 63) && fs_accepts path p))%Z
  then Ok p
  else Raise OSError.

#[export] Instance runtime : Runtime :=
  Build_Runtime (list N) strptime dec float_of_str float_truth
    {| mant := 0; scale := 1 |} float_eq_int float_repr float_negative float_int
    json_loads decode fs_accepts restore_cookie eq_refl.
End Reference.

(** ** Sample lines and worlds *)

(** A line as nginx writes it, with the placeholder as user, referer,
    upstream time and ratio. *)
Definition sample_line : str :=
  u "[10/Oct/2023:13:55:36 +0000] | example.com | 127.0.0.1 | - | " ++ dq
  ++ u "GET /x HTTP/1.1" ++ dq ++ u " Status=" ++ dq ++ u "200" ++ dq
  ++ u " BodyBytesSent=" ++ dq ++ u "1024" ++ dq
  ++ u " Referer=" ++ dq ++ u "-" ++ dq
  ++ u " UserAgent=" ++ dq ++ u "curl/7.0" ++ dq
  ++ u " RequestTime=" ++ dq ++ u "0.002" ++ dq
  ++ u " UpstreamResponseTime=" ++ dq ++ u "-" ++ dq
  ++ u " GzipRatio=" ++ dq ++ u "-" ++ dq.

(** A line of the access log: the text written for the user between the
    third and the fourth bar, and the values of Status, BodyBytesSent and
    Referer. *)
Definition log_line (user status bytes referer : string) : str :=
  u "[10/Oct/2023:13:55:36 +0000] | example.com | 127.0.0.1 |" ++ u user
  ++ u "| " ++ dq ++ u "GET /x HTTP/1.1" ++ dq
  ++ u " Status=" ++ dq ++ u status ++ dq
  ++ u " BodyBytesSent=" ++ dq ++ u bytes ++ dq
  ++ u " Referer=" ++ dq ++ u referer ++ dq
  ++ u " UserAgent=" ++ dq ++ u "curl/7.0" ++ dq
  ++ u " RequestTime=" ++ dq ++ u "0.002" ++ dq
  ++ u " UpstreamResponseTime=" ++ dq ++ u "-" ++ dq
  ++ u " GzipRatio=" ++ dq ++ u "-" ++ dq.

(** A line whose request text holds a pair Status with the placeholder,
    before the pair Status of the line itself. *)
Definition two_status_line : str :=
  u "[10/Oct/2023:13:55:36 +0000] | example.com | 127.0.0.1 | - | " ++ dq
  ++ u "GET /x" ++ dq ++ u " Status=" ++ dq ++ u "-" ++ dq ++ u " HTTP/1.1" ++ dq
  ++ u " Status=" ++ dq ++ u "200" ++ dq
  ++ u " BodyBytesSent=" ++ dq ++ u "1024" ++ dq
  ++ u " Referer=" ++ dq ++ u "-" ++ dq
  ++ u " UserAgent=" ++ dq ++ u "curl/7.0" ++ dq
  ++ u " RequestTime=" ++ dq ++ u "0.002" ++ dq
  ++ u " UpstreamResponseTime=" ++ dq ++ u "-" ++ dq
  ++ u " GzipRatio=" ++ dq ++ u "-" ++ dq.

(** The row the reference runtime makes of [sample_line]. *)
Definition sample_row : row (list N) Reference.dec :=
  {| uid := u "e0e4cbc3f73b45e397ce9e8db1d5cf35e867628f";
     time_local := Some (u "10/Oct/2023:13:55:36 +0000");
     host := Some (u "example.com ");
     remote_addr := Some (u "127.0.0.1 ");
     remote_user := Some (u "- ");
     request := Some (u "GET /x HTTP/1.1");
     status := Some 200%Z;
     body_bytes_sent := 1024%Z;
     http_referer := None;
     http_user_agent := Some (u "curl/7.0");
     request_time := Reference.Build_dec 2 3;
     upstream_response_time := Reference.Build_dec 0 1;
     gzip_ratio := Reference.Build_dec 0 1 |}.

Definition bytes_of (s : str) : list byte := List.map byte_of s.

(** A rotated file of two lines and the file that took its place. *)
Definition old_log : logfile :=
  {| lf_path := u "/var/log/nginx/access.log.1"; lf_dangling := false;
     lf_inode := 7; lf_mtime := 10%Q;
     lf_bytes := bytes_of (sample_line ++ [10] ++ log_line " - " "404" "-" "-" ++ [10]) |}.

Definition new_log : logfile :=
  {| lf_path := u "/var/log/nginx/access.log"; lf_dangling := false;
     lf_inode := 8; lf_mtime := 20%Q;
     lf_bytes := bytes_of (log_line "-" "500" "12" "" ++ [10]) |}.

(** The rows of the second line of [old_log] and of the line of
    [new_log]. *)
Definition row_404 : row (list N) Reference.dec :=
  {| uid := u "b9739bd8876e894c44090cec73db65333fcf44b5";
     time_local := Some (u "10/Oct/2023:13:55:36 +0000");
     host := Some (u "example.com ");
     remote_addr := Some (u "127.0.0.1 ");
     remote_user := Some (u "- ");
     request := Some (u "GET /x HTTP/1.1");
     status := Some 404%Z;
     body_bytes_sent := 0%Z;
     http_referer := None;
     http_user_agent := Some (u "curl/7.0");
     request_time := Reference.Build_dec 2 3;
     upstream_response_time := Reference.Build_dec 0 1;
     gzip_ratio := Reference.Build_dec 0 1 |}.

Definition row_500 : row (list N) Reference.dec :=
  {| uid := u "2b033bf4831dc65695880bc416e2bee3fb115910";
     time_local := Some (u "10/Oct/2023:13:55:36 +0000");
     host := Some (u "example.com ");
     remote_addr := Some (u "127.0.0.1 ");
     remote_user := None;
     request := Some (u "GET /x HTTP/1.1");
     status := Some 500%Z;
     body_bytes_sent := 12%Z;
     http_referer := Some [];
     http_user_agent := Some (u "curl/7.0");
     request_time := Reference.Build_dec 2 3;
     upstream_response_time := Reference.Build_dec 0 1;
     gzip_ratio := Reference.Build_dec 0 1 |}.

(** A rotated file whose second line has two dashes as byte count. *)
Definition spoiled_old_log : logfile :=
  {| lf_path := u "/var/log/nginx/access.log.1"; lf_dangling := false;
     lf_inode := 7; lf_mtime := 10%Q;
     lf_bytes := bytes_of (sample_line ++ [10] ++ log_line "-" "200" "--" "-" ++ [10]) |}.

Definition empty_store (faults : list bool) : database (list N) Reference.dec :=
  {| durable := ∅; session := ∅; schedule := faults; failures := 0; executed := [] |}.

Definition state_of (inode offset : Z) : list (list N * json Reference.dec) :=
  [(u "inode", JInt inode); (u "offset", JInt offset)].

(** The world of a pass: the text of the state file, how its next write
    goes, and the failures scheduled for the store. *)
Definition world_with (state : option str) (wo : write_outcome) (faults : list bool)
    : world (list N) Reference.dec :=
  {| state_file := state; state_write := wo;
     log_files := [old_log; new_log]; store := empty_store faults |}.

(** The old file was read up to the end of its first line. *)
Definition rotated_world : world (list N) Reference.dec :=
  world_with (Some (json_dumps (RT := Reference.runtime) (JObj (state_of 7 205))))
    WriteCompletes [].

(** The latest file is the one of the stored inode. *)
Definition same_file_world : world (list N) Reference.dec :=
  world_with (Some (json_dumps (RT := Reference.runtime) (JObj (state_of 8 0))))
    WriteCompletes [].

(** The store fails at the commit that follows the latest file. *)
Definition failing_world : world (list N) Reference.dec :=
  world_with (state_file rotated_world) WriteCompletes
    [false; false; false; false; false; false; true].

(** The write of the state file stops before its first character, or after
    nine. *)
Definition stopped_world (n : nat) : world (list N) Reference.dec :=
  world_with (state_file rotated_world) (WriteStops n) [].

(** The state file holds an object with no key. *)
Definition keyless_world : world (list N) Reference.dec :=
  world_with (Some (u "{}")) WriteCompletes [].

(** ** The vocabulary of the further properties *)

(** The digits [hexdigest] writes. *)
Definition is_lower_hex (c : char) : bool :=
  ((48 <=? c) && (c <=? 57)) || ((97 <=? c) && (c <=? 102)).

(** Text of decimal digits and dashes: what the class of BodyBytesSent lets
    through. *)
Definition digits_or_dashes (v : str) : bool :=
  forallb (fun c => is_digit c || (c =? 45)) v.

(** Decimal digits, after one dash or none. *)
Definition signed_digits (v : str) : bool :=
  match v with
  | c :: r =>
      if c =? 45 then negb (str_eqb r []) && forallb is_digit r
      else forallb is_digit v
  | [] => false
  end.

(** A file whose second line has two dashes as byte count, a file of
    lines that are blank or no log lines, and worlds over chosen files. *)
Definition poison_log : logfile :=
  {| lf_path := u "/var/log/nginx/access.log"; lf_dangling := false;
     lf_inode := 9; lf_mtime := 30%Q;
     lf_bytes := bytes_of (sample_line ++ [10] ++ log_line "-" "200" "--" "-" ++ [10]) |}.

Definition junk_log : logfile :=
  {| lf_path := u "/var/log/nginx/access.log"; lf_dangling := false;
     lf_inode := 5; lf_mtime := 40%Q;
     lf_bytes := bytes_of (u "hello" ++ [10; 10] ++ u "  GET / " ++ [10]) |}.

Definition world_over (files : list logfile) (state : option str)
    : world (list N) Reference.dec :=
  {| state_file := state; state_write := WriteCompletes;
     log_files := files; store := empty_store [] |}.

Definition state_text (inode offset : Z) : str :=
  json_dumps (RT := Reference.runtime) (JObj (state_of inode offset)).

Section MoreVocabulary.
Context {RT : Runtime}.

#[local] Abbreviation world := (world datetime pyfloat).

(** A line the loop of [process_file] passes over: blank or unmatched. *)
Definition skipped (l : str) : bool :=
  match process_line l with
  | Blank | Unmatched => true
  | _ => false
  end.

(** From [w] to [w'], when the session of [w] holds the committed rows: the
    committed rows are still there, as they were, and the session still
    holds them. *)
Definition grows (w w' : world) : Prop :=
  durable (store w) ⊆ session (store w) ->
  durable (store w) ⊆ durable (store w')
  /\ durable (store w') ⊆ session (store w').

Definition respects {A : Type} (c : M A) : Prop :=
  forall w r w', c w = (r, w') -> grows w w'.
End MoreVocabulary.

(** * Properties *)

(** ** Text *)

Lemma str_eqb_eq (a b : str) : str_eqb a b = true <-> a = b.
Proof.
  revert b; induction a as [|x a IH]; intros [|y b]; simpl; split;
    try congruence; try discriminate.
  - intros H. apply andb_true_iff in H as [H1 H2].
    apply N.eqb_eq in H1. apply IH in H2. congruence.
  - intros H. injection H as -> ->.
    rewrite N.eqb_refl. simpl. now apply IH.
Qed.

Lemma str_eqb_refl (a : str) : str_eqb a a = true.
Proof. now apply str_eqb_eq. Qed.

Lemma is_space_spaces (c : char) : is_space c = true -> In c spaces.
Proof.
  unfold is_space. intros H.
  repeat (apply orb_true_iff in H as [H|H]);
    repeat (apply andb_true_iff in H as [? H]);
    repeat match goal with
           | H : (_ <=? _) = true |- _ => apply N.leb_le in H
           | H : (_ =? _) = true |- _ => apply N.eqb_eq in H
           end;
    unfold spaces; simpl.
  - assert (c = 9 \/ c = 10 \/ c = 11 \/ c = 12 \/ c = 13) by lia. intuition.
  - assert (c = 28 \/ c = 29 \/ c = 30 \/ c = 31 \/ c = 32) by lia. intuition.
  - intuition.
  - intuition.
  - intuition.
  - assert (c = 8192 \/ c = 8193 \/ c = 8194 \/ c = 8195 \/ c = 8196 \/ c = 8197
            \/ c = 8198 \/ c = 8199 \/ c = 8200 \/ c = 8201 \/ c = 8202) by lia.
    intuition.
  - intuition.
  - intuition.
  - intuition.
  - intuition.
  - intuition.
Qed.

(** No decimal digit is a blank. *)
Lemma digit_not_space (c : char) : is_digit c = true -> is_space c = false.
Proof.
  intros Hd. destruct (is_space c) eqn:Hs; [|reflexivity].
  apply is_space_spaces in Hs.
  assert (Hall : forallb (fun x => negb (is_digit x)) spaces = true) by (vm_compute; reflexivity).
  rewrite forallb_forall in Hall. specialize (Hall c Hs).
  rewrite Hd in Hall. discriminate.
Qed.

Lemma lstrip_head (c : char) (s : str) :
  is_space c = false -> lstrip (c :: s) = c :: s.
Proof. intros H. simpl. now rewrite H. Qed.

(** Text of decimal digits only is left as it is by [strip]. *)
Lemma strip_digits (s : str) : forallb is_digit s = true -> strip s = s.
Proof.
  intros H. unfold strip, rstrip.
  assert (Hl : forall t : str, forallb is_digit t = true -> lstrip t = t).
  { intros [|c t] Ht; [reflexivity|]. simpl in Ht.
    apply andb_true_iff in Ht as [Hc _].
    apply lstrip_head. now apply digit_not_space. }
  rewrite (Hl s H). rewrite Hl.
  - apply rev_involutive.
  - rewrite forallb_forall in *. intros x Hx. apply H. now apply in_rev.
Qed.

Lemma digits_value_digits (s : str) (acc : N) :
  s <> [] -> forallb is_digit s = true ->
  exists n, digits_value acc false s = Some n.
Proof.
  assert (Hgen : forall (t : str) a b, (t <> [] \/ b = true) ->
            forallb is_digit t = true -> exists n, digits_value a b t = Some n).
  { induction t as [|c t IH]; intros a b Hne Hd.
    - destruct Hne as [Hne| ->]; [congruence|]. simpl. eauto.
    - simpl in *. apply andb_true_iff in Hd as [Hc Ht].
      unfold is_digit in Hc. destruct (decimal_value c) as [d|]; [|discriminate].
      apply IH; auto. }
  intros Hne Hd. apply Hgen; auto.
Qed.

(** [int] reads every non-empty run of decimal digits within the limit. *)
Lemma limited_digits_digits (s : str) :
  s <> [] -> forallb is_digit s = true -> N.of_nat (length s) <= max_str_digits ->
  exists n, limited_digits s = Some n.
Proof.
  intros Hne Hd Hlen. unfold limited_digits, digit_count.
  assert (Hf : List.filter is_digit s = s).
  { clear Hne Hlen. induction s as [|c t IH]; [reflexivity|].
    simpl in *. apply andb_true_iff in Hd as [-> Ht]. now rewrite IH. }
  rewrite Hf. destruct (N.ltb_spec max_str_digits (N.of_nat (length s))); [lia|].
  now apply digits_value_digits.
Qed.

(** ** The matcher *)

Lemma strip_prefix_app (l s s' : str) : strip_prefix l s = Some s' -> s = l ++ s'.
Proof.
  revert s; induction l as [|x l IH]; intros s H; simpl in H.
  - now injection H as ->.
  - destruct s as [|y s]; [discriminate|].
    destruct (x =? y) eqn:E; [|discriminate].
    apply N.eqb_eq in E as ->. simpl. f_equal. now apply IH.
Qed.

Lemma greedy_sound {A : Type} (c : cset) (k : str -> option A) (s : str) (res : A) :
  greedy c k s = Some res ->
  exists w s', s = w ++ s' /\ forallb (cset_mem c) w = true /\ k s' = Some res.
Proof.
  induction s as [|x s IH]; simpl; intros H.
  - exists [], []. auto.
  - destruct (cset_mem c x) eqn:Hx.
    + destruct (greedy c k s) as [r|] eqn:Hg.
      * injection H as ->. destruct (IH eq_refl) as (w & s' & -> & Hw & Hk).
        exists (x :: w), s'. simpl. rewrite Hx, Hw. auto.
      * exists [], (x :: s). auto.
    + exists [], (x :: s). auto.
Qed.

Lemma lazy_sound {A : Type} (c : cset) (k : str -> option A) (s : str) (res : A) :
  lazy c k s = Some res ->
  exists w s', s = w ++ s' /\ forallb (cset_mem c) w = true /\ k s' = Some res.
Proof.
  induction s as [|x s IH]; simpl; intros H.
  - destruct (k []) eqn:Hk; [|discriminate]. exists [], []. rewrite Hk. auto.
  - destruct (k (x :: s)) eqn:Hk.
    + exists [], (x :: s). rewrite Hk. auto.
    + destruct (cset_mem c x) eqn:Hx; [|discriminate].
      destruct (IH H) as (w & s' & -> & Hw & Hk').
      exists (x :: w), s'. simpl. rewrite Hx, Hw. auto.
Qed.

(** What [r] takes is a prefix of the text it is matched at. *)
Lemma denotes_prefix (subject : str) (r : regex) :
  forall s s' g g', denotes subject r s s' g g' -> exists w, s = w ++ s'.
Proof.
  induction r as [| |l|c|c|c|name r IH|r1 IH1 r2 IH2]; simpl; intros s s' g g' H.
  - destruct H as [-> _]. now exists [].
  - destruct H as [-> _]. now exists [].
  - destruct H as [-> _]. now exists l.
  - destruct H as (w & -> & _). now exists w.
  - destruct H as (w & _ & -> & _). now exists w.
  - destruct H as (w & -> & _). now exists w.
  - destruct H as (w & g1 & _ & -> & _). now exists w.
  - destruct H as (sm & gm & H1 & H2).
    destruct (IH1 _ _ _ _ H1) as [w1 ->]. destruct (IH2 _ _ _ _ H2) as [w2 ->].
    exists (w1 ++ w2). now rewrite app_assoc.
Qed.

(** Soundness of the matcher: a result comes from a match that [denotes]
    allows, continued by [k]. *)
Lemma rmatch_sound (subject : str) (r : regex) :
  forall s g k res,
    rmatch subject r s g k = Some res ->
    exists s' g', denotes subject r s s' g g' /\ k s' g' = Some res.
Proof.
  induction r as [| |l|c|c|c|name r IH|r1 IH1 r2 IH2]; simpl; intros s g k res H.
  - eauto.
  - destruct (length s =? length subject)%nat eqn:E; [|discriminate].
    apply Nat.eqb_eq in E. exists s, g. auto.
  - destruct (strip_prefix l s) as [s'|] eqn:E; [|discriminate].
    apply strip_prefix_app in E. eauto.
  - apply greedy_sound in H as (w & s' & -> & Hw & Hk). exists s', g. eauto.
  - destruct s as [|x s]; [discriminate|].
    destruct (cset_mem c x) eqn:Hx; [|discriminate].
    apply greedy_sound in H as (w & s' & -> & Hw & Hk).
    exists s', g. split; [|exact Hk].
    exists (x :: w). simpl. rewrite Hx, Hw. repeat split; congruence.
  - apply lazy_sound in H as (w & s' & -> & Hw & Hk). exists s', g. eauto.
  - apply IH in H as (s' & g' & Hd & Hk).
    destruct (denotes_prefix _ _ _ _ _ _ Hd) as [w ->].
    rewrite length_app in Hk.
    replace (length w + length s' - length s')%nat with (length w) in Hk by lia.
    rewrite take_app_length in Hk.
    exists s', ((name, w) :: g'). split; [|exact Hk]. exists w, g'. auto.
  - apply IH1 in H as (sm & gm & H1 & H).
    apply IH2 in H as (s' & g' & H2 & Hk). eauto 10.
Qed.

Lemma app_split_at {A : Type} (a rest pre tail : list A) :
  rest = pre ++ tail -> a ++ rest = (a ++ pre) ++ tail.
Proof. intros ->. apply app_assoc. Qed.

(** Every match of [LOG_PATTERN] captured, as [status], a non-empty run of
    decimal digits that stands in the line between [Status=], a quote, and
    a quote. *)
Lemma status_capture (line : str) (data : groups) :
  re_match LOG_PATTERN line = Some data ->
  exists st pre sp rest,
    group_get "status" data = Some st /\ st <> [] /\ forallb is_digit st = true
    /\ forallb is_space sp = true
    /\ line = pre ++ u "Status=" ++ dq ++ st ++ dq
              ++ sp ++ u "BodyBytesSent=" ++ dq ++ rest.
Proof.
  unfold re_match. intros H.
  apply rmatch_sound in H as (s' & g' & Hd & Hk). injection Hk as <-.
  unfold LOG_PATTERN, cat, field, key, ws in Hd. cbn [fold_right denotes] in Hd.
  repeat match goal with
         | H : exists _, _ |- _ => destruct H
         | H : _ /\ _ |- _ => destruct H
         end.
  subst.
  repeat match goal with
         | H : ?a ++ ?t = ?b ++ ?t |- _ => apply app_inv_tail in H; subst
         end.
  cbn [group_get String.eqb Ascii.eqb Bool.eqb].
  match goal with
  | Hne : ?st <> [], Hall : forallb (cset_mem (OneOf [ClsDigit])) ?st = true |- _ =>
      exists st
  end.
  eexists. eexists. eexists.
  split; [reflexivity|]. split; [assumption|]. split; [|split].
  - match goal with
    | Hall : forallb (cset_mem (OneOf [ClsDigit])) ?st = true |- _ => rewrite <- Hall
    end.
    clear. match goal with |- forallb _ ?l = _ => induction l as [|c l IHl] end;
      [reflexivity|]. simpl. rewrite IHl. now rewrite orb_false_r.
  - shelve.
  - repeat lazymatch goal with
           | |- (u "Status" ++ _) ++ _ = _ => fail
           | |- _ ++ _ = _ => eapply app_split_at
           end.
    refine (eq_refl : _ = [] ++ _).
    Unshelve.
    assert (Hsp : forall v, forallb (cset_mem (OneOf [ClsSpace])) v = true ->
                            forallb is_space v = true).
    { intros v Hv. rewrite <- Hv. clear. induction v as [|c v IH]; [reflexivity|].
      simpl. rewrite IH. now rewrite orb_false_r. }
    apply Hsp. assumption.
Qed.

Lemma strip_prefix_refl (l r : str) : strip_prefix l (l ++ r) = Some r.
Proof.
  induction l as [|x l IH]; [reflexivity|]. simpl. now rewrite N.eqb_refl.
Qed.

Lemma digits_then_quote_digits (st post : str) (seen : bool) :
  forallb is_digit st = true -> (st <> [] \/ seen = true) ->
  digits_then_quote seen (st ++ dq ++ post) = true.
Proof.
  revert seen. induction st as [|c st IH]; intros seen Hd Hne.
  - destruct Hne as [Hne| ->]; [congruence|reflexivity].
  - simpl in Hd. apply andb_true_iff in Hd as [Hc Hd]. simpl.
    destruct (c =? 34) eqn:E.
    { apply N.eqb_eq in E. subst c. vm_compute in Hc. discriminate. }
    rewrite Hc. apply IH; auto.
Qed.

(** [holds_status] finds every pair Status of a non-empty run of digits. *)
Lemma holds_status_complete (pre st post : str) :
  st <> [] -> forallb is_digit st = true ->
  holds_status (pre ++ u "Status=" ++ dq ++ st ++ dq ++ post) = true.
Proof.
  intros Hne Hd. induction pre as [|c pre IH].
  - change ([] ++ u "Status=" ++ dq ++ st ++ dq ++ post)
      with (83 :: ((u "tatus=" ++ dq) ++ st ++ dq ++ post)).
    cbn [holds_status].
    change (83 :: (u "tatus=" ++ dq) ++ st ++ dq ++ post)
      with ((u "Status=" ++ dq) ++ st ++ dq ++ post).
    rewrite strip_prefix_refl, digits_then_quote_digits; auto.
  - change ((c :: pre) ++ u "Status=" ++ dq ++ st ++ dq ++ post)
      with (c :: (pre ++ u "Status=" ++ dq ++ st ++ dq ++ post)).
    cbn [holds_status]. rewrite IH. apply orb_true_r.
Qed.

Lemma no_status_pair (s : str) :
  holds_status s = false ->
  forall pre st post,
    s = pre ++ u "Status=" ++ dq ++ st ++ dq ++ post ->
    st = [] \/ forallb is_digit st = false.
Proof.
  intros H pre st post ->.
  destruct st as [|c st]; [now left|]. right.
  destruct (forallb is_digit (c :: st)) eqn:Hd; [|reflexivity].
  rewrite holds_status_complete in H; [discriminate|discriminate|exact Hd].
Qed.

Example sample_line_is_a_log_line : sample_line = log_line " - " "200" "1024" "-".
Proof. reflexivity. Qed.

Example sample_line_row :
  process_line (RT := Reference.runtime) sample_line = Insert sample_row.
Proof. vm_compute. reflexivity. Qed.

Section Lines.
Context {RT : Runtime}.

Lemma present_digits (st : str) :
  st <> [] -> forallb is_digit st = true -> present (Some st) = Some st.
Proof.
  intros Hne Hd. unfold present.
  destruct (str_eqb st []) eqn:E1; [apply str_eqb_eq in E1; congruence|].
  destruct (str_eqb st (u "-")) eqn:E2; [|reflexivity].
  apply str_eqb_eq in E2. subst. vm_compute in Hd. discriminate.
Qed.

(** What [process_line] makes of a line that yields a row. *)
Lemma process_line_insert (raw : str) (r : row datetime pyfloat) :
  process_line raw = Insert r ->
  exists data bytes st,
    re_match LOG_PATTERN (strip raw) = Some data
    /\ utf8_encode (strip raw) = Some bytes
    /\ uid r = SHA1.hexdigest bytes
    /\ to_nullable_int (group_get "status" data) = Ok st
    /\ status r = st
    /\ remote_user r = dash_to_none (group_get "remote_user" data)
    /\ request r = dash_to_none (group_get "request" data)
    /\ http_referer r = dash_to_none (group_get "http_referer" data)
    /\ http_user_agent r = dash_to_none (group_get "http_user_agent" data).
Proof.
  unfold process_line. intros H.
  destruct (str_eqb (strip raw) []); [discriminate|].
  destruct (re_match LOG_PATTERN (strip raw)) as [data|]; [|discriminate].
  destruct (utf8_encode (strip raw)) as [bytes|]; [|discriminate].
  destruct (to_nullable_int (group_get "status" data)) as [st|] eqn:Est;
    [|discriminate].
  destruct (to_nullable_int (group_get "body_bytes_sent" data)); [|discriminate].
  destruct (to_nullable_float (group_get "request_time" data)); [|discriminate].
  destruct (to_nullable_float (group_get "upstream_response_time" data)); [|discriminate].
  destruct (to_nullable_float (group_get "gzip_ratio" data)); [|discriminate].
  simpl in H. injection H as <-. exists data, bytes, st. simpl.
  repeat match goal with |- _ /\ _ => split end; auto.
Qed.

(** C5, as the code has it: a line yields a row only when it holds a pair
    Status of a non-empty run of decimal digits, followed after optional
    whitespace by the pair BodyBytesSent, and the status of the row is then
    the number the digits spell, never null and never a default; a line
    that holds no pair Status of a non-empty run of decimal digits, such as
    one whose only Status value is empty or the placeholder dash, is not
    matched: it yields no row and raises nothing. *)
Theorem status_is_the_number_captured (raw : str) :
  (forall r : row datetime pyfloat,
      process_line raw = Insert r ->
      exists st pre sp rest n,
        strip raw = pre ++ u "Status=" ++ dq ++ st ++ dq
                    ++ sp ++ u "BodyBytesSent=" ++ dq ++ rest
        /\ st <> [] /\ forallb is_digit st = true
        /\ forallb is_space sp = true
        /\ py_int st = Some n /\ status r = Some n)
  /\ ((forall pre st post,
         strip raw = pre ++ u "Status=" ++ dq ++ st ++ dq ++ post ->
         st = [] \/ forallb is_digit st = false) ->
      process_line raw = Blank \/ process_line raw = Unmatched).
Proof.
  split.
  - intros r H.
    apply process_line_insert in H as (data & bytes & stv & Hm & _ & _ & Hst & Hr & _).
    apply status_capture in Hm as (st & pre & sp & rest & Hg & Hne & Hd & Hsp & Hline).
    rewrite Hg in Hst. unfold to_nullable_int in Hst.
    rewrite (present_digits st Hne Hd) in Hst.
    destruct (py_int st) as [n|] eqn:Hn; [|discriminate].
    exists st, pre, sp, rest, n. repeat split; auto. congruence.
  - intros Hno. unfold process_line.
    destruct (str_eqb (strip raw) []); [now left|].
    destruct (re_match LOG_PATTERN (strip raw)) as [data|] eqn:Hm; [|now right].
    apply status_capture in Hm as (st & pre & sp & rest & _ & Hne & Hd & _ & Hline).
    destruct (Hno _ _ _ Hline) as [->|Hf]; congruence.
Qed.

(** C4, at a line the code fails on: the value of BodyBytesSent is two
    dashes, the line matches, and [int] raises [ValueError], which nothing
    in [process_file] catches. *)
Theorem two_dashes_raise :
  process_line (log_line " - " "200" "--" "-") = Raised ValueError.
Proof. vm_compute. reflexivity. Qed.

(** C7, as the code has it: the id of a row is the SHA-1 of the UTF-8
    bytes of the line once stripped of surrounding whitespace, not of its
    normalised fields; lines that are equal once stripped get the
    same id, and writing a second row with the id of a row written before
    leaves the table as it was. *)
Theorem id_is_the_hash_of_the_stripped_line (raw : str) (r : row datetime pyfloat) :
  process_line raw = Insert r ->
  (exists bytes,
     utf8_encode (strip raw) = Some bytes /\ uid r = SHA1.hexdigest bytes)
  /\ (forall raw' r', strip raw' = strip raw ->
        process_line raw' = Insert r' -> uid r' = uid r)
  /\ (forall r' t, uid r' = uid r ->
        insert_if_absent r' (insert_if_absent r t) = insert_if_absent r t).
Proof.
  intros H. pose proof H as H0.
  apply process_line_insert in H as (data & bytes & stv & _ & Hb & Hu & _).
  split; [eauto|]. split.
  - intros raw' r' Hs H'.
    apply process_line_insert in H' as (? & bytes' & ? & _ & Hb' & Hu' & _).
    rewrite Hs in Hb'. congruence.
  - intros r' t Hr'. unfold insert_if_absent at 1. rewrite Hr'.
    unfold insert_if_absent.
    destruct (t !! uid r) eqn:E.
    + now rewrite E.
    + now rewrite lookup_insert_eq.
Qed.
End Lines.

(** The line of the scenario with the placeholder as its Status value is
    not matched: it yields no row at all. *)
Lemma dash_status_is_unmatched :
  process_line (RT := Reference.runtime) (log_line " - " "-" "1024" "-") = Unmatched.
Proof. vm_compute. reflexivity. Qed.

(** A pair Status with the placeholder inside the request text does not
    keep a line from being matched on the pair Status that follows it. *)
Example the_later_status_pair_is_taken :
  exists r : row (list N) Reference.dec,
    process_line (RT := Reference.runtime) two_status_line = Insert r
    /\ status r = Some 200%Z
    /\ request r = Some (u "GET /x" ++ dq ++ u " Status=" ++ dq ++ u "-" ++ dq
                         ++ u " HTTP/1.1").
Proof. eexists. split; [vm_compute; reflexivity|]. split; reflexivity. Qed.

Lemma status_is_the_number_captured_witness :
  (process_line (RT := Reference.runtime) sample_line = Insert sample_row
   /\ exists st pre sp rest n,
        strip sample_line = pre ++ u "Status=" ++ dq ++ st ++ dq
                            ++ sp ++ u "BodyBytesSent=" ++ dq ++ rest
        /\ st <> [] /\ forallb is_digit st = true
        /\ forallb is_space sp = true
        /\ py_int st = Some n /\ status sample_row = Some n)
  /\ (holds_status (strip (log_line " - " "-" "1024" "-")) = false
      /\ (process_line (RT := Reference.runtime) (log_line " - " "-" "1024" "-") = Blank
          \/ process_line (RT := Reference.runtime) (log_line " - " "-" "1024" "-")
             = Unmatched)).
Proof.
  split.
  - split; [vm_compute; reflexivity|].
    apply (proj1 (@status_is_the_number_captured Reference.runtime sample_line)
             sample_row).
    vm_compute. reflexivity.
  - split; [vm_compute; reflexivity|].
    apply (proj2 (@status_is_the_number_captured Reference.runtime
                    (log_line " - " "-" "1024" "-"))).
    apply no_status_pair. vm_compute. reflexivity.
Defined.

(** C6, at two lines the code fails on: an empty Referer value stays the
    empty text, and the dash of the scenario line, written with a blank
    before the bar, is captured with that blank and stays as it is. *)
Theorem empty_and_padded_placeholders_are_kept :
  (exists r : row (list N) Reference.dec,
     process_line (RT := Reference.runtime) (log_line " - " "200" "1024" "") = Insert r
     /\ http_referer r = Some [])
  /\ remote_user sample_row = Some (u "- ")
  /\ process_line (RT := Reference.runtime) sample_line = Insert sample_row.
Proof.
  split; [|split; [reflexivity | vm_compute; reflexivity]].
  eexists. split; [vm_compute; reflexivity | reflexivity].
Qed.

(** A line with a blank after its last quote: its id is the hash of the
    line without that blank, not of the line. *)
Lemma id_is_not_the_hash_of_the_raw_line :
  process_line (RT := Reference.runtime) (sample_line ++ u " ") = Insert sample_row
  /\ option_map SHA1.hexdigest (utf8_encode (sample_line ++ u " "))
     = Some (u "615091db8ee31af007bc2991a3d4596b30758c50")
  /\ uid sample_row <> u "615091db8ee31af007bc2991a3d4596b30758c50".
Proof.
  split; [vm_compute; reflexivity|]. split; [vm_compute; reflexivity|].
  vm_compute. discriminate.
Qed.

Lemma id_is_the_hash_of_the_stripped_line_witness :
  process_line (RT := Reference.runtime) (sample_line ++ u " ") = Insert sample_row
  /\ (exists bytes,
        utf8_encode (strip (sample_line ++ u " ")) = Some bytes
        /\ uid sample_row = SHA1.hexdigest bytes).
Proof.
  split; [vm_compute; reflexivity|].
  apply (@id_is_the_hash_of_the_stripped_line Reference.runtime
           (sample_line ++ u " ") sample_row).
  vm_compute. reflexivity.
Defined.

(** ** The store *)

Section StoreFacts.
Context {T F : Type}.
Implicit Types (t : gmap (list N) (row T F)) (r : row T F).

(** A write never changes a row that is there. *)
Lemma insert_if_absent_subseteq r t : t ⊆ insert_if_absent r t.
Proof.
  unfold insert_if_absent. destruct (t !! uid r) eqn:E; [done|].
  now apply insert_subseteq.
Qed.

(** A write of an id that is there changes nothing. *)
Lemma insert_if_absent_present r t :
  is_Some (t !! uid r) -> insert_if_absent r t = t.
Proof. intros [x Hx]. unfold insert_if_absent. now rewrite Hx. Qed.

Lemma insert_if_absent_lookup r t : is_Some (insert_if_absent r t !! uid r).
Proof.
  unfold insert_if_absent. destruct (t !! uid r) eqn:E.
  - rewrite E. eauto.
  - rewrite lookup_insert_eq. eauto.
Qed.

Lemma write_all_subseteq rs t : t ⊆ write_all rs t.
Proof.
  revert t; induction rs as [|r rs IH]; intros t; simpl; [done|].
  etrans; [apply (insert_if_absent_subseteq r)|apply IH].
Qed.

Lemma is_Some_weaken t t' (k : list N) :
  t ⊆ t' -> is_Some (t !! k) -> is_Some (t' !! k).
Proof. intros Hsub [x Hx]. exists x. eapply lookup_weaken; eauto. Qed.

Lemma write_all_lookup rs t :
  Forall (fun r => is_Some (write_all rs t !! uid r)) rs.
Proof.
  revert t; induction rs as [|r rs IH]; intros t; simpl; constructor.
  - eapply is_Some_weaken; [apply write_all_subseteq|apply insert_if_absent_lookup].
  - apply IH.
Qed.

(** Writing rows whose ids are all there changes nothing. *)
Lemma write_all_present rs t :
  Forall (fun r => is_Some (t !! uid r)) rs -> write_all rs t = t.
Proof.
  induction 1 as [|r rs Hr _ IH]; simpl; [done|].
  now rewrite insert_if_absent_present.
Qed.

Lemma write_all_app rs1 rs2 t :
  write_all (rs1 ++ rs2) t = write_all rs2 (write_all rs1 t).
Proof. apply fold_left_app. Qed.
End StoreFacts.

(** ** The pass *)

Section PassFacts.
Context {RT : Runtime}.

#[local] Abbreviation world := (world datetime pyfloat).
#[local] Abbreviation database := (database datetime pyfloat).
#[local] Abbreviation row := (row datetime pyfloat).

Implicit Types (w : world) (d : database).

Lemma bind_inv {A B : Type} (c : M A) (k : A -> M B) w (r : result B) w' :
  bind c k w = (r, w') ->
  (exists e, c w = (Raise e, w') /\ r = Raise e)
  \/ (exists a w1, c w = (Ok a, w1) /\ k a w1 = (r, w')).
Proof.
  unfold bind. destruct (c w) as [[a|e] w1]; intros H.
  - right. eauto.
  - left. injection H as <- <-. eauto.
Qed.

Lemma bind_ok {A B : Type} (c : M A) (k : A -> M B) w (a : A) w1 :
  c w = (Ok a, w1) -> bind c k w = k a w1.
Proof. unfold bind. now intros ->. Qed.

Lemma bind_raise {A B : Type} (c : M A) (k : A -> M B) w e w1 :
  c w = (Raise e, w1) -> bind c k w = (Raise e, w1).
Proof. unfold bind. now intros ->. Qed.

(** *** What every step of the pass keeps *)

Lemma step_refl w : step w w.
Proof. unfold step. repeat split; auto. exists []. auto. Qed.

Lemma step_trans w1 w2 w3 : step w1 w2 -> step w2 w3 -> step w1 w3.
Proof.
  intros (Ha & Hb & Hc & Hd & He & new1 & Hn1 & Hall1)
         (Ha' & Hb' & Hc' & Hd' & He' & new2 & Hn2 & Hall2).
  unfold step. repeat split; try congruence; try lia.
  - etrans; eauto.
  - exists (new2 ++ new1). split.
    + rewrite Hn2, Hn1. now rewrite app_assoc.
    + apply Forall_app. split; [assumption|].
      eapply Forall_impl; [exact Hall1|]. simpl. intros r.
      now apply is_Some_weaken.
Qed.

Lemma keeps_lift {A : Type} (x : result A) : keeps (lift x) (fun w a w' => w' = w /\ x = Ok a).
Proof.
  intros w r w' H. unfold lift in H. injection H as <- <-.
  split; [apply step_refl|]. destruct x; auto.
Qed.

Lemma keeps_bind {A B : Type} (c : M A) (k : A -> M B) Q1 Q2 :
  keeps c Q1 -> (forall a, keeps (k a) Q2) ->
  keeps (bind c k)
    (fun w b w' => exists a w1, Q1 w a w1 /\ step w w1 /\ step w1 w' /\ Q2 w1 b w').
Proof.
  intros Hc Hk w r w' H.
  apply bind_inv in H as [(e & H & ->)|(a & w1 & H & H')].
  - apply Hc in H as [Hs _]. auto.
  - apply Hc in H as [Hs [Hf HQ]]. apply Hk in H' as [Hs' Hr].
    split; [eapply step_trans; eauto|].
    destruct r as [b|e]; [|exact I].
    destruct Hr as [Hf' HQ']. split; [congruence|]. eauto 10.
Qed.

Lemma keeps_weaken {A : Type} (c : M A) (Q Q' : world -> A -> world -> Prop) :
  keeps c Q -> (forall w a w', step w w' -> Q w a w' -> Q' w a w') -> keeps c Q'.
Proof.
  intros Hc HQ w r w' H. apply Hc in H as [Hs Hr]. split; [assumption|].
  destruct r; [|exact I]. destruct Hr. auto.
Qed.

(** One operation on the connection, for a change of the tables that only
    adds to the session. *)
Lemma keeps_db_op (f : database -> database) (Q : world -> world -> Prop) :
  (forall d,
      failures (f d) = failures d
      /\ session d ⊆ session (f d)
      /\ exists new, executed (f d) = new ++ executed d
           /\ Forall (fun r => is_Some (session (f d) !! uid r)) new) ->
  (forall w d0, session d0 = session (store w) -> Q w (with_store w (f d0))) ->
  keeps (db_op f) (fun w _ w' => Q w w').
Proof.
  intros Hf HQ w r w' H. unfold db_op in H.
  destruct (schedule (store w)) as [|[|] rest] eqn:Es; injection H as <- <-.
  - match goal with |- context [f ?d] => destruct (Hf d) as (H2 & H3 & new & H5 & H6) end.
    simpl in *. split; [|split; [assumption|now apply HQ]].
    unfold step. simpl. repeat split; auto; try lia. eauto.
  - split; [|exact I]. unfold step. simpl. repeat split; auto.
    exists []. auto.
  - match goal with |- context [f ?d] => destruct (Hf d) as (H2 & H3 & new & H5 & H6) end.
    simpl in *. split; [|split; [assumption|now apply HQ]].
    unfold step. simpl. repeat split; auto; try lia. eauto.
Qed.

(** Once [commit] returns, the session is what is committed. *)
Lemma keeps_commit :
  keeps commit (fun _ _ w' => durable (store w') = session (store w')).
Proof.
  unfold commit.
  apply (keeps_db_op _ (fun _ w' => durable (store w') = session (store w'))).
  - intros d. simpl. repeat split; auto. exists []. auto.
  - intros w d0 _. reflexivity.
Qed.

Lemma keeps_execute_insert (r : row) : keeps (execute_insert r) (fun _ _ _ => True).
Proof.
  unfold execute_insert. apply (keeps_db_op _ (fun _ _ => True)); [|auto].
  intros d. simpl. repeat split; auto.
  - apply insert_if_absent_subseteq.
  - exists [r]. split; [reflexivity|].
    constructor; [apply insert_if_absent_lookup|constructor].
Qed.

Lemma keeps_true {A : Type} (c : M A) (Q : world -> A -> world -> Prop) :
  keeps c Q -> keeps c (fun _ _ _ => True).
Proof. intros H. eapply keeps_weaken; [exact H|auto]. Qed.

Lemma keeps_ret {A : Type} (a : A) : keeps (ret a) (fun w _ w' => w' = w).
Proof.
  intros w r w' H. injection H as <- <-. split; [apply step_refl|auto].
Qed.

Lemma keeps_raise {A : Type} (e : exn) : keeps (@raise _ A e) (fun _ _ _ => True).
Proof.
  intros w r w' H. injection H as <- <-. split; [apply step_refl|auto].
Qed.

Lemma keeps_ensure_table_exists : keeps ensure_table_exists (fun _ _ _ => True).
Proof.
  unfold ensure_table_exists.
  eapply keeps_true, keeps_bind; [|intros _; apply keeps_commit].
  apply (keeps_db_op _ (fun _ _ => True)); [|auto].
  intros d. repeat split; auto. exists []. auto.
Qed.

Lemma keeps_write_lines (ls : list str) : keeps (write_lines ls) (fun _ _ _ => True).
Proof.
  induction ls as [|l ls IH]; simpl; [eapply keeps_true, keeps_ret|].
  destruct (process_line l); try exact IH; [|apply keeps_raise].
  eapply keeps_true, keeps_bind; [apply keeps_execute_insert|intros _; exact IH].
Qed.

(** Once [process_file] returns, the rows it handed over are committed. *)
Lemma keeps_process_file (f : logfile) (v : json pyfloat) :
  keeps (process_file f v) (fun _ _ w' => durable (store w') = session (store w')).
Proof.
  unfold process_file.
  eapply keeps_weaken.
  - eapply keeps_bind; [apply keeps_lift|intros off].
    eapply keeps_bind; [apply keeps_write_lines|intros _].
    eapply keeps_bind; [apply keeps_commit|intros _].
    apply keeps_ret.
  - simpl. intros w n w' _ (off & w1 & _ & _ & _ & [] & w2 & _ & _ & _ & [] & w3 & Hc & _ & _ & ->).
    exact Hc.
Qed.

Lemma keeps_drain (files : list logfile) (state : json pyfloat) :
  keeps (drain files state) (fun _ _ _ => True).
Proof.
  induction files as [|p rest IH]; simpl; [eapply keeps_true, keeps_ret|].
  destruct (lf_dangling p); [eapply keeps_true, keeps_raise|].
  eapply keeps_true, keeps_bind; [apply keeps_lift|intros inode].
  destruct (eq_int inode (lf_inode p)); [|exact IH].
  eapply keeps_true, keeps_bind; [apply keeps_lift|intros off].
  eapply keeps_true, keeps_bind; [apply keeps_process_file|intros n].
  eapply keeps_true, keeps_lift.
Qed.

Lemma keeps_glob : keeps glob (fun w files w' => w' = w /\ files = log_files w).
Proof.
  intros w r w' H. injection H as <- <-. split; [apply step_refl|auto].
Qed.

Lemma keeps_handle_rotation (cur_inode : Z) (state : json pyfloat) :
  keeps (handle_rotation cur_inode state) (fun _ _ _ => True).
Proof.
  unfold handle_rotation.
  eapply keeps_true, keeps_bind; [apply keeps_lift|intros inode].
  destruct (truth inode && negb (eq_int inode cur_inode)); [|eapply keeps_true, keeps_ret].
  eapply keeps_true, keeps_bind; [apply keeps_glob|intros files].
  eapply keeps_true, keeps_bind; [apply keeps_drain|intros st].
  eapply keeps_true, keeps_bind; [apply keeps_lift|intros st'].
  eapply keeps_true, keeps_lift.
Qed.

Lemma keeps_adopt_inode (cur_inode : Z) (state : json pyfloat) :
  keeps (adopt_inode cur_inode state) (fun _ _ _ => True).
Proof.
  unfold adopt_inode.
  eapply keeps_true, keeps_bind; [apply keeps_lift|intros inode].
  destruct inode; try (eapply keeps_true, keeps_ret).
  eapply keeps_true, keeps_lift.
Qed.

Lemma keeps_select_latest_log : keeps select_latest_log (fun _ _ _ => True).
Proof.
  intros w r w' H. unfold select_latest_log in H.
  destruct (latest_of (log_files w)); injection H as <- <-;
    (split; [apply step_refl|auto]).
Qed.

(** *** The state file is written last *)

Lemma good_of_step w e w' : step w w' -> good w (Raise e) w'.
Proof.
  intros (Ha & Hb & Hc & Hd & He & new & Hn & Hall).
  split; [assumption|]. split; [assumption|]. split; [now left|].
  exists new. split; [assumption|]. split; [eauto|]. congruence.
Qed.

Lemma good_after_step w w1 r w' :
  step w w1 -> failures (store w1) = failures (store w) -> good w1 r w' -> good w r w'.
Proof.
  intros (Ha & Hb & Hc & Hd & He & new1 & Hn1 & Hall1) Hf
         (Hb' & Hc' & Hw & new2 & Hn2 & H1 & H2).
  split; [congruence|]. split; [congruence|]. split.
  { unfold written in *. rewrite <- Ha, <- Hb. exact Hw. }
  exists (new2 ++ new1). split; [rewrite Hn2, Hn1; now rewrite app_assoc|]. split.
  - intros Hne. rewrite <- Hf in Hne. destruct (H1 Hne) as [He' Hs]. split; [assumption|congruence].
  - intros Hne. rewrite <- Ha in Hne. destruct (H2 Hne) as (Hf' & Hsub & Hall2).
    split; [congruence|]. split; [etrans; eauto|].
    apply Forall_app. split; [assumption|].
    eapply Forall_impl; [exact Hall1|]. simpl. intros x.
    now apply is_Some_weaken.
Qed.

Lemma lands_bind {A : Type} (c : M A) (k : A -> M unit) Q P :
  keeps c Q -> (forall a w0, lands (fun w1 => Q w0 a w1) (k a)) -> lands P (bind c k).
Proof.
  intros Hc Hk w r w' _ H.
  apply bind_inv in H as [(e & H & ->)|(a & w1 & H & H')].
  - apply Hc in H as [Hs _]. now apply good_of_step.
  - apply Hc in H as [Hs [Hf HQ]].
    eapply good_after_step; eauto. eapply Hk; eauto.
Qed.

Lemma lands_lift_bind {A : Type} (x : result A) (k : A -> M unit) P :
  (forall a, lands P (k a)) -> lands P (bind (lift x) k).
Proof.
  intros Hk w r w' HP H. unfold bind, lift in H. destruct x as [a|e].
  - eapply Hk; eauto.
  - injection H as <- <-. apply good_of_step, step_refl.
Qed.

Lemma lands_save_state (state : json pyfloat) :
  lands (fun w => durable (store w) = session (store w)) (save_state state).
Proof.
  intros w r w' HP H. unfold save_state in H.
  destruct (state_write w) eqn:Ew; injection H as <- <-; simpl;
    (split; [reflexivity|]; split; [reflexivity|]; split;
     [|exists []; simpl; split; [reflexivity|]; split; [congruence|]]).
  - right. exists state. left. auto.
  - intros _. rewrite HP. auto.
  - now left.
  - congruence.
  - right. exists state. right. eauto.
  - intros _. rewrite HP. auto.
Qed.

Lemma lands_ingest (latest : logfile) (state : json pyfloat) P :
  lands P (ingest latest state).
Proof.
  unfold ingest. destruct (lf_dangling latest).
  { intros w r w' _ H. injection H as <- <-. apply good_of_step, step_refl. }
  eapply lands_bind; [apply keeps_handle_rotation|intros st1 ?].
  eapply lands_bind; [apply keeps_adopt_inode|intros st2 ?].
  eapply lands_bind; [apply keeps_lift|intros off ?].
  eapply lands_bind; [apply keeps_process_file|intros n ?].
  apply lands_lift_bind. intros st3. apply lands_save_state.
Qed.
Lemma load_state_pure w : exists v, load_state w = (Ok v, w).
Proof.
  unfold load_state. destruct (state_file w) as [text|]; [|eauto].
  destruct (json_loads text); eauto.
Qed.

(** What [get_db_conn] does: it fails and counts the failure, or opens a
    session on the committed rows. *)
Lemma get_db_conn_cases w r w1 :
  get_db_conn w = (r, w1) ->
  state_file w1 = state_file w /\ state_write w1 = state_write w
  /\ log_files w1 = log_files w
  /\ executed (store w1) = executed (store w)
  /\ durable (store w1) = durable (store w)
  /\ ((exists e, r = Raise e) \/
      (r = Ok tt /\ failures (store w1) = failures (store w)
       /\ session (store w1) = durable (store w))).
Proof.
  unfold get_db_conn, db_op. intros H.
  destruct (schedule (store w)) as [|[|] rest]; injection H as <- <-; simpl;
    repeat split; eauto.
Qed.

Lemma main_good w r w' :
  main w = (r, w') ->
  written w r w' /\
  exists new,
    executed (store w') = new ++ executed (store w)
    /\ (failures (store w') <> failures (store w) ->
        (exists e, r = Raise e) /\ state_file w' = state_file w)
    /\ (state_file w' <> state_file w ->
        failures (store w') = failures (store w)
        /\ durable (store w) ⊆ durable (store w')
        /\ Forall (fun x => is_Some (durable (store w') !! uid x)) new).
Proof.
  unfold main. intros H.
  destruct (load_state_pure w) as [v Hv]. rewrite (bind_ok _ _ _ _ _ Hv) in H.
  apply bind_inv in H as [(e & H & ->)|([] & w1 & H & H')].
  - apply get_db_conn_cases in H as (Ha & Hb & Hc & Hd & He & _).
    split; [now left|].
    exists []. simpl. split; [assumption|]. split; [eauto|]. congruence.
  - apply get_db_conn_cases in H as (Ha & Hb & Hc & Hd & He & [[e ?]|(_ & Hf & Hs)]);
      [discriminate|].
    assert (Hl : lands (fun _ => True)
                   (bind ensure_table_exists (fun _ =>
                      bind select_latest_log (fun latest => ingest latest v)))).
    { eapply lands_bind; [apply keeps_ensure_table_exists|intros ? ?].
      eapply lands_bind; [apply keeps_select_latest_log|intros latest ?].
      apply lands_ingest. }
    destruct (Hl _ _ _ I H') as (Hb' & Hc' & Hw & new & Hn & H1 & H2).
    split; [unfold written in *; rewrite <- Ha, <- Hb; exact Hw|].
    exists new. split; [congruence|]. split.
    + intros Hne. rewrite <- Hf in Hne. destruct (H1 Hne). split; [assumption|congruence].
    + intros Hne. rewrite <- Ha in Hne. destruct (H2 Hne) as (? & Hsub & ?).
      rewrite Hs in Hsub. split; [congruence|]. split; assumption.
Qed.

Lemma pass_main w r w' :
  pass w = (r, w') ->
  exists w0, main w = (r, w0)
    /\ state_file w' = state_file w0
    /\ durable (store w') = durable (store w0)
    /\ session (store w') = durable (store w0)
    /\ failures (store w') = failures (store w0)
    /\ executed (store w') = executed (store w0).
Proof.
  unfold pass. destruct (main w) as [r0 w0]. intros H. injection H as <- <-.
  exists w0. simpl. auto 10.
Qed.

(** C3: when an operation of the store fails during a pass, the pass
    raises and the state file is left as it was; and when the state file
    was written, no operation had failed and every row handed to the
    store during the pass is committed. *)
Theorem state_is_saved_after_the_commit w r w' :
  pass w = (r, w') ->
  exists new,
    executed (store w') = new ++ executed (store w)
    /\ (failures (store w') <> failures (store w) ->
        (exists e, r = Raise e) /\ state_file w' = state_file w)
    /\ (state_file w' <> state_file w ->
        failures (store w') = failures (store w)
        /\ Forall (fun x => is_Some (durable (store w') !! uid x)) new).
Proof.
  intros H. apply pass_main in H as (w0 & H & Hs & Hd & _ & Hf & He).
  apply main_good in H as (_ & new & Hn & H1 & H2).
  exists new. rewrite Hs, Hd, Hf, He. split; [assumption|]. split; [assumption|].
  intros Hne. destruct (H2 Hne) as (? & _ & ?). auto.
Qed.

(** *** The state that is saved *)

Lemma bind_assoc {A B C : Type} (c : M A) (k1 : A -> M B) (k2 : B -> M C) w :
  bind (bind c k1) k2 w = bind c (fun a => bind (k1 a) k2) w.
Proof. unfold bind. destruct (c w) as [[a|e] w1]; reflexivity. Qed.

Lemma bind_ext {A B : Type} (c : M A) (k k' : A -> M B) w :
  (forall a w1, k a w1 = k' a w1) -> bind c k w = bind c k' w.
Proof. intros H. unfold bind. destruct (c w) as [[a|e] w1]; auto. Qed.

(** [ingest] hands [save_state] what [advance] returns. *)
Lemma ingest_advance (latest : logfile) (state : json pyfloat) w :
  ingest latest state w
  = bind (if lf_dangling latest then raise FileNotFoundError
          else advance latest state) save_state w.
Proof.
  unfold ingest, advance. destruct (lf_dangling latest); [reflexivity|].
  rewrite bind_assoc. apply bind_ext; intros s1 w1.
  rewrite bind_assoc. apply bind_ext; intros s2 w2.
  rewrite bind_assoc. apply bind_ext; intros off w3.
  rewrite bind_assoc. apply bind_ext; intros n w4. reflexivity.
Qed.

(** [main] is [new_state] and then [save_state]. *)
Lemma main_new_state w : main w = bind new_state save_state w.
Proof.
  unfold main, new_state.
  rewrite bind_assoc. apply bind_ext; intros state w1.
  rewrite bind_assoc. apply bind_ext; intros [] w2.
  rewrite bind_assoc. apply bind_ext; intros [] w3.
  rewrite bind_assoc. apply bind_ext; intros latest w4.
  apply ingest_advance.
Qed.

Lemma keeps_advance (latest : logfile) (state : json pyfloat) :
  keeps (advance latest state) (fun _ _ _ => True).
Proof.
  unfold advance.
  eapply keeps_true, keeps_bind; [apply keeps_handle_rotation|intros s1].
  eapply keeps_true, keeps_bind; [apply keeps_adopt_inode|intros s2].
  eapply keeps_true, keeps_bind; [apply keeps_lift|intros off].
  eapply keeps_true, keeps_bind; [apply keeps_process_file|intros n].
  eapply keeps_true, keeps_lift.
Qed.

(** Up to the call of [save_state] the state file is not touched. *)
Lemma new_state_frame w (r : result (json pyfloat)) w1 :
  new_state w = (r, w1) ->
  state_file w1 = state_file w /\ state_write w1 = state_write w.
Proof.
  unfold new_state. intros H.
  destruct (load_state_pure w) as [v Hv]. rewrite (bind_ok _ _ _ _ _ Hv) in H.
  apply bind_inv in H as [(e & H & ->)|([] & w2 & H & H')].
  - apply get_db_conn_cases in H as (Ha & Hb & _). auto.
  - apply get_db_conn_cases in H as (Ha & Hb & _).
    assert (Hk : keeps (bind ensure_table_exists (fun _ =>
                   bind select_latest_log (fun latest =>
                     if lf_dangling latest then raise FileNotFoundError
                     else advance latest v)))
                   (fun _ _ _ => True)).
    { eapply keeps_true, keeps_bind; [apply keeps_ensure_table_exists|intros _].
      eapply keeps_true, keeps_bind; [apply keeps_select_latest_log|intros latest].
      destruct (lf_dangling latest);
        [eapply keeps_true, keeps_raise|apply keeps_advance]. }
    destruct (Hk _ _ _ H') as [(Hc & Hd & _) _]. split; congruence.
Qed.

(** C9, as the code has it: the state file is rewritten in place as the
    last step of a pass, by a write that is not atomic. When the pass
    raises before that step, the state file is as it was. When it gets to
    it, with the state it has computed: a write that completes leaves the
    whole text of that state, and the pass returns; a file that cannot be
    opened is left as it was, and the pass raises; a write that stops
    leaves the text of that state cut where it stopped, which may be
    nothing at all, and the pass raises. *)
Theorem state_file_is_rewritten_in_place w :
  match new_state w with
  | (Ok state, _) =>
      match state_write w with
      | WriteCompletes =>
          fst (pass w) = Ok tt
          /\ state_file (snd (pass w)) = Some (json_dumps state)
      | OpenFails =>
          fst (pass w) = Raise OSError
          /\ state_file (snd (pass w)) = state_file w
      | WriteStops n =>
          fst (pass w) = Raise OSError
          /\ state_file (snd (pass w)) = Some (take n (json_dumps state))
      end
  | (Raise e, _) =>
      fst (pass w) = Raise e /\ state_file (snd (pass w)) = state_file w
  end.
Proof.
  unfold pass. rewrite main_new_state.
  destruct (new_state w) as [[state|e] w1] eqn:H;
    destruct (new_state_frame _ _ _ H) as [Hf Hw].
  - rewrite (bind_ok _ _ _ _ _ H). unfold save_state. rewrite Hw.
    destruct (state_write w); simpl; auto.
  - rewrite (bind_raise _ _ _ _ _ H). simpl. auto.
Qed.
End PassFacts.

(** ** The latest file *)

Lemma later_of_in (files : list logfile) (best : option logfile) (f : logfile) :
  fold_left later_of files best = Some f -> best = Some f \/ In f files.
Proof.
  revert best. induction files as [|g rest IH]; intros best H; simpl in H; [now left|].
  apply IH in H as [H|H]; [|right; now right].
  destruct best as [b|]; simpl in H.
  - destruct (Qle_bool (lf_mtime g) (lf_mtime b)); injection H as <-;
      [now left|right; now left].
  - injection H as <-. right. now left.
Qed.

(** The latest file is one of the files, and every path could be
    followed to a file. *)
Lemma latest_of_stat (files : list logfile) (f : logfile) :
  latest_of files = Some f ->
  In f files /\ lf_dangling f = false /\ existsb lf_dangling files = false.
Proof.
  unfold latest_of. destruct (existsb lf_dangling files) eqn:E; [discriminate|].
  intros H. apply later_of_in in H as [H|H]; [discriminate|].
  split; [exact H|]. split; [|reflexivity].
  destruct (lf_dangling f) eqn:Ef; [|reflexivity].
  assert (existsb lf_dangling files = true) by (apply existsb_exists; eauto).
  congruence.
Qed.

(** ** Runs that return *)

Section Runs.
Context {RT : Runtime}.

#[local] Abbreviation world := (world datetime pyfloat).
#[local] Abbreviation database := (database datetime pyfloat).
#[local] Abbreviation row := (row datetime pyfloat).

Implicit Types (w : world) (d : database).

Lemma db_op_inv (f : database -> database) w w' :
  db_op f w = (Ok tt, w') -> w' = with_store w (f (next (store w))).
Proof.
  unfold db_op. destruct (schedule (store w)) as [|[|] rest] eqn:E; intros H;
    try discriminate; injection H as <-; unfold next; now rewrite E.
Qed.

Lemma db_op_total (f : database -> database) w :
  schedule (store w) = [] -> db_op f w = (Ok tt, with_store w (f (next (store w)))).
Proof. unfold db_op, next. now intros ->. Qed.

Lemma write_lines_inv (ls : list str) w w' :
  write_lines ls w = (Ok tt, w') ->
  no_raise ls = true
  /\ session (store w') = write_all (inserted ls) (session (store w))
  /\ durable (store w') = durable (store w)
  /\ executed (store w') = rev (inserted ls) ++ executed (store w)
  /\ (schedule (store w) = [] -> schedule (store w') = []).
Proof.
  revert w; induction ls as [|l ls IH]; intros w H; simpl in *.
  - injection H as <-. auto.
  - destruct (process_line l) as [| |r|e] eqn:El; try (now apply IH in H).
    + apply bind_inv in H as [(e & _ & ?)|([] & w1 & H1 & H2)]; [discriminate|].
      apply db_op_inv in H1 as ->. apply IH in H2 as (Hn & Hs & Hd & He & Hsch).
      simpl in *. split; [assumption|]. split; [assumption|]. split; [assumption|].
      split; [rewrite He; now rewrite <- app_assoc|].
      intros E. apply Hsch. now rewrite E.
    + discriminate.
Qed.

Lemma write_lines_total (ls : list str) w :
  schedule (store w) = [] -> no_raise ls = true ->
  exists w', write_lines ls w = (Ok tt, w').
Proof.
  revert w; induction ls as [|l ls IH]; intros w Hs Hn; simpl in *; [eauto|].
  apply andb_true_iff in Hn as [Hl Hn].
  destruct (process_line l) as [| |r|e]; try (now apply IH); [|discriminate].
  erewrite bind_ok; [|now apply db_op_total].
  apply IH; [|assumption]. simpl. now rewrite Hs.
Qed.

Lemma process_file_inv (f : logfile) (v : json pyfloat) w (n : Z) w' :
  process_file f v w = (Ok n, w') ->
  exists off,
    as_offset f v = Ok off
    /\ n = tell_at_end f off
    /\ no_raise (lines_from f off) = true
    /\ session (store w') = write_all (inserted (lines_from f off)) (session (store w))
    /\ durable (store w') = session (store w')
    /\ executed (store w') = rev (inserted (lines_from f off)) ++ executed (store w)
    /\ (schedule (store w) = [] -> schedule (store w') = []).
Proof.
  unfold process_file. intros H.
  apply bind_inv in H as [(e & _ & ?)|(off & w0 & H0 & H)]; [discriminate|].
  unfold lift in H0. injection H0 as Hoff <-.
  apply bind_inv in H as [(e & _ & ?)|([] & w1 & H1 & H)]; [discriminate|].
  apply bind_inv in H as [(e & _ & ?)|([] & w2 & H2 & H)]; [discriminate|].
  injection H as <- <-.
  apply write_lines_inv in H1 as (Hn & Hs & Hd & He & Hsch).
  apply db_op_inv in H2 as ->. simpl.
  exists off. repeat split; auto.
  intros E. now rewrite (Hsch E).
Qed.

Lemma process_file_total (f : logfile) (v : json pyfloat) (off : Z) w :
  schedule (store w) = [] -> as_offset f v = Ok off ->
  no_raise (lines_from f off) = true ->
  exists w', process_file f v w = (Ok (tell_at_end f off), w').
Proof.
  intros Hs Hoff Hn. unfold process_file. rewrite Hoff.
  destruct (write_lines_total _ w Hs Hn) as [w1 H1].
  erewrite (bind_ok (lift (Ok off))); [|reflexivity].
  rewrite (bind_ok _ _ _ _ _ H1).
  apply write_lines_inv in H1 as (_ & _ & _ & _ & Hsch).
  erewrite bind_ok; [|apply db_op_total; auto]. eauto.
Qed.

(** What [process_file] leaves alone. *)
Lemma process_file_frame (f : logfile) (v : json pyfloat) w (n : Z) w' :
  process_file f v w = (Ok n, w') ->
  state_file w' = state_file w /\ state_write w' = state_write w
  /\ log_files w' = log_files w
  /\ failures (store w') = failures (store w).
Proof.
  intros H. apply keeps_process_file in H as [(Ha & Hb & Hc & _) [Hf _]]. auto.
Qed.

(** An integer below 2^64 is moved to as it is, or refused. *)
Lemma as_offset_int (f : logfile) (o off : Z) :
  (o < 2 ^ 64)%Z -> as_offset f (JInt o) = Ok off -> off = o /\ (0 <= o)%Z.
Proof.
  unfold as_offset, seek_cookie, seek_to. intros Ho H.
  destruct (lf_dangling f); [discriminate|].
  destruct (Z.ltb_spec o 0); [discriminate|].
  destruct (Z.ltb_spec o (2 ^ 64)); [|lia].
  destruct (o <=? Z.of_nat (length (lf_bytes f)))%Z;
    [|destruct ((o <? 2 ^ 63)%Z && fs_accepts (lf_path f) o); [|discriminate]];
    injection H as <-; auto.
Qed.

(** A position within a file that is there is always reached. *)
Lemma as_offset_within (f : logfile) (o : Z) :
  lf_dangling f = false ->
  (0 <= o <= Z.of_nat (length (lf_bytes f)))%Z -> (o < 2 ^ 64)%Z ->
  as_offset f (JInt o) = Ok o.
Proof.
  unfold as_offset, seek_cookie, seek_to. intros -> Ho Hb.
  destruct (Z.ltb_spec o 0); [lia|].
  destruct (Z.ltb_spec o (2 ^ 64)); [|lia].
  destruct (Z.leb_spec o (Z.of_nat (length (lf_bytes f)))); [reflexivity|lia].
Qed.

Lemma as_offset_zero (f : logfile) :
  lf_dangling f = false -> as_offset f (JInt 0) = Ok 0%Z.
Proof. intros H. apply as_offset_within; [exact H|lia|lia]. Qed.

(** Nothing is read from the end of a file on. *)
Lemma lines_from_end (f : logfile) (off : Z) :
  (Z.of_nat (length (lf_bytes f)) <= off)%Z -> lines_from f off = [].
Proof.
  intros H. unfold lines_from. rewrite drop_ge by lia. now rewrite decode_nil.
Qed.

(** C2: reading a file a second time from the same offset returns the
    same offset and leaves the table, committed and in session, as the
    first reading left it; and writing a row whose id is in the table
    returns and leaves the table as it was. *)
Theorem second_reading_writes_nothing (f : logfile) (v : json pyfloat) w (n : Z) w1 :
  process_file f v w = (Ok n, w1) ->
  schedule (store w1) = [] ->
  (exists w2,
     process_file f v w1 = (Ok n, w2)
     /\ durable (store w2) = durable (store w1)
     /\ session (store w2) = session (store w1))
  /\ (forall r : row,
        is_Some (session (store w1) !! uid r) ->
        exists w2,
          execute_insert r w1 = (Ok tt, w2)
          /\ durable (store w2) = durable (store w1)
          /\ session (store w2) = session (store w1)).
Proof.
  intros H Hs. split.
  - apply process_file_inv in H as (off & Hoff & -> & Hn & Hses & Hdur & _).
    destruct (process_file_total f v off w1 Hs Hoff Hn) as [w2 H2].
    exists w2. split; [assumption|].
    apply process_file_inv in H2 as (off' & Hoff' & _ & _ & Hses' & Hdur' & _).
    assert (off' = off) by congruence. subst off'.
    assert (E : session (store w2) = session (store w1)).
    { rewrite Hses'. apply write_all_present. rewrite Hses. apply write_all_lookup. }
    split; congruence.
  - intros r Hr. unfold execute_insert. rewrite (db_op_total _ _ Hs).
    eexists. split; [reflexivity|]. simpl.
    split; [reflexivity|]. now apply insert_if_absent_present.
Qed.

(** *** The start of [main] *)

Lemma connected_facts w :
  state_file (connected w) = state_file w
  /\ state_write (connected w) = state_write w
  /\ log_files (connected w) = log_files w
  /\ durable (store (connected w)) = durable (store w)
  /\ session (store (connected w)) = durable (store w)
  /\ executed (store (connected w)) = executed (store w)
  /\ failures (store (connected w)) = failures (store w)
  /\ (schedule (store w) = [] -> schedule (store (connected w)) = []).
Proof. unfold connected. simpl. repeat split; auto. now intros ->. Qed.

(** [main] raises before it reads a file, the state file being as it
    was, or goes on with [ingest] from the [connected] world. *)
Lemma main_cases w r w' :
  main w = (r, w') ->
  ((exists e, r = Raise e) /\ state_file w' = state_file w)
  \/ exists v latest,
       load_state w = (Ok v, w)
       /\ latest_of (log_files w) = Some latest
       /\ ingest latest v (connected w) = (r, w').
Proof.
  unfold main. intros H.
  destruct (load_state_pure w) as [v Hv]. rewrite (bind_ok _ _ _ _ _ Hv) in H.
  apply bind_inv in H as [(e & H & ->)|([] & w1 & H1 & H)].
  { left. apply get_db_conn_cases in H as (Ha & _). eauto. }
  apply db_op_inv in H1 as ->.
  unfold ensure_table_exists in H.
  apply bind_inv in H as [(e & H & ->)|([] & w2 & H2 & H)].
  { left. split; [eauto|].
    apply bind_inv in H as [(e' & H & _)|([] & w2 & H2 & H)].
    - apply (keeps_db_op _ (fun _ _ => True)) in H as [(Ha & _) _]; [exact Ha| |auto].
      intros d. repeat split; auto. exists []. auto.
    - apply db_op_inv in H2 as ->.
      apply keeps_commit in H as [(Ha & _) _]. exact Ha. }
  apply bind_inv in H2 as [(e & _ & ?)|([] & w3 & H3 & H2)]; [discriminate|].
  apply db_op_inv in H3 as ->. apply db_op_inv in H2 as ->.
  change (with_store _ _) with (connected w) in H.
  apply bind_inv in H as [(e & H & ->)|(latest & w4 & H4 & H)].
  { left. split; [eauto|]. unfold select_latest_log in H.
    destruct (latest_of _); [discriminate|]. injection H as _ <-.
    apply connected_facts. }
  right. exists v, latest. unfold select_latest_log in H4.
  destruct (connected_facts w) as (_ & _ & Hl & _). rewrite Hl in H4.
  destruct (latest_of (log_files w)) as [l|]; [|discriminate].
  injection H4 as -> <-. auto.
Qed.

(** With no failure scheduled, [main] is [ingest] from the [connected]
    world. *)
Lemma main_total w (v : json pyfloat) (latest : logfile) :
  schedule (store w) = [] ->
  load_state w = (Ok v, w) ->
  latest_of (log_files w) = Some latest ->
  main w = ingest latest v (connected w).
Proof.
  intros Hs Hv Hl. unfold main. rewrite (bind_ok _ _ _ _ _ Hv).
  unfold get_db_conn. rewrite (bind_ok _ _ _ _ _ (db_op_total _ _ Hs)).
  unfold ensure_table_exists, commit.
  erewrite bind_ok; cycle 1.
  { erewrite bind_ok; [|apply db_op_total; simpl; now rewrite Hs].
    apply db_op_total. simpl. now rewrite Hs. }
  change (with_store _ _) with (connected w).
  erewrite bind_ok; [reflexivity|].
  unfold select_latest_log.
  destruct (connected_facts w) as (_ & _ & Hf & _). now rewrite Hf, Hl.
Qed.

Lemma load_state_parsed w (text : str) (v : json pyfloat) :
  state_file w = Some text -> json_loads text = Some v -> load_state w = (Ok v, w).
Proof. unfold load_state. now intros -> ->. Qed.
End Runs.

(** ** Objects *)

Lemma dict_get_set_eq {V : Type} (k : str) (v : V) (d : list (list N * V)) :
  dict_get k (dict_set k v d) = Some v.
Proof.
  induction d as [|[k' v'] d IH]; simpl.
  - now rewrite str_eqb_refl.
  - destruct (str_eqb k' k) eqn:E; simpl; now rewrite E.
Qed.

Lemma dict_get_set_ne {V : Type} (k k' : str) (v : V) (d : list (list N * V)) :
  k' <> k -> dict_get k (dict_set k' v d) = dict_get k d.
Proof.
  intros Hne. induction d as [|[k0 v0] d IH]; simpl.
  - destruct (str_eqb k' k) eqn:E; [apply str_eqb_eq in E; congruence|reflexivity].
  - destruct (str_eqb k0 k') eqn:E; simpl.
    + apply str_eqb_eq in E as ->.
      destruct (str_eqb k' k) eqn:E'; [apply str_eqb_eq in E'; congruence|reflexivity].
    + destruct (str_eqb k0 k); [reflexivity|exact IH].
Qed.

Lemma inode_is_not_offset : u "inode" <> u "offset".
Proof. discriminate. Qed.

Lemma offset_is_not_inode : u "offset" <> u "inode".
Proof. discriminate. Qed.

(** ** The driver *)

Section Driver.
Context {RT : Runtime}.

#[local] Abbreviation world := (world datetime pyfloat).
#[local] Abbreviation row := (row datetime pyfloat).

Implicit Types (w : world).

Lemma subscript_obj (d : list (list N * json pyfloat)) (k : str) (x : json pyfloat) :
  dict_get k d = Some x -> subscript (JObj d) k = Ok x.
Proof. unfold subscript. now intros ->. Qed.

Lemma bind_lift_ok {A B : Type} (x : result A) (a : A) (k : A -> M B) w :
  x = Ok a -> bind (lift x) k w = k a w.
Proof. now intros ->. Qed.

Lemma bind_lift_raise {A B : Type} (x : result A) (e : exn) (k : A -> M B) w :
  x = Raise e -> bind (lift x) k w = (Raise e, w).
Proof. now intros ->. Qed.

(** The loop of the rotation branch, for a state without offset: it raises
    at the first file of the stored inode. *)
Lemma drain_without_offset (files : list logfile) (d : list (list N * json pyfloat))
    (i : json pyfloat) w :
  dict_get (u "inode") d = Some i ->
  dict_get (u "offset") d = None ->
  existsb lf_dangling files = false ->
  existsb (fun p => eq_int i (lf_inode p)) files = true ->
  drain files (JObj d) w = (Raise KeyError, w).
Proof.
  intros Hi Ho. induction files as [|p rest IH]; simpl; [discriminate|].
  intros Hdl Hex. apply orb_false_iff in Hdl as [-> Hdl].
  rewrite (bind_lift_ok _ _ _ _ (subscript_obj _ _ _ Hi)).
  destruct (eq_int i (lf_inode p)); simpl in Hex.
  - apply bind_lift_raise. unfold subscript. now rewrite Ho.
  - now apply IH.
Qed.

(** A parsed object with an inode and no offset makes the pass raise too,
    the state file being left as it was, unless the inode is that of no
    file any more: the rotation branch then sets the offset itself. *)
Lemma state_without_offset_fails_the_pass w (text : str)
    (d : list (list N * json pyfloat)) (i : json pyfloat) :
  state_file w = Some text -> json_loads text = Some (JObj d) ->
  dict_get (u "inode") d = Some i ->
  dict_get (u "offset") d = None ->
  (forall latest, latest_of (log_files w) = Some latest ->
     truth i && negb (eq_int i (lf_inode latest)) = true ->
     existsb (fun p => eq_int i (lf_inode p)) (log_files w) = true) ->
  exists e' w', pass w = (Raise e', w') /\ state_file w' = state_file w.
Proof.
  intros Hf Hv Hi Ho Hfound.
  pose proof (load_state_parsed w text _ Hf Hv) as Hl.
  unfold pass. destruct (main w) as [r w0] eqn:Hm.
  apply main_cases in Hm as [[[e' ->] Hs]|(v' & latest & Hl' & Hlat & Hing)].
  { eexists _, _. split; [reflexivity|exact Hs]. }
  assert (v' = JObj d) by congruence. subst v'.
  destruct (connected_facts w) as (Cf & _ & Cl & _).
  destruct (latest_of_stat _ _ Hlat) as (_ & Hdl & Hall).
  assert (Hraise : exists e, ingest latest (JObj d) (connected w) = (Raise e, connected w)).
  { unfold ingest, handle_rotation. rewrite Hdl.
    destruct (truth i && negb (eq_int i (lf_inode latest))) eqn:Hrot.
    - exists KeyError. apply bind_raise.
      rewrite (bind_lift_ok _ _ _ _ (subscript_obj _ _ _ Hi)). rewrite Hrot.
      unfold bind at 1, glob. rewrite Cl. apply bind_raise.
      apply (drain_without_offset _ d i); eauto.
    - exists KeyError.
      erewrite bind_ok; cycle 1.
      { rewrite (bind_lift_ok _ _ _ _ (subscript_obj _ _ _ Hi)). rewrite Hrot. reflexivity. }
      unfold adopt_inode.
      destruct i; simpl;
        try (erewrite bind_ok;
             [|rewrite (bind_lift_ok _ _ _ _ (subscript_obj _ _ _ Hi)); reflexivity];
             apply bind_lift_raise; unfold subscript; now rewrite Ho).
      erewrite bind_ok; cycle 1.
      { rewrite (bind_lift_ok _ _ _ _ (subscript_obj _ _ _ Hi)). reflexivity. }
      apply bind_lift_raise. unfold subscript.
      rewrite dict_get_set_ne by apply inode_is_not_offset. now rewrite Ho. }
  destruct Hraise as [e He]. rewrite He in Hing. injection Hing as <- <-.
  eexists _, _. split; [reflexivity|]. simpl. exact Cf.
Qed.

(** With the stored inode that of the latest file, there is no rotation. *)
Lemma ingest_same_file (latest : logfile) (d : list (list N * json pyfloat)) (o : Z) w :
  lf_dangling latest = false ->
  dict_get (u "inode") d = Some (JInt (lf_inode latest)) ->
  dict_get (u "offset") d = Some (JInt o) ->
  ingest latest (JObj d) w
  = bind (process_file latest (JInt o))
      (fun n => save_state (JObj (dict_set (u "offset") (JInt n) d))) w.
Proof.
  intros Hdl Hi Ho. unfold ingest, handle_rotation, adopt_inode. rewrite Hdl.
  erewrite bind_ok; cycle 1.
  { rewrite (bind_lift_ok _ _ _ _ (subscript_obj _ _ _ Hi)).
    simpl. rewrite Z.eqb_refl, andb_false_r. reflexivity. }
  erewrite bind_ok; cycle 1.
  { rewrite (bind_lift_ok _ _ _ _ (subscript_obj _ _ _ Hi)). reflexivity. }
  rewrite (bind_lift_ok _ _ _ _ (subscript_obj _ _ _ Ho)).
  unfold bind. destruct (process_file latest (JInt o) w) as [[n|e] w1]; reflexivity.
Qed.

Lemma save_state_ok (state : json pyfloat) w w' :
  save_state state w = (Ok tt, w') ->
  state_file w' = Some (json_dumps state) /\ store w' = store w.
Proof.
  unfold save_state. destruct (state_write w); intros H; try discriminate.
  injection H as <-. auto.
Qed.

(** C8, as the code has it: what [process_file] returns is never before
    the offset it was given when that offset is an integer below 2^64,
    which the file is moved to as it is or not at all; on a file with
    nothing after that offset it is that offset, with no row handed to the
    store; so a pass that finds the file of the stored inode again, with
    such an offset stored, saves an offset that is not before it. *)
Theorem offsets_only_move_forward :
  (forall (f : logfile) (o : Z) w (n : Z) w',
      (o < 2 ^ 64)%Z ->
      process_file f (JInt o) w = (Ok n, w') ->
      (0 <= o <= n)%Z
      /\ ((Z.of_nat (length (lf_bytes f)) <= o)%Z ->
          n = o /\ session (store w') = session (store w)
          /\ executed (store w') = executed (store w)))
  /\ (forall w w' text d (o : Z) latest,
        state_file w = Some text -> json_loads text = Some (JObj d) ->
        latest_of (log_files w) = Some latest ->
        dict_get (u "inode") d = Some (JInt (lf_inode latest)) ->
        dict_get (u "offset") d = Some (JInt o) -> (o < 2 ^ 64)%Z ->
        pass w = (Ok tt, w') ->
        exists n,
          (o <= n)%Z
          /\ state_file w' = Some (json_dumps (JObj (dict_set (u "offset") (JInt n) d)))).
Proof.
  split.
  - intros f o w n w' Hb H.
    apply process_file_inv in H as (off & Hoff & -> & _ & Hs & _ & He & _).
    apply as_offset_int in Hoff as [-> H0]; [|exact Hb].
    split; [unfold tell_at_end; lia|].
    intros Hend. rewrite (lines_from_end f o Hend) in *. simpl in *.
    split; [unfold tell_at_end; lia|]. auto.
  - intros w w' text d o latest Hf Hv Hl Hi Ho Hb H.
    apply pass_main in H as (w0 & H & Hs & _). rewrite Hs.
    apply main_cases in H as [[[e ?] _]|(v & latest' & Hl' & Hlat & H)];
      [discriminate|].
    rewrite (load_state_parsed w text _ Hf Hv) in Hl'.
    assert (v = JObj d) by congruence. assert (latest' = latest) by congruence.
    subst v latest'. destruct (latest_of_stat _ _ Hl) as (_ & Hdl & _).
    rewrite (ingest_same_file latest d o _ Hdl Hi Ho) in H.
    apply bind_inv in H as [(e & _ & ?)|(n & w1 & H1 & H2)]; [discriminate|].
    apply process_file_inv in H1 as (off & Hoff & -> & _).
    apply save_state_ok in H2 as [H2 _].
    exists (tell_at_end latest off). split; [|exact H2].
    apply as_offset_int in Hoff as [-> H0]; [|exact Hb].
    unfold tell_at_end. lia.
Qed.

(** The loop of the rotation branch stops at the first file of the stored
    inode and reads it from the stored offset. *)
Lemma drain_found (files : list logfile) (d : list (list N * json pyfloat))
    (x o : Z) (old : logfile) w :
  dict_get (u "inode") d = Some (JInt x) ->
  dict_get (u "offset") d = Some (JInt o) ->
  existsb lf_dangling files = false ->
  List.find (fun p => (x =? lf_inode p)%Z) files = Some old ->
  drain files (JObj d) w
  = bind (process_file old (JInt o))
      (fun n => lift (store_subscript (JObj d) (u "offset") (JInt n))) w.
Proof.
  intros Hi Ho. induction files as [|p rest IH]; simpl; [discriminate|].
  intros Hdl Hfind. apply orb_false_iff in Hdl as [-> Hdl].
  rewrite (bind_lift_ok _ _ _ _ (subscript_obj _ _ _ Hi)). simpl.
  destruct (x =? lf_inode p)%Z.
  - injection Hfind as ->.
    now rewrite (bind_lift_ok _ _ _ _ (subscript_obj _ _ _ Ho)).
  - now apply IH.
Qed.

(** The rotation where nothing goes wrong: a pass that finds the stored
    inode on a file other than the latest one, with a stored offset
    within that file, no failure of the store or of the write of the state
    file and no line that raises, reads that file from the stored offset
    to its end, then the latest file from its start; the rows of both are
    committed, those of the old file first, and the state file ends with
    the inode of the latest file and the offset of its end, whatever the
    offset the old file was read to. *)
Lemma rotation_without_a_raising_line w (text : str)
    (d : list (list N * json pyfloat)) (x o : Z) (old latest : logfile) :
  state_file w = Some text -> json_loads text = Some (JObj d) ->
  dict_get (u "inode") d = Some (JInt x) -> x <> 0%Z ->
  dict_get (u "offset") d = Some (JInt o) ->
  (0 <= o <= Z.of_nat (length (lf_bytes old)))%Z -> (o < 2 ^ 64)%Z ->
  latest_of (log_files w) = Some latest -> lf_inode latest <> x ->
  List.find (fun p => (x =? lf_inode p)%Z) (log_files w) = Some old ->
  schedule (store w) = [] -> state_write w = WriteCompletes ->
  no_raise (lines_from old o) = true ->
  no_raise (lines_from latest 0) = true ->
  exists w' final,
    pass w = (Ok tt, w')
    /\ durable (store w')
       = write_all (inserted (lines_from old o) ++ inserted (lines_from latest 0))
           (durable (store w))
    /\ executed (store w')
       = rev (inserted (lines_from old o) ++ inserted (lines_from latest 0))
         ++ executed (store w)
    /\ state_file w' = Some (json_dumps (JObj final))
    /\ dict_get (u "inode") final = Some (JInt (lf_inode latest))
    /\ dict_get (u "offset") final = Some (JInt (Z.of_nat (length (lf_bytes latest)))).
Proof.
  intros Hf Hv Hi Hx Ho Hrange Hb Hl Hcur Hfind Hs Hw Hn1 Hn2.
  pose proof (load_state_parsed w text _ Hf Hv) as Hload.
  destruct (connected_facts w) as (Cf & Cw & Cl & Cd & Cs & Ce & _ & Csch).
  specialize (Csch Hs). set (w2 := connected w) in *.
  destruct (latest_of_stat _ _ Hl) as (_ & Hdl & Hall).
  assert (Hdo : lf_dangling old = false).
  { apply find_some in Hfind as [Hin _].
    destruct (lf_dangling old) eqn:E; [|reflexivity].
    assert (existsb lf_dangling (log_files w) = true) by (apply existsb_exists; eauto).
    congruence. }
  assert (Hoff : as_offset old (JInt o) = Ok o) by now apply as_offset_within.
  destruct (process_file_total old (JInt o) o w2 Csch Hoff Hn1) as [w3 H3].
  pose proof (process_file_frame _ _ _ _ _ H3) as (Ff & Fw & Fl & _).
  pose proof (process_file_inv _ _ _ _ _ H3) as (o' & Ho' & _ & _ & Hses3 & Hdur3 & Hex3 & Hsch3).
  assert (o' = o) by congruence. subst o'. specialize (Hsch3 Csch).
  set (d1 := dict_set (u "offset") (JInt (tell_at_end old o)) d).
  set (d2 := dict_set (u "inode") (JInt (lf_inode latest)) d1).
  set (d3 := dict_set (u "offset") (JInt 0) d2).
  assert (Hrot : handle_rotation (lf_inode latest) (JObj d) w2 = (Ok (JObj d3), w3)).
  { unfold handle_rotation.
    rewrite (bind_lift_ok _ _ _ _ (subscript_obj _ _ _ Hi)). simpl.
    destruct (Z.eqb_spec x 0); [congruence|].
    destruct (Z.eqb_spec x (lf_inode latest)); [congruence|]. simpl.
    unfold bind at 1, glob. rewrite Cl.
    erewrite bind_ok; cycle 1.
    { rewrite (drain_found _ d x o old _ Hi Ho Hall Hfind).
      rewrite (bind_ok _ _ _ _ _ H3). reflexivity. }
    reflexivity. }
  assert (Hi3 : dict_get (u "inode") d3 = Some (JInt (lf_inode latest))).
  { unfold d3. rewrite dict_get_set_ne by apply offset_is_not_inode.
    apply dict_get_set_eq. }
  assert (Ho3 : dict_get (u "offset") d3 = Some (JInt 0)) by apply dict_get_set_eq.
  destruct (process_file_total latest (JInt 0) 0 w3 Hsch3 (as_offset_zero _ Hdl) Hn2)
    as [w4 H4].
  pose proof (process_file_frame _ _ _ _ _ H4) as (Gf & Gw & Gl & _).
  pose proof (process_file_inv _ _ _ _ _ H4) as (o4 & Ho4 & _ & _ & Hses4 & Hdur4 & Hex4 & _).
  rewrite (as_offset_zero _ Hdl) in Ho4. injection Ho4 as <-.
  set (d4 := dict_set (u "offset") (JInt (tell_at_end latest 0)) d3).
  assert (Hing : ingest latest (JObj d) w2
                 = (Ok tt, with_state_file w4 (Some (json_dumps (JObj d4))))).
  { unfold ingest. rewrite Hdl, (bind_ok _ _ _ _ _ Hrot).
    erewrite bind_ok; cycle 1.
    { unfold adopt_inode.
      rewrite (bind_lift_ok _ _ _ _ (subscript_obj _ _ _ Hi3)). reflexivity. }
    rewrite (bind_lift_ok _ _ _ _ (subscript_obj _ _ _ Ho3)).
    rewrite (bind_ok _ _ _ _ _ H4).
    erewrite bind_lift_ok; [|reflexivity].
    unfold save_state. fold d4.
    assert (E : state_write w4 = WriteCompletes) by congruence.
    now rewrite E. }
  eexists _, d4. unfold pass.
  rewrite (main_total w _ latest Hs Hload Hl). fold w2. rewrite Hing.
  split; [reflexivity|]. simpl.
  split; [|split; [|split; [reflexivity|split]]].
  - rewrite Hdur4, Hses4, Hses3, Cs. now rewrite write_all_app.
  - rewrite Hex4, Hex3, Ce. rewrite rev_app_distr. now rewrite app_assoc.
  - unfold d4. rewrite dict_get_set_ne by apply offset_is_not_inode. exact Hi3.
  - unfold d4. rewrite dict_get_set_eq. unfold tell_at_end.
    do 2 f_equal. lia.
Qed.
End Driver.

(** ** The theorems at the sample worlds *)

(** The state file holds an object with an inode that no file has and no
    offset: the pass does not fail on the missing key. The rotation branch
    sets the offset, the latest file is read from its start, and the pass
    returns. *)
Lemma state_without_offset_can_pass :
  let text := u "{" ++ dq ++ u "inode" ++ dq ++ u ": 99}" in
  let w := world_with (Some text) WriteCompletes [] in
  json_loads (Runtime := Reference.runtime) text = Some (JObj [(u "inode", JInt 99)])
  /\ load_state (RT := Reference.runtime) w = (Ok (JObj [(u "inode", JInt 99)]), w)
  /\ subscript (RT := Reference.runtime) (JObj [(u "inode", JInt 99)]) (u "offset")
     = Raise KeyError
  /\ exists w',
       pass (RT := Reference.runtime) w = (Ok tt, w')
       /\ state_file w' = Some (@json_dumps Reference.runtime (JObj (state_of 8 200))).
Proof.
  cbv zeta. split; [vm_compute; reflexivity|]. split; [vm_compute; reflexivity|].
  split; [reflexivity|]. eexists. split; vm_compute; reflexivity.
Qed.

(** The rotation at the sample world: the old file was read up to the end
    of its first line; the pass commits the row of its second line and
    the row of the line of the new file, and no other, and saves the inode
    and the size of the new file. *)
Example rotation_at_the_sample_world :
  exists w',
    pass (RT := Reference.runtime) rotated_world = (Ok tt, w')
    /\ durable (store w') = <[uid row_500 := row_500]> (<[uid row_404 := row_404]> ∅)
    /\ executed (store w') = [row_500; row_404]
    /\ state_file w' = Some (@json_dumps Reference.runtime (JObj (state_of 8 200))).
Proof.
  eexists. split; [vm_compute; reflexivity|].
  split; [vm_compute; reflexivity|]. split; vm_compute; reflexivity.
Qed.

(** C1, at a world the code fails on: the stored inode is that of a
    rotated file not read yet, whose second line has two dashes as byte
    count. The pass raises ValueError at that line. The row of the first
    line was handed to the store and is not committed, the new file is not
    read, the state file is as it was, and the next pass ends the same
    way. *)
Theorem a_raising_line_stops_the_rotation :
  let w := world_over [spoiled_old_log; new_log] (Some (state_text 7 0)) in
  let w' := snd (pass (RT := Reference.runtime) w) in
  let w'' := snd (pass (RT := Reference.runtime) w') in
  @lines_from Reference.runtime spoiled_old_log 0
  = [sample_line ++ [10]; log_line "-" "200" "--" "-" ++ [10]]
  /\ process_line (RT := Reference.runtime) sample_line = Insert sample_row
  /\ process_line (RT := Reference.runtime) (log_line "-" "200" "--" "-")
     = Raised ValueError
  /\ process_line (RT := Reference.runtime) (log_line "-" "500" "12" "") = Insert row_500
  /\ fst (pass (RT := Reference.runtime) w) = Raise ValueError
  /\ executed (store w') = [sample_row]
  /\ durable (store w') = ∅
  /\ state_file w' = state_file w
  /\ fst (pass (RT := Reference.runtime) w') = Raise ValueError
  /\ durable (store w'') = ∅
  /\ state_file w'' = state_file w.
Proof. cbv zeta. repeat split; vm_compute; reflexivity. Qed.

Lemma second_reading_writes_nothing_witness :
  let w := world_with None WriteCompletes [] in
  let w1 := snd (process_file (RT := Reference.runtime) new_log (JInt 0) w) in
  process_file (RT := Reference.runtime) new_log (JInt 0) w = (Ok 200%Z, w1)
  /\ exists w2,
       process_file (RT := Reference.runtime) new_log (JInt 0) w1 = (Ok 200%Z, w2)
       /\ durable (store w2) = durable (store w1)
       /\ session (store w2) = session (store w1).
Proof.
  cbv zeta. split; [vm_compute; reflexivity|].
  apply (@second_reading_writes_nothing Reference.runtime new_log (JInt 0)
           (world_with None WriteCompletes []) 200%Z).
  - vm_compute. reflexivity.
  - vm_compute. reflexivity.
Defined.

Lemma state_is_saved_after_the_commit_witness :
  let r := fst (pass (RT := Reference.runtime) failing_world) in
  let w' := snd (pass (RT := Reference.runtime) failing_world) in
  r = Raise StoreError
  /\ failures (store w') = 1%nat
  /\ state_file w' = state_file failing_world
  /\ exists new,
       executed (store w') = new ++ executed (store failing_world)
       /\ (failures (store w') <> failures (store failing_world) ->
           (exists e, r = Raise e) /\ state_file w' = state_file failing_world)
       /\ (state_file w' <> state_file failing_world ->
           failures (store w') = failures (store failing_world)
           /\ Forall (fun x => is_Some (durable (store w') !! uid x)) new).
Proof.
  cbv zeta. split; [vm_compute; reflexivity|].
  split; [vm_compute; reflexivity|]. split; [vm_compute; reflexivity|].
  apply (@state_is_saved_after_the_commit Reference.runtime failing_world).
  vm_compute. reflexivity.
Defined.

Lemma offsets_only_move_forward_witness :
  let w := world_with None WriteCompletes [] in
  let w1 := snd (process_file (RT := Reference.runtime) new_log (JInt 200) w) in
  let w2 := snd (pass (RT := Reference.runtime) same_file_world) in
  (process_file (RT := Reference.runtime) new_log (JInt 200) w = (Ok 200%Z, w1)
   /\ session (store w1) = session (store w)
   /\ executed (store w1) = executed (store w))
  /\ (pass (RT := Reference.runtime) same_file_world = (Ok tt, w2)
      /\ exists n, (0 <= n)%Z
           /\ state_file w2
              = Some (@json_dumps Reference.runtime (JObj (dict_set (u "offset") (JInt n) (state_of 8 0))))).
Proof.
  cbv zeta. split.
  - split; [vm_compute; reflexivity|].
    destruct (proj1 (@offsets_only_move_forward Reference.runtime) new_log 200%Z
                (world_with None WriteCompletes []) 200%Z
                (snd (process_file (RT := Reference.runtime) new_log (JInt 200)
                        (world_with None WriteCompletes []))))
      as (_ & H); [reflexivity|vm_compute; reflexivity|].
    apply H. vm_compute. discriminate.
  - split; [vm_compute; reflexivity|].
    apply (proj2 (@offsets_only_move_forward Reference.runtime) same_file_world
             (snd (pass (RT := Reference.runtime) same_file_world))
             (json_dumps (RT := Reference.runtime) (JObj (state_of 8 0)))
             (state_of 8 0) 0%Z new_log); vm_compute; reflexivity.
Defined.

(** A stored offset of 2^64 is no position but a cookie of the text
    layer, whose position is 0: the file is read from its start, and what
    is returned and saved is its size, far below the offset given. *)
Lemma a_cookie_is_read_from_the_start :
  let w := world_over [old_log; new_log] (Some (state_text 8 (2 ^ 64))) in
  fst (process_file (RT := Reference.runtime) new_log (JInt (2 ^ 64))
         (world_with None WriteCompletes [])) = Ok 200%Z
  /\ ~ (2 ^ 64 <= 200)%Z
  /\ json_loads (Runtime := Reference.runtime) (state_text 8 (2 ^ 64))
     = Some (JObj (state_of 8 (2 ^ 64)))
  /\ fst (pass (RT := Reference.runtime) w) = Ok tt
  /\ state_file (snd (pass (RT := Reference.runtime) w)) = Some (state_text 8 200).
Proof.
  cbv zeta. split; [vm_compute; reflexivity|]. split; [lia|].
  repeat split; vm_compute; reflexivity.
Qed.

Lemma state_file_is_rewritten_in_place_witness :
  let w := stopped_world 9 in
  fst (new_state (RT := Reference.runtime) w) = Ok (JObj (state_of 8 200))
  /\ state_write w = WriteStops 9
  /\ fst (pass (RT := Reference.runtime) w) = Raise OSError
  /\ state_file (snd (pass (RT := Reference.runtime) w))
     = Some (take 9 (@json_dumps Reference.runtime (JObj (state_of 8 200))))
  /\ take 9 (@json_dumps Reference.runtime (JObj (state_of 8 200)))
     = u "{" ++ dq ++ u "inode" ++ dq ++ u ":".
Proof.
  cbv zeta. split; [vm_compute; reflexivity|]. split; [reflexivity|].
  pose proof (@state_file_is_rewritten_in_place Reference.runtime (stopped_world 9)) as H.
  destruct (new_state (RT := Reference.runtime) (stopped_world 9)) as [[state|e] w1] eqn:E;
    [|vm_compute in E; discriminate].
  assert (Hs : state = JObj (state_of 8 200)).
  { assert (fst (new_state (RT := Reference.runtime) (stopped_world 9))
            = Ok (JObj (state_of 8 200))) as Hf by (vm_compute; reflexivity).
    rewrite E in Hf. now injection Hf. }
  subst state. change (state_write (stopped_world 9)) with (WriteStops 9) in H.
  cbv iota in H. destruct H as [H1 H2].
  split; [exact H1|]. split; [exact H2|]. vm_compute. reflexivity.
Defined.

(** A write of the state file that stops at once leaves the file empty:
    neither the state it held nor the state the pass had reached. *)
Lemma stopped_write_leaves_an_empty_state_file :
  exists w' w'',
    pass (RT := Reference.runtime) (stopped_world 0) = (Raise OSError, w')
    /\ pass (RT := Reference.runtime) rotated_world = (Ok tt, w'')
    /\ state_file w' = Some []
    /\ state_file w' <> state_file (stopped_world 0)
    /\ state_file w' <> state_file w''
    /\ json_loads (Runtime := Reference.runtime) [] = None.
Proof.
  eexists _, _. split; [vm_compute; reflexivity|].
  split; [vm_compute; reflexivity|]. split; [reflexivity|].
  split; [vm_compute; discriminate|]. split; [vm_compute; discriminate|].
  reflexivity.
Qed.

(** * Further properties *)

(** ** Lines and whitespace *)

Lemma lstrip_spaces (a s : str) :
  forallb is_space a = true -> lstrip (a ++ s) = lstrip s.
Proof.
  induction a as [|c a IH]; simpl; [reflexivity|].
  intros H. apply andb_true_iff in H as [Hc Ha]. rewrite Hc. now apply IH.
Qed.

Lemma lstrip_nil_iff (s : str) : lstrip s = [] <-> forallb is_space s = true.
Proof.
  induction s as [|c s IH]; simpl; [tauto|].
  destruct (is_space c); simpl; [exact IH|]. split; discriminate.
Qed.

(** What [lstrip] leaves is empty or starts with a character that is no
    blank. *)
Lemma lstrip_head_cases (s : str) :
  lstrip s = [] \/ exists c t, lstrip s = c :: t /\ is_space c = false.
Proof.
  induction s as [|c s IH]; simpl; [now left|].
  destruct (is_space c) eqn:E; [exact IH|]. right. eauto.
Qed.

Lemma lstrip_app_cons (c : char) (t b : str) :
  is_space c = false -> lstrip ((c :: t) ++ b) = (c :: t) ++ b.
Proof. intros H. simpl. now rewrite H. Qed.

Lemma rstrip_spaces (s b : str) :
  forallb is_space b = true -> rstrip (s ++ b) = rstrip s.
Proof.
  intros H. unfold rstrip. rewrite rev_app_distr. f_equal.
  apply lstrip_spaces. rewrite forallb_forall in *. intros x Hx.
  apply H. now apply in_rev.
Qed.

Lemma rstrip_nil_iff (s : str) : rstrip s = [] <-> forallb is_space s = true.
Proof.
  unfold rstrip. split.
  - intros H. assert (Hl : lstrip (rev s) = []).
    { rewrite <- (rev_involutive (lstrip (rev s))). now rewrite H. }
    apply lstrip_nil_iff in Hl. rewrite forallb_forall in *.
    intros x Hx. apply Hl. now apply in_rev in Hx.
  - intros H. assert (Hl : lstrip (rev s) = []).
    { apply lstrip_nil_iff. rewrite forallb_forall in *.
      intros x Hx. apply H. now apply in_rev. }
    now rewrite Hl.
Qed.

Lemma strip_nil_iff (s : str) : strip s = [] <-> forallb is_space s = true.
Proof.
  unfold strip. rewrite rstrip_nil_iff. split.
  - intros H. destruct (lstrip_head_cases s) as [E|(c & t & E & Hc)].
    + now apply lstrip_nil_iff.
    + rewrite E in H. simpl in H. rewrite Hc in H. discriminate.
  - intros H. apply lstrip_nil_iff in H. now rewrite H.
Qed.

Lemma strip_padding (a s b : str) :
  forallb is_space a = true -> forallb is_space b = true ->
  strip (a ++ s ++ b) = strip s.
Proof.
  intros Ha Hb. unfold strip. rewrite (lstrip_spaces a _ Ha).
  destruct (lstrip_head_cases s) as [E|(c & t & E & Hc)].
  - rewrite E. apply lstrip_nil_iff in E.
    assert (E' : lstrip (s ++ b) = []).
    { apply lstrip_nil_iff. rewrite forallb_forall in *. intros x Hx.
      apply in_app_or in Hx as [Hx|Hx]; auto. }
    now rewrite E'.
  - assert (Hs : exists a', s = a' ++ c :: t /\ forallb is_space a' = true).
    { clear -E Hc. induction s as [|x s IH]; simpl in E; [discriminate|].
      destruct (is_space x) eqn:Ex.
      - destruct (IH E) as (a' & -> & Ha'). exists (x :: a'). simpl. now rewrite Ex, Ha'.
      - exists []. simpl. now rewrite E. }
    destruct Hs as (a' & -> & Ha').
    rewrite <- app_assoc. rewrite (lstrip_spaces a' _ Ha').
    rewrite (lstrip_spaces a' _ Ha').
    change ((c :: t) ++ b) with ((c :: t) ++ b).
    rewrite (lstrip_app_cons c t b Hc).
    rewrite (lstrip_head c t Hc). now apply rstrip_spaces.
Qed.

Section LineFacts.
Context {RT : Runtime}.

(** X1: a line is passed over as blank exactly when all its characters are
    whitespace, the empty line among them. *)
Theorem blank_lines_are_the_whitespace_lines (raw : str) :
  process_line raw = Blank <-> forallb is_space raw = true.
Proof.
  rewrite <- strip_nil_iff. unfold process_line. split.
  - destruct (str_eqb (strip raw) []) eqn:E; [intros _; now apply str_eqb_eq|].
    destruct (re_match LOG_PATTERN (strip raw)); [|discriminate].
    destruct (utf8_encode (strip raw)); [|discriminate].
    repeat match goal with
           | |- bind_outcome ?x _ = _ -> _ => destruct x; simpl; try discriminate
           end.
  - intros ->. reflexivity.
Qed.

(** X2: whitespace before and after a line changes nothing of what is made
    of it: the same row with the same id, or the same refusal. *)
Theorem surrounding_whitespace_is_ignored (a raw b : str) :
  forallb is_space a = true -> forallb is_space b = true ->
  process_line (a ++ raw ++ b) = process_line raw.
Proof.
  intros Ha Hb. unfold process_line. now rewrite (strip_padding a raw b Ha Hb).
Qed.
End LineFacts.

(** ** What a match captures *)

Lemma none_of_one (x : char) (v : str) :
  forallb (cset_mem (NoneOf [Ch x])) v = true -> ~ In x v.
Proof.
  intros H Hin. rewrite forallb_forall in H. specialize (H x Hin).
  simpl in H. rewrite N.eqb_refl in H. discriminate.
Qed.

Lemma any_char_no_newline (v : str) :
  forallb (cset_mem AnyChar) v = true -> ~ In 10 v.
Proof.
  intros H Hin. rewrite forallb_forall in H. specialize (H 10 Hin). discriminate.
Qed.

(** The twelve captures of a match of [LOG_PATTERN], latest first, and the
    characters each is made of. *)
Lemma captures_of_a_match (line : str) (data : groups) :
  re_match LOG_PATTERN line = Some data ->
  exists tl h ra ru rq st bb rf ua rt ut gz,
    data = [("gzip_ratio"%string, gz); ("upstream_response_time"%string, ut);
            ("request_time"%string, rt); ("http_user_agent"%string, ua);
            ("http_referer"%string, rf); ("body_bytes_sent"%string, bb);
            ("status"%string, st); ("request"%string, rq);
            ("remote_user"%string, ru); ("remote_addr"%string, ra);
            ("host"%string, h); ("time_local"%string, tl)]
    /\ (tl <> [] /\ ~ In 93 tl)
    /\ (h <> [] /\ ~ In pipe h)
    /\ (ra <> [] /\ ~ In pipe ra)
    /\ (ru <> [] /\ ~ In pipe ru)
    /\ ~ In 10 rq
    /\ (st <> [] /\ forallb is_digit st = true)
    /\ (bb <> [] /\ digits_or_dashes bb = true)
    /\ ~ In 34 rf
    /\ ~ In 34 ua
    /\ (rt <> [] /\ forallb (cset_mem number_chars) rt = true)
    /\ (ut <> [] /\ forallb (cset_mem number_chars) ut = true)
    /\ (gz <> [] /\ forallb (cset_mem number_chars) gz = true).
Proof.
  unfold re_match. intros H.
  apply rmatch_sound in H as (s' & g' & Hd & Hk). injection Hk as <-.
  unfold LOG_PATTERN, cat, field, key, ws in Hd. cbn [fold_right denotes] in Hd.
  repeat match goal with
         | H : exists _, _ |- _ => destruct H
         | H : _ /\ _ |- _ => destruct H
         end.
  subst.
  repeat match goal with
         | H : ?a ++ ?t = ?b ++ ?t |- _ => apply app_inv_tail in H; subst
         end.
  do 12 eexists. split; [reflexivity|].
  repeat match goal with
         | H : forallb (cset_mem (NoneOf [Ch _])) _ = true |- _ => apply none_of_one in H
         | H : forallb (cset_mem AnyChar) _ = true |- _ => apply any_char_no_newline in H
         end.
  assert (Hdig : forall v, forallb (cset_mem (OneOf [ClsDigit])) v = true ->
                           forallb is_digit v = true).
  { intros v Hv. rewrite <- Hv. clear. induction v as [|c v IH]; [reflexivity|].
    simpl. rewrite IH. now rewrite orb_false_r. }
  assert (Hdd : forall v, forallb (cset_mem (OneOf [ClsDigit; Ch 45])) v = true ->
                          digits_or_dashes v = true).
  { intros v Hv. rewrite <- Hv. clear. unfold digits_or_dashes.
    induction v as [|c v IH]; [reflexivity|].
    simpl. rewrite IH. now rewrite orb_false_r. }
  repeat match goal with
         | |- _ /\ _ => split
         end; auto.
Qed.

Section FieldFacts.
Context {RT : Runtime}.

(** The fields of a row, from the captures of its line. *)
Lemma process_line_fields (raw : str) (r : row datetime pyfloat) :
  process_line raw = Insert r ->
  exists data bbs,
    re_match LOG_PATTERN (strip raw) = Some data
    /\ host r = group_get "host" data
    /\ remote_addr r = group_get "remote_addr" data
    /\ remote_user r = dash_to_none (group_get "remote_user" data)
    /\ request r = dash_to_none (group_get "request" data)
    /\ http_referer r = dash_to_none (group_get "http_referer" data)
    /\ http_user_agent r = dash_to_none (group_get "http_user_agent" data)
    /\ to_nullable_int (group_get "body_bytes_sent" data) = Ok bbs
    /\ body_bytes_sent r = or_zero bbs.
Proof.
  unfold process_line. intros H.
  destruct (str_eqb (strip raw) []); [discriminate|].
  destruct (re_match LOG_PATTERN (strip raw)) as [data|]; [|discriminate].
  destruct (utf8_encode (strip raw)) as [bytes|]; [|discriminate].
  destruct (to_nullable_int (group_get "status" data)) as [st|]; [|discriminate].
  destruct (to_nullable_int (group_get "body_bytes_sent" data)) as [bbs|] eqn:Eb;
    [|discriminate].
  destruct (to_nullable_float (group_get "request_time" data)); [|discriminate].
  destruct (to_nullable_float (group_get "upstream_response_time" data)); [|discriminate].
  destruct (to_nullable_float (group_get "gzip_ratio" data)); [|discriminate].
  simpl in H. injection H as <-. exists data, bbs. simpl.
  repeat match goal with |- _ /\ _ => split end; auto.
Qed.

Lemma dash_to_none_some (v w : str) :
  dash_to_none (Some v) = Some w -> w = v /\ v <> u "-".
Proof.
  unfold dash_to_none. destruct (str_eqb v (u "-")) eqn:E; [discriminate|].
  intros H. injection H as <-. split; [reflexivity|].
  intros ->. discriminate.
Qed.

(** X3: a line whose first character, once it is stripped, is not an
    opening bracket is unmatched: it yields no row and raises nothing. *)
Theorem lines_must_open_with_a_bracket (raw : str) (c : char) (t : str) :
  strip raw = c :: t -> c <> 91 -> process_line raw = Unmatched.
Proof.
  intros Hs Hc. unfold process_line. rewrite Hs. simpl str_eqb. cbv iota.
  destruct (re_match LOG_PATTERN (c :: t)) as [data|] eqn:E; [|reflexivity].
  exfalso. unfold re_match in E.
  apply rmatch_sound in E as (s' & g' & Hd & _).
  unfold LOG_PATTERN, cat in Hd. cbn [fold_right denotes] in Hd.
  destruct Hd as (sm & gm & (-> & _) & sm2 & gm2 & (Heq & _) & _).
  change (u "[") with [91] in Heq. simpl in Heq. injection Heq as Heq _.
  congruence.
Qed.

(** X4: in every row, host and remote address are never null, never empty
    and hold no bar; the user, when it is not null, is not empty, holds no
    bar and is not the lone dash; referer and user agent, when not null,
    hold no double quote and are not the lone dash; the request, when not
    null, holds no newline and is not the lone dash. *)
Theorem fields_of_a_row (raw : str) (r : row datetime pyfloat) :
  process_line raw = Insert r ->
  (exists h, host r = Some h /\ h <> [] /\ ~ In pipe h)
  /\ (exists a, remote_addr r = Some a /\ a <> [] /\ ~ In pipe a)
  /\ (forall v, remote_user r = Some v -> v <> [] /\ ~ In pipe v /\ v <> u "-")
  /\ (forall v, http_referer r = Some v -> ~ In 34 v /\ v <> u "-")
  /\ (forall v, http_user_agent r = Some v -> ~ In 34 v /\ v <> u "-")
  /\ (forall v, request r = Some v -> ~ In 10 v /\ v <> u "-").
Proof.
  intros H.
  apply process_line_fields in H
    as (data & bbs & Hm & Hh & Ha & Hu & Hq & Hrf & Hua & _).
  apply captures_of_a_match in Hm
    as (tl & h & ra & ru & rq & st & bb & rf & ua & rt & ut & gz & -> & _ & [Hh1 Hh2]
        & [Ha1 Ha2] & [Hu1 Hu2] & Hq1 & _ & _ & Hrf1 & Hua1 & _).
  cbn [group_get String.eqb Ascii.eqb Bool.eqb] in *.
  split; [eauto|]. split; [eauto|].
  split; [|split; [|split]]; intros v Hv.
  - rewrite Hu in Hv. apply dash_to_none_some in Hv as [-> ?]. auto.
  - rewrite Hrf in Hv. apply dash_to_none_some in Hv as [-> ?]. auto.
  - rewrite Hua in Hv. apply dash_to_none_some in Hv as [-> ?]. auto.
  - rewrite Hq in Hv. apply dash_to_none_some in Hv as [-> ?]. auto.
Qed.
End FieldFacts.

(** ** The integer conversion *)

Lemma strip_no_space (s : str) :
  forallb (fun c => negb (is_space c)) s = true -> strip s = s.
Proof.
  intros H. unfold strip, rstrip.
  assert (Hl : forall t : str,
             forallb (fun c => negb (is_space c)) t = true -> lstrip t = t).
  { intros [|c t] Ht; [reflexivity|]. simpl in Ht.
    apply andb_true_iff in Ht as [Hc _].
    apply lstrip_head. now apply negb_true_iff. }
  rewrite (Hl s H). rewrite Hl.
  - apply rev_involutive.
  - rewrite forallb_forall in *. intros x Hx. apply H. now apply in_rev.
Qed.

Lemma digits_or_dashes_no_space (v : str) :
  digits_or_dashes v = true -> forallb (fun c => negb (is_space c)) v = true.
Proof.
  unfold digits_or_dashes. rewrite !forallb_forall. intros H c Hc.
  specialize (H c Hc). apply negb_true_iff.
  apply orb_true_iff in H as [H|H].
  - now apply digit_not_space.
  - apply N.eqb_eq in H. now subst.
Qed.

Lemma py_int_signed (s r : str) :
  strip s = 45 :: r ->
  py_int s = option_map (fun n => (- Z.of_N n)%Z) (limited_digits r).
Proof. unfold py_int. now intros ->. Qed.

Lemma py_int_unsigned (s : str) (c : char) (r : str) :
  strip s = c :: r -> c <> 45 -> c <> 43 ->
  py_int s = option_map Z.of_N (limited_digits (c :: r)).
Proof.
  unfold py_int. intros -> H45 H43.
  destruct c as [|p]; [reflexivity|].
  repeat (destruct p as [p|p|]; try reflexivity; try congruence).
Qed.

(** Where [int] reads digits and dashes, there was no dash. *)
Lemma digits_value_no_dash (r : str) :
  digits_or_dashes r = true ->
  forall a b n, digits_value a b r = Some n -> forallb is_digit r = true.
Proof.
  unfold digits_or_dashes.
  induction r as [|c r IH]; intros H a b n Hv; [reflexivity|].
  simpl in *. apply andb_true_iff in H as [Hc Hr].
  unfold is_digit in *. destruct (decimal_value c) as [d|] eqn:Ed.
  - simpl. eauto.
  - simpl in Hc. apply N.eqb_eq in Hc. subst c. discriminate.
Qed.

Lemma digits_value_none_of_dash (r : str) :
  digits_or_dashes r = true -> forallb is_digit r = false ->
  digits_value 0 false r = None.
Proof.
  intros H Hd. destruct (digits_value 0 false r) as [n|] eqn:E; [|reflexivity].
  apply (digits_value_no_dash r H) in E. congruence.
Qed.

(** What [int] makes of the digits and dashes after the sign. *)
Lemma limited_digits_cases (r : str) :
  digits_or_dashes r = true -> r <> [] ->
  match limited_digits r with
  | Some n => forallb is_digit r = true /\ digit_count r <= max_str_digits
  | None => forallb is_digit r = false \/ max_str_digits < digit_count r
  end.
Proof.
  intros H Hne. unfold limited_digits.
  destruct (N.ltb_spec max_str_digits (digit_count r)); [now right|].
  destruct (forallb is_digit r) eqn:Ed.
  - destruct (digits_value_digits r 0 Hne Ed) as [n ->]. auto.
  - rewrite (digits_value_none_of_dash _ H Ed). now left.
Qed.

(** X5: what the byte count of a matched line is turned into. The text
    is made of digits and dashes. The empty text and the lone dash give
    null; digits, or one dash and then digits, no more than 4300 digits in
    all, give a number, which is not above zero after a dash and not below
    zero without one; every other text, such as digits followed by a dash,
    or more than 4300 digits, raises ValueError. *)
Theorem to_nullable_int_on_digits_and_dashes (v : str) :
  digits_or_dashes v = true ->
  match to_nullable_int (Some v) with
  | Ok None => v = [] \/ v = u "-"
  | Ok (Some n) =>
      signed_digits v = true /\ digit_count v <= max_str_digits
      /\ match v with 45 :: _ => (n <= 0)%Z | _ => (0 <= n)%Z end
  | Raise e =>
      e = ValueError /\ v <> [] /\ v <> u "-"
      /\ (signed_digits v = false \/ max_str_digits < digit_count v)
  end.
Proof.
  intros H.
  pose proof (strip_no_space v (digits_or_dashes_no_space v H)) as Hs.
  destruct v as [|c r]; [simpl; auto|].
  destruct (N.eq_dec c 45) as [->|Hc].
  - destruct r as [|c' r']; [simpl; auto|].
    unfold to_nullable_int.
    assert (Hp : present (Some (45 :: c' :: r')) = Some (45 :: c' :: r')) by reflexivity.
    rewrite Hp, (py_int_signed _ _ Hs).
    assert (Hr : digits_or_dashes (c' :: r') = true) by exact H.
    change (signed_digits (45 :: c' :: r')) with (forallb is_digit (c' :: r')).
    change (digit_count (45 :: c' :: r')) with (digit_count (c' :: r')).
    pose proof (limited_digits_cases (c' :: r') Hr ltac:(discriminate)) as Hcase.
    destruct (limited_digits (c' :: r')) as [n|]; simpl option_map; cbv iota.
    + destruct Hcase as [Hd Hlen]. split; [exact Hd|]. split; [exact Hlen|lia].
    + repeat split; try discriminate. exact Hcase.
  - assert (Hd : is_digit c = true).
    { unfold digits_or_dashes in H. simpl in H. apply andb_true_iff in H as [H _].
      apply orb_true_iff in H as [H|H]; [exact H|].
      apply N.eqb_eq in H. congruence. }
    assert (H43 : c <> 43) by (intros ->; vm_compute in Hd; discriminate).
    assert (Hsd : signed_digits (c :: r) = forallb is_digit (c :: r)).
    { unfold signed_digits. apply N.eqb_neq in Hc. now rewrite Hc. }
    assert (Hp : present (Some (c :: r)) = Some (c :: r)).
    { assert (Hu : str_eqb (c :: r) (u "-") = false).
      { change (u "-") with [45]. simpl. apply N.eqb_neq in Hc. now rewrite Hc. }
      unfold present. now rewrite Hu. }
    unfold to_nullable_int. rewrite Hp, (py_int_unsigned _ _ _ Hs Hc H43), Hsd.
    pose proof (limited_digits_cases (c :: r) H ltac:(discriminate)) as Hcase.
    destruct (limited_digits (c :: r)) as [n|]; simpl option_map; cbv iota.
    + destruct Hcase as [Hdd Hlen]. split; [exact Hdd|]. split; [exact Hlen|].
      destruct c as [|p]; [lia|].
      repeat (destruct p as [p|p|]; try lia; try congruence).
    + repeat split; try discriminate; [|exact Hcase].
      change (u "-") with [45]. congruence.
Qed.

(** ** The shape of an id *)

Lemma be_bytes_shape (k : nat) (n : N) :
  length (SHA1.be_bytes k n) = k /\ Forall (fun b => b < 256) (SHA1.be_bytes k n).
Proof.
  induction k as [|k [IHl IHf]]; simpl; [split; [reflexivity|constructor]|].
  split; [now rewrite IHl|]. constructor; [|exact IHf].
  change 255 with (N.ones 8). rewrite N.land_ones.
  apply N.mod_lt. discriminate.
Qed.

Lemma digest_shape (msg : list byte) :
  length (SHA1.digest msg) = 20%nat /\ Forall (fun b => b < 256) (SHA1.digest msg).
Proof.
  unfold SHA1.digest.
  generalize (SHA1.blocks
                (length (SHA1.be_words (SHA1.pad (List.map Byte.to_N msg))))
                SHA1.init (SHA1.be_words (SHA1.pad (List.map Byte.to_N msg)))).
  intros r. cbn [List.map concat].
  split.
  - rewrite !length_app. now rewrite !(proj1 (be_bytes_shape 4 _)).
  - repeat (apply Forall_app; split); try apply be_bytes_shape. constructor.
Qed.

Lemma hex_digit_lower (n : N) : n < 16 -> is_lower_hex (SHA1.hex_digit n) = true.
Proof.
  intros H. unfold SHA1.hex_digit, is_lower_hex.
  destruct (n <? 10) eqn:E.
  - apply N.ltb_lt in E. apply orb_true_iff. left.
    apply andb_true_iff. split; apply N.leb_le; lia.
  - apply N.ltb_ge in E. apply orb_true_iff. right.
    apply andb_true_iff. split; apply N.leb_le; lia.
Qed.

Lemma hexdigest_shape (msg : list byte) :
  length (SHA1.hexdigest msg) = 40%nat
  /\ forallb is_lower_hex (SHA1.hexdigest msg) = true.
Proof.
  unfold SHA1.hexdigest. destruct (digest_shape msg) as [Hl Hf].
  assert (Hgen : forall bs, Forall (fun b => b < 256) bs ->
            length (concat (List.map (fun b => [SHA1.hex_digit (N.shiftr b 4);
                                                SHA1.hex_digit (N.land b 15)]) bs))
            = (2 * length bs)%nat
            /\ forallb is_lower_hex
                 (concat (List.map (fun b => [SHA1.hex_digit (N.shiftr b 4);
                                              SHA1.hex_digit (N.land b 15)]) bs))
               = true).
  { induction 1 as [|b bs Hb Hbs [IHl IHf]]; [split; reflexivity|].
    cbn [List.map concat app length forallb].
    split; [rewrite IHl; lia|].
    rewrite IHf, !hex_digit_lower; [reflexivity| |].
    - change 15 with (N.ones 4). rewrite N.land_ones. apply N.mod_lt. discriminate.
    - rewrite N.shiftr_div_pow2. change (2 ^ 4) with 16.
      apply N.Div0.div_lt_upper_bound. lia. }
  destruct (Hgen _ Hf) as [H1 H2]. rewrite Hl in H1. auto.
Qed.

Section IdFacts.
Context {RT : Runtime}.

(** X6: the id of every row is forty characters, each a digit or one of
    the letters a to f in lower case. *)
Theorem ids_are_forty_hex_characters (raw : str) (r : row datetime pyfloat) :
  process_line raw = Insert r ->
  length (uid r) = 40%nat /\ forallb is_lower_hex (uid r) = true.
Proof.
  intros H. apply process_line_insert in H as (data & bytes & st & _ & _ & -> & _).
  apply hexdigest_shape.
Qed.
End IdFacts.

(** ** The choice of the latest file *)




Section LatestFacts.
Context {RT : Runtime}.

#[local] Abbreviation world := (world datetime pyfloat).

End LatestFacts.

(** ** What is committed stays *)

Section Committed.
Context {RT : Runtime}.

#[local] Abbreviation world := (world datetime pyfloat).
#[local] Abbreviation database := (database datetime pyfloat).
#[local] Abbreviation row := (row datetime pyfloat).

Implicit Types (w : world) (d : database).

Lemma grows_refl w : grows w w.
Proof. intros H. split; [reflexivity|exact H]. Qed.

Lemma grows_trans w1 w2 w3 : grows w1 w2 -> grows w2 w3 -> grows w1 w3.
Proof.
  intros H12 H23 H. destruct (H12 H) as [Ha Hb]. destruct (H23 Hb) as [Hc Hd].
  split; [now transitivity (durable (store w2))|exact Hd].
Qed.

Lemma respects_bind {A B : Type} (c : M A) (k : A -> M B) :
  respects c -> (forall a, respects (k a)) -> respects (bind c k).
Proof.
  intros Hc Hk w r w' H.
  apply bind_inv in H as [(e & H & _)|(a & w1 & H1 & H2)].
  - now apply Hc in H.
  - eapply grows_trans; [eapply Hc, H1|eapply Hk, H2].
Qed.

Lemma respects_lift {A : Type} (x : result A) : respects (lift x).
Proof. intros w r w' H. injection H as _ <-. apply grows_refl. Qed.

Lemma respects_ret {A : Type} (a : A) : respects (ret a).
Proof. intros w r w' H. injection H as _ <-. apply grows_refl. Qed.

Lemma respects_raise {A : Type} (e : exn) : respects (@raise _ A e).
Proof. intros w r w' H. injection H as _ <-. apply grows_refl. Qed.

Lemma respects_db_op (f : database -> database) :
  (forall d, durable d ⊆ session d ->
             durable d ⊆ durable (f d) /\ durable (f d) ⊆ session (f d)) ->
  respects (db_op f).
Proof.
  intros Hf w r w' H Hw. unfold db_op in H.
  destruct (schedule (store w)) as [|[|] rest] eqn:E;
    injection H as _ <-; simpl; try (split; [reflexivity|exact Hw]);
    match goal with |- context [f ?d] => apply (Hf d) end; exact Hw.
Qed.

Lemma respects_commit : respects commit.
Proof. apply respects_db_op. intros d H. simpl. split; [exact H|reflexivity]. Qed.

Lemma respects_execute_insert (r : row) : respects (execute_insert r).
Proof.
  apply respects_db_op. intros d H. simpl. split; [reflexivity|].
  etransitivity; [exact H|apply insert_if_absent_subseteq].
Qed.

Lemma respects_ensure_table_exists : respects ensure_table_exists.
Proof.
  apply respects_bind; [|intros _; apply respects_commit].
  apply respects_db_op. intros d H. split; [reflexivity|exact H].
Qed.

Lemma respects_write_lines (ls : list str) : respects (write_lines ls).
Proof.
  induction ls as [|l ls IH]; simpl; [apply respects_ret|].
  destruct (process_line l); auto using respects_raise.
  apply respects_bind; [apply respects_execute_insert|auto].
Qed.

Lemma respects_process_file (f : logfile) (v : json pyfloat) :
  respects (process_file f v).
Proof.
  unfold process_file.
  apply respects_bind; [apply respects_lift|intros off].
  apply respects_bind; [apply respects_write_lines|intros _].
  apply respects_bind; [apply respects_commit|intros _]. apply respects_ret.
Qed.

Lemma respects_drain (files : list logfile) (state : json pyfloat) :
  respects (drain files state).
Proof.
  induction files as [|p rest IH]; simpl; [apply respects_ret|].
  destruct (lf_dangling p); [apply respects_raise|].
  apply respects_bind; [apply respects_lift|intros inode].
  destruct (eq_int inode (lf_inode p)); [|exact IH].
  apply respects_bind; [apply respects_lift|intros off].
  apply respects_bind; [apply respects_process_file|intros n]. apply respects_lift.
Qed.

Lemma respects_handle_rotation (cur : Z) (state : json pyfloat) :
  respects (handle_rotation cur state).
Proof.
  unfold handle_rotation.
  apply respects_bind; [apply respects_lift|intros inode].
  destruct (truth inode && negb (eq_int inode cur)); [|apply respects_ret].
  apply respects_bind.
  { intros w r w' H. injection H as _ <-. apply grows_refl. }
  intros files.
  apply respects_bind; [apply respects_drain|intros s1].
  apply respects_bind; [apply respects_lift|intros s2]. apply respects_lift.
Qed.

Lemma respects_save_state (state : json pyfloat) : respects (save_state state).
Proof.
  intros w r w' H. unfold save_state in H.
  destruct (state_write w); injection H as _ <-; intros Hw; simpl;
    (split; [reflexivity|exact Hw]).
Qed.

Lemma respects_ingest (latest : logfile) (state : json pyfloat) :
  respects (ingest latest state).
Proof.
  unfold ingest. destruct (lf_dangling latest); [apply respects_raise|].
  apply respects_bind; [apply respects_handle_rotation|intros s1].
  apply respects_bind.
  { unfold adopt_inode.
    apply respects_bind; [apply respects_lift|intros inode].
    destruct inode; auto using respects_ret, respects_lift. }
  intros s2.
  apply respects_bind; [apply respects_lift|intros off].
  apply respects_bind; [apply respects_process_file|intros n].
  apply respects_bind; [apply respects_lift|intros s3]. apply respects_save_state.
Qed.

Lemma respects_select_latest_log : respects select_latest_log.
Proof.
  intros w r w' H. unfold select_latest_log in H.
  destruct (latest_of (log_files w)); injection H as _ <-; apply grows_refl.
Qed.

(** X8: whatever a pass does and however it ends, every row that was
    committed before it is committed after it, unchanged: a pass only ever
    adds rows to the table. *)
Theorem committed_rows_stay w :
  durable (store w) ⊆ durable (store (snd (pass w))).
Proof.
  destruct (pass w) as [r w'] eqn:H. simpl.
  apply pass_main in H as (w0 & Hm & _ & -> & _).
  unfold main in Hm.
  destruct (load_state_pure w) as [v Hv].
  rewrite (bind_ok _ _ _ _ _ Hv) in Hm.
  apply bind_inv in Hm as [(e & Hc & _)|([] & w1 & Hc & Hm)].
  - apply get_db_conn_cases in Hc as (_ & _ & _ & _ & -> & _). reflexivity.
  - apply get_db_conn_cases in Hc
      as (_ & _ & _ & _ & Hd & [[e He]|(_ & _ & Hs)]); [discriminate|].
    rewrite <- Hd.
    assert (Hr : respects (bind ensure_table_exists (fun _ =>
                   bind select_latest_log (fun latest => ingest latest v)))).
    { apply respects_bind; [apply respects_ensure_table_exists|intros _].
      apply respects_bind; [apply respects_select_latest_log|intros latest].
      apply respects_ingest. }
    apply (Hr _ _ _ Hm). now rewrite Hs, Hd.
Qed.

Lemma write_lines_durable (ls : list str) w (r : result unit) w' :
  write_lines ls w = (r, w') -> durable (store w') = durable (store w).
Proof.
  revert w r w'. induction ls as [|l ls IH]; simpl; intros w r w' Hl.
  - injection Hl as _ <-. reflexivity.
  - destruct (process_line l); eauto.
    + apply bind_inv in Hl as [(e' & Hl & _)|([] & w2 & H1 & H2)].
      * unfold execute_insert, db_op in Hl.
        destruct (schedule (store w)) as [|[|] rest];
          injection Hl as _ <-; reflexivity.
      * apply IH in H2. rewrite H2. unfold execute_insert, db_op in H1.
        destruct (schedule (store w)) as [|[|] rest]; try discriminate;
          injection H1 as <-; reflexivity.
    + injection Hl as _ <-. reflexivity.
Qed.

(** A reading that raises commits nothing. *)
Lemma process_file_raise_durable (f : logfile) (v : json pyfloat) w (e : exn) w' :
  process_file f v w = (Raise e, w') -> durable (store w') = durable (store w).
Proof.
  intros H. unfold process_file in H.
  apply bind_inv in H as [(e' & H & _)|(off & w1 & H1 & H)].
  { injection H as _ <-. reflexivity. }
  injection H1 as _ <-.
  apply bind_inv in H as [(e' & H & _)|([] & w1 & H1 & H)].
  { eapply write_lines_durable, H. }
  apply write_lines_durable in H1. rewrite <- H1.
  apply bind_inv in H as [(e' & H & _)|([] & w2 & H2 & H)]; [|discriminate].
  unfold commit, db_op in H.
  destruct (schedule (store w1)) as [|[|] rest]; try discriminate.
  injection H as _ <-. reflexivity.
Qed.

(** X9: a file is committed whole or not at all. When [process_file]
    returns, the committed table is the session it found with the rows of
    all the lines from the offset on written to it, and the offset returned
    is the end of the file, or the offset given when that lies beyond it;
    when it raises, whatever the cause, the committed table is as it
    was. *)
Theorem a_file_is_committed_whole_or_not_at_all (f : logfile) (v : json pyfloat) w :
  match process_file f v w with
  | (Ok n, w') =>
      exists off,
        as_offset f v = Ok off
        /\ n = Z.max off (Z.of_nat (length (lf_bytes f)))
        /\ durable (store w')
           = write_all (inserted (lines_from f off)) (session (store w))
  | (Raise _, w') => durable (store w') = durable (store w)
  end.
Proof.
  destruct (process_file f v w) as [r w'] eqn:H. destruct r as [n|e].
  - apply process_file_inv in H as (off & Ho & -> & _ & Hs & Hd & _).
    exists off. split; [exact Ho|]. split; [reflexivity|]. now rewrite Hd.
  - eapply process_file_raise_durable, H.
Qed.
End Committed.

(** ** More runs of the pass *)

Lemma dict_set_same {V : Type} (k : str) (v : V) (d : list (list N * V)) :
  dict_get k d = Some v -> dict_set k v d = d.
Proof.
  induction d as [|[k' v'] d IH]; simpl; [discriminate|].
  destruct (str_eqb k' k); intros H.
  - now injection H as ->.
  - now rewrite IH.
Qed.

Lemma dict_set_set {V : Type} (k : str) (v1 v2 : V) (d : list (list N * V)) :
  dict_set k v2 (dict_set k v1 d) = dict_set k v2 d.
Proof.
  induction d as [|[k' v'] d IH]; simpl.
  - now rewrite str_eqb_refl.
  - destruct (str_eqb k' k) eqn:E; simpl; rewrite E; [reflexivity|now rewrite IH].
Qed.

Section MoreRuns.
Context {RT : Runtime}.

#[local] Abbreviation world := (world datetime pyfloat).
#[local] Abbreviation row := (row datetime pyfloat).

Implicit Types (w : world).

Lemma skipped_lines (ls : list str) :
  forallb skipped ls = true -> inserted ls = [] /\ no_raise ls = true.
Proof.
  unfold no_raise. induction ls as [|l ls IH]; simpl; [auto|].
  unfold skipped at 1. intros H. apply andb_true_iff in H as [Hl Hls].
  destruct (IH Hls) as [-> ->]. destruct (process_line l); try discriminate; auto.
Qed.

(** A line that raises ends the loop with what it raised, when the store
    does not fail first. *)
Lemma write_lines_raise (ls : list str) w :
  schedule (store w) = [] -> no_raise ls = false ->
  exists l e w',
    In l ls /\ process_line l = Raised e /\ write_lines ls w = (Raise e, w').
Proof.
  unfold no_raise. revert w. induction ls as [|l ls IH]; intros w Hs Hn.
  - discriminate.
  - simpl in Hn. simpl write_lines.
    destruct (process_line l) as [| |r|e] eqn:El.
    + destruct (IH w Hs Hn) as (l' & e & w' & Hin & Hp & Hw).
      exists l', e, w'. split; [now right|auto].
    + destruct (IH w Hs Hn) as (l' & e & w' & Hin & Hp & Hw).
      exists l', e, w'. split; [now right|auto].
    + pose proof (db_op_total
                    (fun d => {| durable := durable d;
                                 session := insert_if_absent r (session d);
                                 schedule := schedule d; failures := failures d;
                                 executed := r :: executed d |}) w Hs) as Hx.
      fold (execute_insert r) in Hx.
      destruct (IH (with_store w
                      {| durable := durable (next (store w));
                         session := insert_if_absent r (session (next (store w)));
                         schedule := schedule (next (store w));
                         failures := failures (next (store w));
                         executed := r :: executed (next (store w)) |}))
        as (l' & e & w' & Hin & Hp & Hw); [simpl; now rewrite Hs|exact Hn|].
      exists l', e, w'. split; [now right|]. split; [exact Hp|].
      rewrite (bind_ok _ _ _ _ _ Hx). exact Hw.
    + exists l, e, w. split; [now left|]. split; [exact El|reflexivity].
Qed.

(** [ingest] once the rotation and the adoption of the inode are done. *)
Lemma ingest_after (latest : logfile) (state s1 : json pyfloat)
    (d : list (list N * json pyfloat)) (x : json pyfloat) w w1 :
  lf_dangling latest = false ->
  handle_rotation (lf_inode latest) state w = (Ok s1, w1) ->
  adopt_inode (lf_inode latest) s1 w1 = (Ok (JObj d), w1) ->
  dict_get (u "offset") d = Some x ->
  ingest latest state w
  = bind (process_file latest x)
      (fun n => save_state (JObj (dict_set (u "offset") (JInt n) d))) w1.
Proof.
  intros Hdl Hr Ha Ho. unfold ingest. rewrite Hdl.
  rewrite (bind_ok _ _ _ _ _ Hr), (bind_ok _ _ _ _ _ Ha).
  rewrite (bind_lift_ok _ _ _ _ (subscript_obj _ _ _ Ho)).
  unfold bind. destruct (process_file latest x w1) as [[n|e] w2]; reflexivity.
Qed.

(** The end of a pass whose last reading and whose write of the state
    succeed. *)
Lemma read_and_save (latest : logfile) (d : list (list N * json pyfloat))
    (x : json pyfloat) (off : Z) w :
  schedule (store w) = [] -> state_write w = WriteCompletes ->
  as_offset latest x = Ok off -> no_raise (lines_from latest off) = true ->
  exists w',
    bind (process_file latest x)
      (fun n => save_state (JObj (dict_set (u "offset") (JInt n) d))) w = (Ok tt, w')
    /\ state_file w'
       = Some (json_dumps (JObj (dict_set (u "offset")
                                   (JInt (tell_at_end latest off)) d)))
    /\ durable (store w')
       = write_all (inserted (lines_from latest off)) (session (store w))
    /\ executed (store w')
       = rev (inserted (lines_from latest off)) ++ executed (store w).
Proof.
  intros Hs Hw Hx Hn.
  destruct (process_file_total latest x off w Hs Hx Hn) as [w1 H1].
  pose proof (process_file_frame _ _ _ _ _ H1) as (_ & Fw & _).
  pose proof (process_file_inv _ _ _ _ _ H1)
    as (o' & Ho' & _ & _ & Hses & Hdur & Hex & _).
  assert (o' = off) by congruence. subst o'.
  eexists. rewrite (bind_ok _ _ _ _ _ H1). unfold save_state.
  rewrite Fw, Hw. split; [reflexivity|]. simpl.
  split; [reflexivity|]. split; [now rewrite Hdur|exact Hex].
Qed.

Lemma same_file_no_rotation (cur : Z) (d : list (list N * json pyfloat)) w :
  dict_get (u "inode") d = Some (JInt cur) ->
  handle_rotation cur (JObj d) w = (Ok (JObj d), w)
  /\ adopt_inode cur (JObj d) w = (Ok (JObj d), w).
Proof.
  intros Hi. unfold handle_rotation, adopt_inode.
  rewrite !(bind_lift_ok _ _ _ _ (subscript_obj _ _ _ Hi)). simpl.
  rewrite Z.eqb_refl, andb_false_r. split; reflexivity.
Qed.

Lemma drain_not_found (files : list logfile) (d : list (list N * json pyfloat))
    (i : json pyfloat) w :
  dict_get (u "inode") d = Some i ->
  existsb lf_dangling files = false ->
  existsb (fun p => eq_int i (lf_inode p)) files = false ->
  drain files (JObj d) w = (Ok (JObj d), w).
Proof.
  intros Hi. induction files as [|p rest IH]; simpl; intros Hdl H; [reflexivity|].
  apply orb_false_iff in H as [Hp Hrest]. apply orb_false_iff in Hdl as [-> Hdl].
  rewrite (bind_lift_ok _ _ _ _ (subscript_obj _ _ _ Hi)). rewrite Hp. auto.
Qed.

(** X10: lines that are blank or do not match are passed over for good.
    When no line from the offset on yields a row or raises, [process_file]
    still returns the end of the file, and hands nothing to the store. *)
Theorem passed_over_lines_are_not_read_again (f : logfile) (v : json pyfloat)
    (off : Z) w :
  schedule (store w) = [] -> as_offset f v = Ok off ->
  forallb skipped (lines_from f off) = true ->
  exists w',
    process_file f v w = (Ok (Z.max off (Z.of_nat (length (lf_bytes f)))), w')
    /\ durable (store w') = session (store w)
    /\ session (store w') = session (store w)
    /\ executed (store w') = executed (store w).
Proof.
  intros Hs Hv Hsk. apply skipped_lines in Hsk as [Hi Hn].
  destruct (process_file_total f v off w Hs Hv Hn) as [w' H].
  exists w'. split; [exact H|].
  apply process_file_inv in H as (o' & Ho' & _ & _ & Hses & Hdur & Hex & _).
  assert (o' = off) by congruence. subst o'.
  rewrite Hi in *. simpl in *. rewrite Hdur. auto.
Qed.

(** X11: a first run, with no state file or one that does not parse, reads
    the latest file from its start and no other file, commits its rows and
    saves the inode of that file with its size as offset. *)
Theorem first_run_reads_the_latest_file_only w (latest : logfile) :
  (state_file w = None
   \/ exists text, state_file w = Some text /\ json_loads text = None) ->
  latest_of (log_files w) = Some latest ->
  schedule (store w) = [] -> state_write w = WriteCompletes ->
  no_raise (lines_from latest 0) = true ->
  exists w',
    pass w = (Ok tt, w')
    /\ durable (store w')
       = write_all (inserted (lines_from latest 0)) (durable (store w))
    /\ executed (store w') = rev (inserted (lines_from latest 0)) ++ executed (store w)
    /\ state_file w'
       = Some (json_dumps
                 (JObj [(u "inode", JInt (lf_inode latest));
                        (u "offset", JInt (Z.of_nat (length (lf_bytes latest))))])).
Proof.
  intros Hf Hl Hs Hw Hn.
  assert (Hload : load_state w = (Ok fresh_state, w)).
  { unfold load_state. destruct Hf as [->|(text & -> & ->)]; reflexivity. }
  destruct (connected_facts w) as (_ & Cw & _ & _ & Cs & Ce & _ & Csch).
  specialize (Csch Hs).
  set (d := [(u "inode", JInt (lf_inode latest)); (u "offset", JInt 0)]
            : list (list N * json pyfloat)).
  assert (Hing : ingest latest fresh_state (connected w)
                 = bind (process_file latest (JInt 0))
                     (fun n => save_state (JObj (dict_set (u "offset") (JInt n) d)))
                     (connected w)).
  { apply (ingest_after latest fresh_state fresh_state);
      [apply (latest_of_stat _ _ Hl)|reflexivity..]. }
  destruct (read_and_save latest d (JInt 0) 0 (connected w) Csch
              ltac:(congruence) (as_offset_zero _ (proj1 (proj2 (latest_of_stat _ _ Hl)))) Hn)
    as (w' & Hrun & Hst & Hdur & Hex).
  eexists. unfold pass. rewrite (main_total w _ latest Hs Hload Hl), Hing, Hrun.
  split; [reflexivity|]. simpl.
  split; [now rewrite Hdur, Cs|]. split; [now rewrite Hex, Ce|].
  rewrite Hst. unfold tell_at_end. rewrite Z.max_r by lia. reflexivity.
Qed.

(** The run in which the file of the stored inode is gone. *)
Lemma vanished_file_run w (text : str)
    (d : list (list N * json pyfloat)) (i : json pyfloat) (latest : logfile) :
  state_file w = Some text -> json_loads text = Some (JObj d) ->
  dict_get (u "inode") d = Some i ->
  latest_of (log_files w) = Some latest ->
  truth i && negb (eq_int i (lf_inode latest)) = true ->
  existsb (fun p => eq_int i (lf_inode p)) (log_files w) = false ->
  schedule (store w) = [] -> state_write w = WriteCompletes ->
  no_raise (lines_from latest 0) = true ->
  exists w',
    pass w = (Ok tt, w')
    /\ durable (store w')
       = write_all (inserted (lines_from latest 0)) (durable (store w))
    /\ executed (store w') = rev (inserted (lines_from latest 0)) ++ executed (store w)
    /\ state_file w'
       = Some (json_dumps
                 (JObj (dict_set (u "offset")
                          (JInt (Z.of_nat (length (lf_bytes latest))))
                          (dict_set (u "inode") (JInt (lf_inode latest)) d)))).
Proof.
  intros Hf Hj Hi Hl Hrot Hgone Hs Hw Hn.
  pose proof (load_state_parsed w text _ Hf Hj) as Hload.
  destruct (latest_of_stat _ _ Hl) as (_ & Hdl & Hall).
  destruct (connected_facts w) as (_ & Cw & Cl & _ & Cs & Ce & _ & Csch).
  specialize (Csch Hs).
  set (d1 := dict_set (u "inode") (JInt (lf_inode latest)) d).
  set (d2 := dict_set (u "offset") (JInt 0) d1).
  assert (Hr : handle_rotation (lf_inode latest) (JObj d) (connected w)
               = (Ok (JObj d2), connected w)).
  { unfold handle_rotation.
    rewrite (bind_lift_ok _ _ _ _ (subscript_obj _ _ _ Hi)). rewrite Hrot.
    unfold bind at 1, glob. rewrite Cl.
    rewrite (bind_ok _ _ _ _ _ (drain_not_found _ d i _ Hi Hall Hgone)). reflexivity. }
  assert (Hi2 : dict_get (u "inode") d2 = Some (JInt (lf_inode latest))).
  { unfold d2. rewrite dict_get_set_ne by apply offset_is_not_inode.
    apply dict_get_set_eq. }
  assert (Ho2 : dict_get (u "offset") d2 = Some (JInt 0)) by apply dict_get_set_eq.
  assert (Ha : adopt_inode (lf_inode latest) (JObj d2) (connected w)
               = (Ok (JObj d2), connected w)).
  { unfold adopt_inode.
    now rewrite (bind_lift_ok _ _ _ _ (subscript_obj _ _ _ Hi2)). }
  pose proof (ingest_after latest _ _ _ _ _ _ Hdl Hr Ha Ho2) as Hing.
  destruct (read_and_save latest d2 (JInt 0) 0 (connected w) Csch
              ltac:(congruence) (as_offset_zero _ Hdl) Hn)
    as (w' & Hrun & Hst & Hdur & Hex).
  eexists. unfold pass. rewrite (main_total w _ latest Hs Hload Hl), Hing, Hrun.
  split; [reflexivity|]. simpl.
  split; [now rewrite Hdur, Cs|]. split; [now rewrite Hex, Ce|].
  rewrite Hst. unfold d2. rewrite dict_set_set.
  unfold tell_at_end. rewrite Z.max_r by lia. reflexivity.
Qed.

(** X12: when the stored inode is not that of the latest file and no file
    of the glob has it any more, the stored offset is dropped: the latest
    file is read from its start, and what was left unread of the file that
    is gone is never ingested. The state saved is the stored one with the
    inode and the size of the latest file. *)
Theorem a_vanished_file_is_given_up w (text : str)
    (d : list (list N * json pyfloat)) (i : json pyfloat) (latest : logfile) :
  state_file w = Some text -> json_loads text = Some (JObj d) ->
  dict_get (u "inode") d = Some i ->
  latest_of (log_files w) = Some latest ->
  truth i && negb (eq_int i (lf_inode latest)) = true ->
  existsb (fun p => eq_int i (lf_inode p)) (log_files w) = false ->
  schedule (store w) = [] -> state_write w = WriteCompletes ->
  no_raise (lines_from latest 0) = true ->
  exists w',
    pass w = (Ok tt, w')
    /\ durable (store w')
       = write_all (inserted (lines_from latest 0)) (durable (store w))
    /\ executed (store w') = rev (inserted (lines_from latest 0)) ++ executed (store w)
    /\ state_file w'
       = Some (json_dumps
                 (JObj (dict_set (u "offset")
                          (JInt (Z.of_nat (length (lf_bytes latest))))
                          (dict_set (u "inode") (JInt (lf_inode latest)) d)))).
Proof. apply vanished_file_run. Qed.

(** X13: nothing below the stored offset is ever read. When the latest
    file is the one of the stored inode, is not longer than the stored
    offset, because nothing was appended or because it was emptied in
    place, and the file system lets the file be moved to that offset, the
    pass returns, hands nothing to the store, and saves the state it
    loaded, with the same offset. *)
Theorem nothing_is_read_below_the_stored_offset w (text : str)
    (d : list (list N * json pyfloat)) (o : Z) (latest : logfile) :
  state_file w = Some text -> json_loads text = Some (JObj d) ->
  latest_of (log_files w) = Some latest ->
  dict_get (u "inode") d = Some (JInt (lf_inode latest)) ->
  dict_get (u "offset") d = Some (JInt o) ->
  (Z.of_nat (length (lf_bytes latest)) <= o)%Z ->
  as_offset latest (JInt o) = Ok o ->
  schedule (store w) = [] -> state_write w = WriteCompletes ->
  exists w',
    pass w = (Ok tt, w')
    /\ durable (store w') = durable (store w)
    /\ executed (store w') = executed (store w)
    /\ state_file w' = Some (json_dumps (JObj d)).
Proof.
  intros Hf Hj Hl Hi Ho Hsize Hoff Hs Hw.
  pose proof (load_state_parsed w text _ Hf Hj) as Hload.
  destruct (connected_facts w) as (_ & Cw & Cl & _ & Cs & Ce & _ & Csch).
  specialize (Csch Hs).
  destruct (latest_of_stat _ _ Hl) as (_ & Hdl & _).
  destruct (same_file_no_rotation _ d (connected w) Hi) as [Hr Ha].
  pose proof (ingest_after latest _ _ _ _ _ _ Hdl Hr Ha Ho) as Hing.
  assert (Hnil : lines_from latest o = []) by (apply lines_from_end; lia).
  destruct (read_and_save latest d (JInt o) o (connected w) Csch
              ltac:(congruence) Hoff ltac:(now rewrite Hnil))
    as (w' & Hrun & Hst & Hdur & Hex).
  eexists. unfold pass. rewrite (main_total w _ latest Hs Hload Hl), Hing, Hrun.
  split; [reflexivity|]. simpl. rewrite Hnil in Hdur, Hex.
  split; [rewrite Hdur; exact Cs|]. split; [rewrite Hex; exact Ce|].
  rewrite Hst. unfold tell_at_end. rewrite Z.max_l by lia.
  now rewrite (dict_set_same _ _ _ Ho).
Qed.

(** X14: one line that raises stops the ingestion. When the latest file
    is the one of the stored inode and a line from the stored offset on
    makes the conversions raise, the pass raises what such a line raised,
    commits no row, not even those of the lines before it, and leaves the
    state file as it was: the next pass starts from the same offset. *)
Theorem a_raising_line_stops_the_pass w (text : str)
    (d : list (list N * json pyfloat)) (o : Z) (latest : logfile) :
  state_file w = Some text -> json_loads text = Some (JObj d) ->
  latest_of (log_files w) = Some latest ->
  dict_get (u "inode") d = Some (JInt (lf_inode latest)) ->
  dict_get (u "offset") d = Some (JInt o) -> (0 <= o < 2 ^ 63)%Z ->
  schedule (store w) = [] ->
  no_raise (lines_from latest o) = false ->
  exists l e w',
    In l (lines_from latest o) /\ process_line l = Raised e
    /\ pass w = (Raise e, w')
    /\ durable (store w') = durable (store w)
    /\ state_file w' = state_file w.
Proof.
  intros Hf Hj Hl Hi Ho Hrange Hs Hn.
  pose proof (load_state_parsed w text _ Hf Hj) as Hload.
  destruct (connected_facts w) as (Cf & _ & _ & Cd & _ & _ & _ & Csch).
  specialize (Csch Hs).
  destruct (latest_of_stat _ _ Hl) as (_ & Hdl & _).
  destruct (same_file_no_rotation _ d (connected w) Hi) as [Hr Ha].
  pose proof (ingest_after latest _ _ _ _ _ _ Hdl Hr Ha Ho) as Hing.
  assert (Hwithin : (o < Z.of_nat (length (lf_bytes latest)))%Z).
  { destruct (Z.lt_ge_cases o (Z.of_nat (length (lf_bytes latest)))) as [?|Hge];
      [assumption|].
    rewrite (lines_from_end latest o Hge) in Hn. discriminate. }
  assert (Hoff : as_offset latest (JInt o) = Ok o)
    by (apply as_offset_within; [exact Hdl|lia|lia]).
  destruct (write_lines_raise _ (connected w) Csch Hn) as (l & e & w1 & Hin & Hp & Hwl).
  assert (Hpf : process_file latest (JInt o) (connected w) = (Raise e, w1)).
  { unfold process_file. rewrite (bind_lift_ok _ _ _ _ Hoff).
    now rewrite (bind_raise _ _ _ _ _ Hwl). }
  exists l, e. eexists. split; [exact Hin|]. split; [exact Hp|].
  unfold pass. rewrite (main_total w _ latest Hs Hload Hl), Hing.
  rewrite (bind_raise _ _ _ _ _ Hpf).
  split; [reflexivity|]. simpl.
  split.
  - rewrite (process_file_raise_durable _ _ _ _ _ Hpf). exact Cd.
  - destruct (keeps_process_file latest (JInt o) _ _ _ Hpf) as [(Hst & _) _].
    now rewrite Hst.
Qed.

(** X15: the stored offset is taken as it is. When the latest file is the
    one of the stored inode and the stored offset is no position to move
    to, such as a negative number or a text, the pass raises what the
    move raises, reads no line and leaves the state file as it was. *)
Theorem a_bad_stored_offset_stops_the_pass w (text : str)
    (d : list (list N * json pyfloat)) (x : json pyfloat) (e : exn)
    (latest : logfile) :
  state_file w = Some text -> json_loads text = Some (JObj d) ->
  latest_of (log_files w) = Some latest ->
  dict_get (u "inode") d = Some (JInt (lf_inode latest)) ->
  dict_get (u "offset") d = Some x -> as_offset latest x = Raise e ->
  schedule (store w) = [] ->
  exists w',
    pass w = (Raise e, w')
    /\ durable (store w') = durable (store w)
    /\ executed (store w') = executed (store w)
    /\ state_file w' = state_file w.
Proof.
  intros Hf Hj Hl Hi Ho Hbad Hs.
  pose proof (load_state_parsed w text _ Hf Hj) as Hload.
  destruct (connected_facts w) as (Cf & _ & _ & Cd & _ & Ce & _ & _).
  destruct (latest_of_stat _ _ Hl) as (_ & Hdl & _).
  destruct (same_file_no_rotation _ d (connected w) Hi) as [Hr Ha].
  pose proof (ingest_after latest _ _ _ _ _ _ Hdl Hr Ha Ho) as Hing.
  assert (Hpf : process_file latest x (connected w) = (Raise e, connected w)).
  { unfold process_file. now rewrite (bind_lift_raise _ _ _ _ Hbad). }
  eexists. unfold pass. rewrite (main_total w _ latest Hs Hload Hl), Hing.
  rewrite (bind_raise _ _ _ _ _ Hpf).
  split; [reflexivity|]. simpl. auto.
Qed.

(** X16: a pass that returns has read the latest file to its end. The
    state file then holds an object whose offset is a number not below the
    size of the latest file, and whose inode compares equal to that of the
    latest file, unless the stored inode was a false value other than
    null, which is kept. *)
Theorem a_pass_that_returns_has_read_the_latest_file w w' :
  pass w = (Ok tt, w') ->
  exists latest final n,
    latest_of (log_files w) = Some latest
    /\ state_write w = WriteCompletes
    /\ state_file w' = Some (json_dumps (JObj final))
    /\ dict_get (u "offset") final = Some (JInt n)
    /\ (Z.of_nat (length (lf_bytes latest)) <= n)%Z
    /\ exists i, dict_get (u "inode") final = Some i
         /\ (eq_int i (lf_inode latest) = true \/ (truth i = false /\ i <> JNull)).
Proof.
  intros H. apply pass_main in H as (w0 & Hm & -> & _).
  apply main_cases in Hm as [[[e He] _]|(v & latest & _ & Hl & Hing)];
    [discriminate|].
  destruct (connected_facts w) as (_ & Cw & _).
  exists latest. unfold ingest in Hing.
  rewrite (proj1 (proj2 (latest_of_stat _ _ Hl))) in Hing.
  apply bind_inv in Hing as [(e & _ & He)|(s1 & w1 & H1 & Hing)]; [discriminate|].
  apply bind_inv in Hing as [(e & _ & He)|(s2 & w2 & H2 & Hing)]; [discriminate|].
  apply bind_inv in Hing as [(e & _ & He)|(off & w3 & H3 & Hing)]; [discriminate|].
  apply bind_inv in Hing as [(e & _ & He)|(n & w4 & H4 & Hing)]; [discriminate|].
  apply bind_inv in Hing as [(e & _ & He)|(s3 & w5 & H5 & Hing)]; [discriminate|].
  injection H3 as H3 <-. injection H5 as H5 <-.
  destruct s2 as [| | | | | |d2]; try discriminate.
  simpl in H5. injection H5 as <-.
  (* the inode after the rotation branch and the adoption *)
  assert (Hino : exists i, dict_get (u "inode") d2 = Some i
                   /\ (eq_int i (lf_inode latest) = true
                       \/ (truth i = false /\ i <> JNull))).
  { unfold adopt_inode in H2.
    apply bind_inv in H2 as [(e & _ & He)|(i1 & w6 & H6 & H2)]; [discriminate|].
    injection H6 as H6 <-.
    assert (Hs1 : exists i, dict_get (u "inode") d2 = Some i
                    /\ (i = JInt (lf_inode latest)
                        \/ (i = i1 /\ i1 <> JNull
                            /\ exists d1, s1 = JObj d1 /\ d2 = d1))).
    { destruct s1 as [| | | | | |d1]; try discriminate.
      simpl in H6. destruct (dict_get (u "inode") d1) as [x|] eqn:Ex; [|discriminate].
      injection H6 as H6. subst x.
      destruct i1;
        try (injection H2 as Hd Hw; subst; eexists; split; [exact Ex|];
             right; split; [reflexivity|]; split; [discriminate|eauto]).
      simpl in H2. injection H2 as <- <-. exists (JInt (lf_inode latest)).
      split; [apply dict_get_set_eq|now left]. }
    destruct Hs1 as (i & Hi & [->|(-> & Hnn & d1 & -> & <-)]).
    { eexists. split; [exact Hi|]. left. simpl. apply Z.eqb_refl. }
    exists i1. split; [exact Hi|].
    unfold handle_rotation in H1.
    apply bind_inv in H1 as [(e & _ & He)|(i0 & w7 & H7 & H1)]; [discriminate|].
    injection H7 as H7 <-.
    destruct (truth i0 && negb (eq_int i0 (lf_inode latest))) eqn:Erot.
    - apply bind_inv in H1 as [(e & _ & He)|(files & w8 & _ & H1)]; [discriminate|].
      apply bind_inv in H1 as [(e & _ & He)|(s4 & w9 & _ & H1)]; [discriminate|].
      apply bind_inv in H1 as [(e & _ & He)|(s5 & w10 & H10 & H1)]; [discriminate|].
      injection H10 as H10 <-. injection H1 as H1 <-.
      destruct s4 as [| | | | | |d4]; try discriminate. simpl in H10.
      injection H10 as <-. simpl in H1. injection H1 as <-.
      rewrite dict_get_set_ne in Hi by apply offset_is_not_inode.
      rewrite dict_get_set_eq in Hi. injection Hi as <-. left. simpl.
      apply Z.eqb_refl.
    - injection H1 as -> <-. simpl in H7.
      rewrite Hi in H7. injection H7 as H7. subst i0.
      apply andb_false_iff in Erot as [Et|Ee].
      + right. split; [exact Et|exact Hnn].
      + apply negb_false_iff in Ee. now left. }
  destruct Hino as (i & Hi & Hcase).
  pose proof (process_file_frame _ _ _ _ _ H4) as (_ & Fw & _).
  pose proof (process_file_inv _ _ _ _ _ H4) as (o' & _ & -> & _).
  apply save_state_ok in Hing as Hsave.
  exists (dict_set (u "offset") (JInt (tell_at_end latest o')) d2),
         (tell_at_end latest o').
  split; [exact Hl|]. split.
  { unfold save_state in Hing. destruct (state_write w4) eqn:Ew; try discriminate.
    assert (Hk : state_write w1 = state_write (connected w)).
    { destruct (keeps_handle_rotation (lf_inode latest) v _ _ _ H1) as [(_ & Hx & _) _].
      exact Hx. }
    assert (Hk2 : state_write w2 = state_write w1).
    { destruct (keeps_adopt_inode (lf_inode latest) s1 _ _ _ H2) as [(_ & Hx & _) _].
      exact Hx. }
    congruence. }
  split; [tauto|]. split; [apply dict_get_set_eq|].
  split; [unfold tell_at_end; lia|].
  exists i. split; [|exact Hcase].
  now rewrite dict_get_set_ne by apply offset_is_not_inode.
Qed.

(** X17: without a file matching the glob the pass raises
    FileNotFoundError, once the connection is open and the table ensured;
    it writes no row and leaves the state file as it was. *)
Theorem without_a_log_file_the_pass_raises w :
  log_files w = [] -> schedule (store w) = [] ->
  exists w',
    pass w = (Raise FileNotFoundError, w')
    /\ state_file w' = state_file w
    /\ durable (store w') = durable (store w)
    /\ executed (store w') = executed (store w).
Proof.
  intros Hl Hs.
  destruct (load_state_pure w) as [v Hv].
  destruct (connected_facts w) as (Cf & _ & Cl & Cd & _ & Ce & _ & _).
  assert (Hm : main w = (Raise FileNotFoundError, connected w)).
  { unfold main. rewrite (bind_ok _ _ _ _ _ Hv).
    unfold get_db_conn. rewrite (bind_ok _ _ _ _ _ (db_op_total _ _ Hs)).
    unfold ensure_table_exists, commit.
    erewrite bind_ok; cycle 1.
    { erewrite bind_ok; [|apply db_op_total; simpl; now rewrite Hs].
      apply db_op_total. simpl. now rewrite Hs. }
    change (with_store _ _) with (connected w).
    erewrite bind_raise; [reflexivity|].
    unfold select_latest_log. now rewrite Cl, Hl. }
  eexists. unfold pass. rewrite Hm. split; [reflexivity|]. simpl. auto.
Qed.
End MoreRuns.

(** ** The state that was loaded *)

Section LoadedState.
Context {RT : Runtime}.

#[local] Abbreviation world := (world datetime pyfloat).

Implicit Types (w : world).

(** C10, as the code has it: the state is the fresh one when the state
    file is missing or cannot be parsed, and whatever was parsed otherwise,
    as it is. A parsed value that has no inode to give, an object without
    that key or a value that is no object, makes the pass raise and leave
    the state file as it was. So does a parsed object with an inode and
    no offset, except when the rotation branch is taken and no file has
    the stored inode: the branch then sets the offset itself, the latest
    file is read from its start, and the pass returns when nothing else
    fails, saving the inode and the size of that file. *)
Theorem parsed_state_is_not_validated w :
  (state_file w = None -> load_state w = (Ok fresh_state, w))
  /\ (forall text, state_file w = Some text -> json_loads text = None ->
        load_state w = (Ok fresh_state, w))
  /\ (forall text v, state_file w = Some text -> json_loads text = Some v ->
        load_state w = (Ok v, w)
        /\ (forall e, subscript v (u "inode") = Raise e ->
              exists e' w', pass w = (Raise e', w')
                            /\ state_file w' = state_file w)
        /\ (forall d i,
              v = JObj d -> dict_get (u "inode") d = Some i ->
              dict_get (u "offset") d = None ->
              (forall latest, latest_of (log_files w) = Some latest ->
                 truth i && negb (eq_int i (lf_inode latest)) = true ->
                 existsb (fun p => eq_int i (lf_inode p)) (log_files w) = true) ->
              exists e' w', pass w = (Raise e', w')
                            /\ state_file w' = state_file w)
        /\ (forall d i latest,
              v = JObj d -> dict_get (u "inode") d = Some i ->
              latest_of (log_files w) = Some latest ->
              truth i && negb (eq_int i (lf_inode latest)) = true ->
              existsb (fun p => eq_int i (lf_inode p)) (log_files w) = false ->
              schedule (store w) = [] -> state_write w = WriteCompletes ->
              no_raise (lines_from latest 0) = true ->
              exists w',
                pass w = (Ok tt, w')
                /\ state_file w'
                   = Some (json_dumps
                             (JObj (dict_set (u "offset")
                                      (JInt (Z.of_nat (length (lf_bytes latest))))
                                      (dict_set (u "inode") (JInt (lf_inode latest))
                                         d)))))).
Proof.
  split; [|split].
  - unfold load_state. now intros ->.
  - unfold load_state. now intros text -> ->.
  - intros text v Hf Hv. pose proof (load_state_parsed w text v Hf Hv) as Hl.
    split; [exact Hl|]. split; [|split].
    + intros e He.
      unfold pass. destruct (main w) as [r w0] eqn:Hm.
      apply main_cases in Hm as [[[e' ->] Hs]|(v' & latest & Hl' & Hlat & Hi)].
      * eexists _, _. split; [reflexivity|exact Hs].
      * assert (v' = v) by congruence. subst v'.
        unfold ingest, handle_rotation in Hi.
        rewrite (proj1 (proj2 (latest_of_stat _ _ Hlat))) in Hi.
        rewrite (bind_raise _ _ _ e (connected w)) in Hi
          by now rewrite (bind_lift_raise _ e).
        injection Hi as <- <-.
        eexists _, _. split; [reflexivity|]. simpl. apply connected_facts.
    + intros d i -> Hi Ho Hfound.
      now apply (state_without_offset_fails_the_pass w text d i).
    + intros d i latest -> Hi Hlat Hrot Hgone Hs Hw Hn.
      destruct (vanished_file_run w text d i latest Hf Hv Hi Hlat Hrot Hgone Hs Hw Hn)
        as (w' & Hp & _ & _ & Hst).
      eauto.
Qed.
End LoadedState.

(** ** The further properties at sample lines and worlds *)

Lemma surrounding_whitespace_is_ignored_witness :
  process_line (RT := Reference.runtime) ([32; 9] ++ sample_line ++ [32; 13; 10])
  = process_line (RT := Reference.runtime) sample_line.
Proof.
  apply (@surrounding_whitespace_is_ignored Reference.runtime); reflexivity.
Defined.

Lemma lines_must_open_with_a_bracket_witness :
  process_line (RT := Reference.runtime) (u " GET /x HTTP/1.1") = Unmatched.
Proof.
  apply (@lines_must_open_with_a_bracket Reference.runtime
           (u " GET /x HTTP/1.1") 71 (u "ET /x HTTP/1.1")).
  - vm_compute. reflexivity.
  - discriminate.
Defined.

Lemma fields_of_a_row_witness :
  process_line (RT := Reference.runtime) sample_line = Insert sample_row
  /\ (exists h, host sample_row = Some h /\ h <> [] /\ ~ In pipe h)
  /\ (forall v, remote_user sample_row = Some v ->
        v <> [] /\ ~ In pipe v /\ v <> u "-").
Proof.
  split; [vm_compute; reflexivity|].
  destruct (@fields_of_a_row Reference.runtime sample_line sample_row)
    as (Hh & _ & Hu & _); [vm_compute; reflexivity|].
  split; [exact Hh|exact Hu].
Defined.

Lemma to_nullable_int_on_digits_and_dashes_witness :
  to_nullable_int (Some (u "-12")) = Ok (Some (-12)%Z)
  /\ to_nullable_int (Some (repeat 49 4300)) <> Raise ValueError
  /\ to_nullable_int (Some (repeat 49 4301)) = Raise ValueError
  /\ match to_nullable_int (Some (u "12-")) with
     | Ok None => u "12-" = [] \/ u "12-" = u "-"
     | Ok (Some n) =>
         signed_digits (u "12-") = true /\ digit_count (u "12-") <= max_str_digits
         /\ match u "12-" with 45 :: _ => (n <= 0)%Z | _ => (0 <= n)%Z end
     | Raise e =>
         e = ValueError /\ u "12-" <> [] /\ u "12-" <> u "-"
         /\ (signed_digits (u "12-") = false \/ max_str_digits < digit_count (u "12-"))
     end.
Proof.
  split; [vm_compute; reflexivity|].
  split; [vm_compute; discriminate|]. split; [vm_compute; reflexivity|].
  apply (to_nullable_int_on_digits_and_dashes (u "12-")). vm_compute. reflexivity.
Defined.

Lemma ids_are_forty_hex_characters_witness :
  length (uid sample_row) = 40%nat /\ forallb is_lower_hex (uid sample_row) = true.
Proof.
  apply (@ids_are_forty_hex_characters Reference.runtime sample_line sample_row).
  vm_compute. reflexivity.
Defined.

Lemma passed_over_lines_are_not_read_again_witness :
  exists w',
    process_file (RT := Reference.runtime) junk_log (JInt 0) (world_over [junk_log] None)
    = (Ok (Z.max 0 (Z.of_nat (length (lf_bytes junk_log)))), w')
    /\ durable (store w') = session (store (world_over [junk_log] None))
    /\ session (store w') = session (store (world_over [junk_log] None))
    /\ executed (store w') = executed (store (world_over [junk_log] None)).
Proof.
  apply (@passed_over_lines_are_not_read_again Reference.runtime junk_log (JInt 0) 0%Z
           (world_over [junk_log] None)); vm_compute; reflexivity.
Defined.

Lemma first_run_reads_the_latest_file_only_witness :
  exists w',
    pass (RT := Reference.runtime) (world_over [old_log; new_log] None) = (Ok tt, w')
    /\ durable (store w')
       = write_all (@inserted Reference.runtime (@lines_from Reference.runtime new_log 0))
           (durable (store (world_over [old_log; new_log] None)))
    /\ executed (store w')
       = rev (@inserted Reference.runtime (@lines_from Reference.runtime new_log 0))
         ++ executed (store (world_over [old_log; new_log] None))
    /\ state_file w'
       = Some (@json_dumps Reference.runtime
                 (JObj [(u "inode", JInt (lf_inode new_log));
                        (u "offset", JInt (Z.of_nat (length (lf_bytes new_log))))])).
Proof.
  apply (@first_run_reads_the_latest_file_only Reference.runtime
           (world_over [old_log; new_log] None) new_log);
    try (vm_compute; reflexivity).
  left. reflexivity.
Defined.

Lemma a_vanished_file_is_given_up_witness :
  exists w',
    pass (RT := Reference.runtime)
      (world_over [old_log; new_log] (Some (state_text 99 5))) = (Ok tt, w')
    /\ durable (store w')
       = write_all (@inserted Reference.runtime (@lines_from Reference.runtime new_log 0))
           (durable (store (world_over [old_log; new_log] (Some (state_text 99 5)))))
    /\ executed (store w')
       = rev (@inserted Reference.runtime (@lines_from Reference.runtime new_log 0))
         ++ executed (store (world_over [old_log; new_log] (Some (state_text 99 5))))
    /\ state_file w'
       = Some (@json_dumps Reference.runtime
                 (JObj (dict_set (u "offset")
                          (JInt (Z.of_nat (length (lf_bytes new_log))))
                          (dict_set (u "inode") (JInt (lf_inode new_log))
                             (state_of 99 5))))).
Proof.
  apply (@a_vanished_file_is_given_up Reference.runtime
           (world_over [old_log; new_log] (Some (state_text 99 5)))
           (state_text 99 5) (state_of 99 5) (JInt 99) new_log);
    vm_compute; reflexivity.
Defined.

Lemma nothing_is_read_below_the_stored_offset_witness :
  exists w',
    pass (RT := Reference.runtime)
      (world_over [old_log; new_log] (Some (state_text 8 500))) = (Ok tt, w')
    /\ durable (store w')
       = durable (store (world_over [old_log; new_log] (Some (state_text 8 500))))
    /\ executed (store w')
       = executed (store (world_over [old_log; new_log] (Some (state_text 8 500))))
    /\ state_file w' = Some (@json_dumps Reference.runtime (JObj (state_of 8 500))).
Proof.
  apply (@nothing_is_read_below_the_stored_offset Reference.runtime
           (world_over [old_log; new_log] (Some (state_text 8 500)))
           (state_text 8 500) (state_of 8 500) 500%Z new_log);
    try (vm_compute; reflexivity).
  vm_compute. discriminate.
Defined.

Lemma a_raising_line_stops_the_pass_witness :
  exists l e w',
    In l (@lines_from Reference.runtime poison_log 0)
    /\ process_line (RT := Reference.runtime) l = Raised e
    /\ pass (RT := Reference.runtime)
         (world_over [old_log; poison_log] (Some (state_text 9 0))) = (Raise e, w')
    /\ durable (store w')
       = durable (store (world_over [old_log; poison_log] (Some (state_text 9 0))))
    /\ state_file w'
       = state_file (world_over [old_log; poison_log] (Some (state_text 9 0))).
Proof.
  apply (@a_raising_line_stops_the_pass Reference.runtime
           (world_over [old_log; poison_log] (Some (state_text 9 0)))
           (state_text 9 0) (state_of 9 0) 0%Z poison_log);
    try (vm_compute; reflexivity).
  vm_compute. split; [discriminate|reflexivity].
Defined.

Lemma a_bad_stored_offset_stops_the_pass_witness :
  exists w',
    pass (RT := Reference.runtime)
      (world_over [old_log; new_log] (Some (state_text 8 (-1)))) = (Raise ValueError, w')
    /\ durable (store w')
       = durable (store (world_over [old_log; new_log] (Some (state_text 8 (-1)))))
    /\ executed (store w')
       = executed (store (world_over [old_log; new_log] (Some (state_text 8 (-1)))))
    /\ state_file w'
       = state_file (world_over [old_log; new_log] (Some (state_text 8 (-1)))).
Proof.
  apply (@a_bad_stored_offset_stops_the_pass Reference.runtime
           (world_over [old_log; new_log] (Some (state_text 8 (-1))))
           (state_text 8 (-1)) (state_of 8 (-1)) (JInt (-1)) ValueError new_log);
    vm_compute; reflexivity.
Defined.

Lemma a_pass_that_returns_has_read_the_latest_file_witness :
  exists latest final n,
    latest_of (log_files rotated_world) = Some latest
    /\ state_write rotated_world = WriteCompletes
    /\ state_file (snd (pass (RT := Reference.runtime) rotated_world))
       = Some (@json_dumps Reference.runtime (JObj final))
    /\ dict_get (u "offset") final = Some (JInt n)
    /\ (Z.of_nat (length (lf_bytes latest)) <= n)%Z
    /\ exists i, dict_get (u "inode") final = Some i
         /\ (@eq_int Reference.runtime i (lf_inode latest) = true
             \/ (@truth Reference.runtime i = false /\ i <> JNull)).
Proof.
  apply (@a_pass_that_returns_has_read_the_latest_file Reference.runtime
           rotated_world (snd (pass (RT := Reference.runtime) rotated_world))).
  vm_compute. reflexivity.
Defined.

Lemma without_a_log_file_the_pass_raises_witness :
  exists w',
    pass (RT := Reference.runtime) (world_over [] None) = (Raise FileNotFoundError, w')
    /\ state_file w' = state_file (world_over [] None)
    /\ durable (store w') = durable (store (world_over [] None))
    /\ executed (store w') = executed (store (world_over [] None)).
Proof.
  apply (@without_a_log_file_the_pass_raises Reference.runtime (world_over [] None));
    reflexivity.
Defined.

Lemma parsed_state_is_not_validated_witness :
  (load_state (RT := Reference.runtime) keyless_world = (Ok (JObj []), keyless_world)
   /\ exists e' w', pass (RT := Reference.runtime) keyless_world = (Raise e', w')
                    /\ state_file w' = state_file keyless_world)
  /\ (let text := u "{" ++ dq ++ u "inode" ++ dq ++ u ": 7}" in
      let w := world_over [old_log; new_log] (Some text) in
      exists e' w', pass (RT := Reference.runtime) w = (Raise e', w')
                    /\ state_file w' = state_file w).
Proof.
  split.
  - destruct (proj2 (proj2 (@parsed_state_is_not_validated Reference.runtime keyless_world))
                (u "{}") (JObj []) eq_refl eq_refl) as (Hl & Hp & _).
    split; [exact Hl|]. apply (Hp KeyError). reflexivity.
  - cbv zeta.
    destruct (proj2 (proj2 (@parsed_state_is_not_validated Reference.runtime
                              (world_over [old_log; new_log]
                                 (Some (u "{" ++ dq ++ u "inode" ++ dq ++ u ": 7}")))))
                (u "{" ++ dq ++ u "inode" ++ dq ++ u ": 7}")
                (JObj [(u "inode", JInt 7)]) eq_refl ltac:(vm_compute; reflexivity))
      as (_ & _ & Hp & _).
    apply (Hp [(u "inode", JInt 7)] (JInt 7)); reflexivity.
Defined.
